(** * Pill counter: the capture -> detect -> annotate pipeline

    A shallow embedding of the image pipeline of the pill counter web
    application and the properties its specification states about it.

    Sources embedded here:
    - [src/src/imageProcessing.js]   (module [Api]: hosted detection service)
    - [src/files/imageProcessing.js] (module [Local]: on-device placeholder
      detector, with downscaling and the mapping back to original space)
    - [ResultsDisplay.jsx]           (module [ResultsDisplay]: the renderer)
    - [App.jsx]                      (module [App]: the capture handler)

    JavaScript numbers are IEEE 754 binary64 values; they are modelled by
    Rocq's primitive [float], whose operations are the binary64 ones, so
    every arithmetic expression of the source is evaluated with the
    rounding the program really performs. *)

From Stdlib Require Import ZArith List Bool Ascii String DecimalString Lia Floats Reals Lra.
Import ListNotations.

Set Warnings "-inexact-float".

(** ** JavaScript numbers and the [Math] functions the pipeline uses *)

Module JS.

Definition number := float.

(** An integer as a number (exact below 2^53, rounded to nearest above). *)
Definition of_Z (z : Z) : number :=
  SF2Prim (binary_normalize prec emax z 0 false).

(** The mathematical integer [floor v] of a finite number. *)
Definition floorZ (v : number) : Z :=
  match Prim2SF v with
  | S754_finite s m e =>
      let z := cond_Zopp s (Zpos m) in
      if (0 <=? e)%Z then Z.shiftl z e else Z.shiftr z (- e)
  | _ => 0%Z
  end.

(** [Math.floor]: NaN, the infinities, both zeros and integers are fixed
    points; a fraction in (-1, 0) gives -1 and one in (0, 1) gives +0. *)
Definition Math_floor (v : number) : number :=
  match Prim2SF v with
  | S754_finite _ _ e => if (0 <=? e)%Z then v else of_Z (floorZ v)
  | _ => v
  end.

Definition is_neg_zero (v : number) : bool :=
  match Prim2SF v with S754_zero true => true | _ => false end.

(** [Math.min] of two numbers: NaN is contagious and -0 is below +0. *)
Definition Math_min2 (a b : number) : number :=
  if is_nan a || is_nan b then nan
  else if (a <? b)%float then a
  else if (b <? a)%float then b
  else if is_neg_zero a then a else b.

(** [Math.min(a, b, c)]. *)
Definition Math_min3 (a b c : number) : number :=
  Math_min2 (Math_min2 a b) c.

(** [a >= b], [a > b], [a < b]: false as soon as an operand is NaN. *)
Definition ge (a b : number) : bool := (b <=? a)%float.
Definition gt (a b : number) : bool := (b <? a)%float.
Definition lt (a b : number) : bool := (a <? b)%float.

(** [ToBoolean] of a number: 0, -0 and NaN are falsy. *)
Definition truthy (v : number) : bool := negb (is_nan v || is_zero v).

(** What the pipeline needs of an asynchronous function: the calls it has
    delivered to its callback (or to the platform) so far, in order, and
    its terminal outcome, a value or a thrown [Error] with its message. *)
Inductive outcome (A : Type) : Type :=
| Returned (a : A)
| Thrown (message : string).
Arguments Returned {A} a.
Arguments Thrown {A} message.

Definition Eff (E A : Type) : Type := (list E * outcome A)%type.

Definition ret {E A} (a : A) : Eff E A := ([], Returned a).
Definition throw {E A} (message : string) : Eff E A := ([], Thrown message).
Definition emit {E} (e : E) : Eff E unit := ([e], Returned tt).

Definition bind {E A B} (m : Eff E A) (k : A -> Eff E B) : Eff E B :=
  match snd m with
  | Returned a => (fst m ++ fst (k a), snd (k a))
  | Thrown msg => (fst m, Thrown msg)
  end.

(** [try { m } catch (error) { h error }]. *)
Definition catch {E A} (m : Eff E A) (h : string -> Eff E A) : Eff E A :=
  match snd m with
  | Returned a => m
  | Thrown msg => (fst m ++ fst (h msg), snd (h msg))
  end.

(** Running [m] with a callback that forwards each of its calls as [f]
    says (a callback that does nothing forwards no call). *)
Definition forward {E E' A} (f : E -> list E') (m : Eff E A) : Eff E' A :=
  (flat_map f (fst m), snd m).

Definition events {E A} (m : Eff E A) : list E := fst m.
Definition result {E A} (m : Eff E A) : outcome A := snd m.

End JS.

Import JS.

(** ** JavaScript strings

    The string methods the sources call, on a string given by its
    characters. The texts these methods are applied to (the program's own
    error messages, data URLs, ISO timestamps) are ASCII. *)

Module JSString.

Local Open Scope string_scope.

(** [toLowerCase] of one character: [A] to [Z] become [a] to [z]. *)
Definition lowerChar (c : ascii) : ascii :=
  let n := nat_of_ascii c in
  if ((65 <=? n) && (n <=? 90))%nat then ascii_of_nat (n + 32) else c.

Fixpoint toLowerCase (s : string) : string :=
  match s with
  | EmptyString => EmptyString
  | String c s' => String (lowerChar c) (toLowerCase s')
  end.

(** [s.includes(key)]: [key] occurs in [s]. *)
Fixpoint includes (s key : string) : bool :=
  String.prefix key s ||
  match s with
  | EmptyString => false
  | String _ s' => includes s' key
  end.

(** [s.split(sep)] for a separator of one character: the pieces between
    the separators, of which there is always at least one. *)
Fixpoint split (sep : ascii) (s : string) : list string :=
  match s with
  | EmptyString => [EmptyString]
  | String c s' =>
      if Ascii.eqb c sep then EmptyString :: split sep s'
      else match split sep s' with
           | piece :: rest => String c piece :: rest
           | [] => [String c EmptyString]
           end
  end.

(** [s.replace(/[...]/g, by)]: every character of the class is replaced. *)
Fixpoint replaceClass (inClass : ascii -> bool) (replacement : ascii) (s : string)
  : string :=
  match s with
  | EmptyString => EmptyString
  | String c s' =>
      String (if inClass c then replacement else c)
             (replaceClass inClass replacement s')
  end.

(** A non-negative integer inside a template literal: its decimal digits. *)
Definition ofNat (n : nat) : string :=
  NilEmpty.string_of_uint (Nat.to_uint n).

(** [ToBoolean] of a string: only the empty string is falsy. *)
Definition nonEmpty (s : string) : bool :=
  match s with EmptyString => false | String _ _ => true end.

(** [for (const [key, message] of Object.entries(table))
      if (text.includes(key)) return message;]
    over the entries in insertion order: the first key found decides. *)
Fixpoint firstIncluded (text : string) (entries : list (string * string))
  : option string :=
  match entries with
  | [] => None
  | (key, message) :: rest =>
      if includes text key then Some message else firstIncluded text rest
  end.

End JSString.

(** ** The value of a binary64 number

    [F2R v] is the real number a finite [number] denotes: its integer
    significand times a power of two (0 for NaN and the infinities). *)

Module B64.

Definition bpow (e : Z) : R :=
  match e with
  | Zneg p => Rinv (IZR (Z.pow_pos 2 p))
  | _ => IZR (2 ^ e)
  end.

Definition SF2R (f : spec_float) : R :=
  match f with
  | S754_finite s m e => Rmult (IZR (cond_Zopp s (Zpos m))) (bpow e)
  | _ => 0%R
  end.

Definition F2R (v : float) : R := SF2R (Prim2SF v).

(** Finite: neither NaN nor an infinity. *)
Definition finite (v : float) : bool := is_finite v.

Definition SF_is_finite (z : spec_float) : bool :=
  match z with S754_zero _ | S754_finite _ _ _ => true | _ => false end.

(** A magnitude with its sign bit. *)
Definition signed (s : bool) (r : R) : R := if s then Ropp r else r.

(** The exponent of the last place of a binary64 number of magnitude 2^e. *)
Abbreviation fexp64 := (fexp prec emax).

(** Where a positive real [v] lies between the consecutive multiples
    [m * 2^e] and [(m + 1) * 2^e]: on the lower one, below the middle, in the
    middle, above it. This is what a [location] records while a significand
    is shifted right. *)
Definition inbetween (m e : Z) (l : location) (v : R) : Prop :=
  match l with
  | loc_Exact => v = Rmult (IZR m) (bpow e)
  | loc_Inexact Lt =>
      (IZR m * bpow e < v < (IZR m + / 2) * bpow e)%R
  | loc_Inexact Eq => v = Rmult (IZR m + / 2) (bpow e)
  | loc_Inexact Gt =>
      ((IZR m + / 2) * bpow e < v < (IZR m + 1) * bpow e)%R
  end.

(** Floating-point tolerance of a round trip through two rounded
    operations: a relative error of 2^-51 (four half-units in the last
    place) and, for results in the subnormal range, an absolute 2^-1073. *)
Definition tolerance (original : R) : R :=
  (bpow (-51) * Rabs original + bpow (-1073))%R.

Definition closeTo (recovered original : float) : Prop :=
  (Rabs (F2R recovered - F2R original) <= tolerance (F2R original))%R.

End B64.

Import B64.

Declare Scope eff_scope.
Delimit Scope eff_scope with eff.
Notation "x <- m ;; k" := (bind m (fun x => k))
  (at level 61, m at next level, right associativity) : eff_scope.
Notation "m ;;; k" := (bind m (fun _ => k))
  (at level 61, right associativity) : eff_scope.

(** ** Data model *)

(** A detection box. The detection service gives [x], [y] as the centre of
    the box; the pipeline stores the top-left corner. A field the source
    object does not carry reads as [undefined]: [None] for [class]; for
    [confidence] the number NaN, which [>=], [*] and the truth test treat as
    they treat [undefined]. *)
Record Detection : Type := {
  x : number;
  y : number;
  width : number;
  height : number;
  confidence : number;
  class : option string
}.

(** A [File] (a [Blob] with a name): [size] is its byte length and
    [content] identifies its bytes. *)
Record File : Type := {
  name : string;
  type : string;
  size : Z;
  lastModified : Z;
  content : list Z
}.

(** What an image still does once the timer of the code that waits for
    it has fired: nothing more, or it loads after all, or it fails after
    all. The timer callbacks detach no handler, so such a late event runs
    the handler of [img.onload] or [img.onerror]. *)
Inductive LateEvent : Type :=
| NoLateEvent
| LateLoad (naturalWidth naturalHeight : number)
| LateError.

(** How loading an [Image] from an object URL goes for the code that waits
    for it with a timer, by the event that comes first: the image loads,
    the image fails, or the timer fires, after which [later] is what the
    image still does. *)
Inductive LoadOutcome : Type :=
| Loaded (naturalWidth naturalHeight : number)
| LoadError
| LoadTimeout (later : LateEvent).

(** A progress report [(percent, message)] handed to [onProgress]. *)
Definition Progress : Type := (number * string)%type.

(** [if (onProgress) onProgress(percent, message)]. *)
Definition report (onProgress : bool) (percent : number) (message : string)
  : Eff Progress unit :=
  if onProgress then emit (percent, message) else ret tt.

(** ** [src/src/imageProcessing.js]: validation and the hosted detector *)

Module Api.

Local Open Scope float_scope.
Local Open Scope string_scope.
Local Open Scope eff_scope.

Definition CONFIDENCE_THRESHOLD : number := 0.50.

Definition MAX_FILE_SIZE : Z := 10 * 1024 * 1024.
Definition MAX_DIMENSION : number := 4096.

(** *** [validateAndCompressImage] *)

(** Calls the validator makes to the platform, in order. *)
Inductive PlatformCall : Type :=
| CreateObjectURL (file : File)
| DecodeImage
| SetCanvasSize (w h : number)
| DrawImage (w h : number)
| ToBlob (mime : string) (quality : number)
| RevokeObjectURL.

(** What the platform answers during one validation: how decoding ends,
    the blob [canvas.toBlob] hands to its callback for a canvas of a given
    size ([None] for [null]), and the clock. *)
Record ValidatorEnv : Type := {
  decode : LoadOutcome;
  toBlob : number -> number -> string -> number -> option (list Z * Z);
  now : Z
}.

Definition tooLargeMessage : string :=
  "Image file is too large. Please try a closer photo or reduce image quality in camera settings.".
Definition loadTimeoutMessage : string :=
  "Image loading timed out. Please try a smaller image.".
Definition loadFailedMessage : string :=
  "Failed to load image. Please try again.".
Definition compressFailedMessage : string :=
  "Failed to compress image".

(** The canvas size chosen in [img.onload]. *)
Definition targetSize (maxDimension width height : number) : number * number :=
  let needsResize := gt width maxDimension || gt height maxDimension in
  if needsResize then
    let scale := Math_min2 (maxDimension / width) (maxDimension / height) in
    (Math_floor (width * scale), Math_floor (height * scale))
  else (width, height).

(** The callback of [setTimeout]. *)
Definition onTimeout : Eff PlatformCall File :=
  emit RevokeObjectURL ;;; throw loadTimeoutMessage.

(** [img.onload], with the callback of [canvas.toBlob]. *)
Definition onload (env : ValidatorEnv) (file : File) (imgWidth imgHeight : number)
  : Eff PlatformCall File :=
  let '(width, height) := targetSize MAX_DIMENSION imgWidth imgHeight in
  emit (SetCanvasSize width height) ;;;
  emit (DrawImage width height) ;;;
  emit (ToBlob "image/jpeg" 0.92) ;;;
  emit RevokeObjectURL ;;;
  match toBlob env width height "image/jpeg" 0.92 with
  | None => throw compressFailedMessage
  | Some (bytes, byteLength) =>
      ret {| name := name file;
             type := "image/jpeg";
             size := byteLength;
             lastModified := now env;
             content := bytes |}
  end.

(** [img.onerror]. *)
Definition onerror : Eff PlatformCall File :=
  emit RevokeObjectURL ;;; throw loadFailedMessage.

(** A promise settled by [m], and the calls a handler makes when it runs
    afterwards: its platform calls are made, its [resolve] or [reject]
    changes nothing. *)
Definition settledThen {E A} (m : Eff E A) (laterCalls : list E) : Eff E A :=
  ((fst m ++ laterCalls)%list, snd m).

Definition validateAndCompressImage (env : ValidatorEnv) (file : File)
  : Eff PlatformCall File :=
  (* Check file size first *)
  if (size file >? MAX_FILE_SIZE)%Z then throw tooLargeMessage
  else
    emit (CreateObjectURL file) ;;;
    emit DecodeImage ;;;
    match decode env with
    | Loaded imgWidth imgHeight => onload env file imgWidth imgHeight
    | LoadError => onerror
    | LoadTimeout later =>
        (* the timer rejects; [img.onload] and [img.onerror] stay attached *)
        settledThen onTimeout
          match later with
          | NoLateEvent => []
          | LateLoad imgWidth imgHeight => events (onload env file imgWidth imgHeight)
          | LateError => events onerror
          end
    end.

(** *** [callRoboflowAPI] *)

(** An element of the [predictions] array, as the code reads it: an
    object whose [x], [y], [width] and [height] are numbers, or any other
    value ([null], a number, a string, an object without one of these four
    numbers). *)
Inductive Prediction : Type :=
| Box (p : Detection)
| NotABox.

(** The [predictions] field of the body: missing or falsy ([null],
    [false], [0], the empty string); truthy but not an array (a string, a
    number, [true], an object); or an array. *)
Inductive Predictions : Type :=
| Absent
| NotAnArray
| Elements (preds : list Prediction).

(** The body of a response, once parsed. A body that is not an object
    ([null], a number, a string, an array) reads as one without
    [predictions] and without [image]. *)
Record ApiData : Type := {
  predictions : Predictions;
  image : option (number * number)
}.

Definition typeErrorMessage : string :=
  "Cannot read properties of undefined (reading 'toFixed')".

(** [preds.forEach(...)] over a callback that logs one line per
    element. The loop of [callRoboflowAPI] reads [pred.confidence] and calls
    [toFixed] on [pred.width], [pred.height], [pred.x] and [pred.y]: it
    throws a [TypeError] on the first element that is not a box. The loop of
    [processAndDisplayImage] reads [p.confidence], [p.x] and [p.y] the same
    way, of elements the former loop has run through. *)
Fixpoint logEach {E} (preds : list Prediction) : Eff E unit :=
  match preds with
  | [] => ret tt
  | Box _ :: rest => logEach rest
  | NotABox :: _ => throw typeErrorMessage
  end.

(** The elements of an array that the logging loop has run through: each
    of them is a box. *)
Definition boxes (preds : list Prediction) : list Detection :=
  flat_map (fun pred => match pred with Box p => [p] | NotABox => [] end) preds.

(** How the request ends: [fetch] rejects, or a response arrives with its
    [ok] flag and its body, [None] when it is not well-formed JSON. *)
Inductive FetchOutcome : Type :=
| FetchRejected
| FetchResponse (ok : bool) (status : Z) (json : option ApiData).

Definition analyzeFailedMessage : string :=
  "Failed to analyze image. Please try again.".

(** Whatever is thrown inside the [try] (a rejected [fetch], the "API
    request failed" error with the status, a body that does not parse, a
    [TypeError] of the debug logging) is caught, logged and replaced by the
    one message of the [catch]. *)
Definition callRoboflowAPI (response : FetchOutcome) (onProgress : bool)
  : Eff number ApiData :=
  (if onProgress then emit 0.3 else ret tt) ;;;
  catch
    (match response with
     | FetchRejected => throw "Failed to fetch"
     | FetchResponse ok status json =>
         if negb ok then throw "API request failed"
         else
           (if onProgress then emit 0.7 else ret tt) ;;;
           match json with
           | None => throw "Unexpected token"
           | Some data =>
               (* DEBUG: Log full API response *)
               match predictions data with
               | Absent => ret tt
               | NotAnArray => throw "data.predictions.forEach is not a function"
               | Elements preds => logEach preds
               end ;;;
               (if onProgress then emit 1.0 else ret tt) ;;;
               ret data
           end
     end)
    (fun _ => throw analyzeFailedMessage).

(** *** [processAndDisplayImage] *)

Record PipelineEnv : Type := {
  objectURL : string;
  imageLoad : LoadOutcome;
  fileToBase64 : option string;
  response : FetchOutcome;
  isoNow : string
}.

Record PipelineResult : Type := {
  originalImageUrl : string;
  originalWidth : number;
  originalHeight : number;
  detections : list Detection;
  pillCount : nat;
  timestamp : string
}.

(** Roboflow returns center x,y and width,height; convert to the top-left
    corner for drawing. *)
Definition toTopLeft (p : Detection) : Detection :=
  {| x := x p - (width p / 2);
     y := y p - (height p / 2);
     width := width p;
     height := height p;
     confidence := confidence p;
     class := class p |}.

Definition accepted (p : Detection) : bool :=
  ge (confidence p) CONFIDENCE_THRESHOLD.

(** Filter by confidence threshold and format detections. *)
Definition formatDetections (predictions : list Detection) : list Detection :=
  map toTopLeft (filter accepted predictions).

Definition processAndDisplayImage (env : PipelineEnv) (imageFile : File)
    (onProgress : bool) : Eff Progress PipelineResult :=
  report onProgress 10 "Loading image..." ;;;
  let originalImageUrl := objectURL env in
  dims <- match imageLoad env with
          | Loaded w h => ret (w, h)
          | LoadError => throw "Failed to load image"
          | LoadTimeout _ => throw "Image loading timeout"
          end ;;
  report onProgress 30 "Preparing for analysis..." ;;;
  let originalWidth := fst dims in
  let originalHeight := snd dims in
  base64Data <- match fileToBase64 env with
                | Some b => ret b
                | None => throw "Failed to read file"
                end ;;
  report onProgress 50 "Detecting pills..." ;;;
  apiResult <- forward
                 (fun progress =>
                    if onProgress
                    then [(50 + progress * 40, "Detecting pills...")]
                    else [])
                 (callRoboflowAPI (response env) true) ;;
  report onProgress 90 "Finalizing results..." ;;;
  (* Process predictions from Roboflow *)
  detections <- match predictions apiResult with
                | Elements preds =>
                    (* Log ALL predictions with their confidence *)
                    logEach preds ;;;
                    (* Filter by confidence threshold and format detections *)
                    ret (formatDetections (boxes preds))
                | Absent => ret []
                | NotAnArray => ret []
                end ;;
  report onProgress 100 "Complete!" ;;;
  (* Return complete result object *)
  ret (Build_PipelineResult originalImageUrl originalWidth originalHeight
         detections (List.length detections) (isoNow env)).

(** *** [fileToBase64] *)

(** How [reader.readAsDataURL(file)] ends: [onload] with the data URL in
    [reader.result], or [onerror]. *)
Inductive ReadOutcome : Type :=
| ReadLoaded (readerResult : string)
| ReadFailed.

(** [base64.split(',')[1] || base64]: the second piece when there is one
    and it is not empty, else the whole string. *)
Definition base64DataOf (base64 : string) : string :=
  match nth_error (JSString.split "," base64) 1 with
  | Some piece => if JSString.nonEmpty piece then piece else base64
  | None => base64
  end.

(** [fileToBase64], named apart from the field that records its outcome
    for the pipeline. *)
Definition fileToBase64Of {E} (read : ReadOutcome) : Eff E string :=
  match read with
  | ReadLoaded base64 =>
      (* Remove data URL prefix if present *)
      ret (base64DataOf base64)
  | ReadFailed => throw "Failed to read file"
  end.

(** *** [getErrorMessage] *)

(** The entries of [errorMessages], in insertion order. *)
Definition errorMessages : list (string * string) :=
  [("too large",
    "Image file is too large. Try taking a photo from a closer distance or reduce camera quality settings.");
   ("timeout",
    "Processing took too long. Please try again with a clearer photo.");
   ("failed to load",
    "Could not load the image. Please try again.");
   ("out of memory",
    "Not enough memory to process this image. Try taking a photo from closer.");
   ("api request failed",
    "Could not connect to the detection service. Please check your internet connection.");
   ("failed to analyze",
    "Failed to analyze the image. Please try again.")].

Definition fallbackMessage : string :=
  "An error occurred while processing the image. Please try again.".

(** [errorMessage] is [error.message]. *)
Definition getErrorMessage (errorMessage : string) : string :=
  let errorText := JSString.toLowerCase errorMessage in
  match JSString.firstIncluded errorText errorMessages with
  | Some message => message
  | None => fallbackMessage
  end.

End Api.

(** ** [src/files/imageProcessing.js]: downscaling and the placeholder detector *)

Module Local.

Local Open Scope float_scope.
Local Open Scope string_scope.
Local Open Scope eff_scope.

Definition maxProcessingDimension : number := 1024.

(** Downscale for processing efficiency; the last argument of [Math.min]
    keeps an image that is already small from being upscaled. *)
Definition scaleFor (maxDimension originalWidth originalHeight : number)
  : number :=
  Math_min3 (maxDimension / originalWidth) (maxDimension / originalHeight) 1.

(** [processedCanvas.width] and [processedCanvas.height]. *)
Definition processedSize (maxDimension originalWidth originalHeight : number)
  : number * number :=
  let scale := scaleFor maxDimension originalWidth originalHeight in
  (Math_floor (originalWidth * scale), Math_floor (originalHeight * scale)).

(** Scale a detection back to original image dimensions. The object the
    source builds has no [class] field. *)
Definition scaleDetection (scale : number) (detection : Detection) : Detection :=
  {| x := x detection / scale;
     y := y detection / scale;
     width := width detection / scale;
     height := height detection / scale;
     confidence := confidence detection;
     class := None |}.

(** The mapping the other way, which the specification uses to state the
    round trip: back from original space to inference space. *)
Definition unscaleDetection (scale : number) (detection : Detection) : Detection :=
  {| x := x detection * scale;
     y := y detection * scale;
     width := width detection * scale;
     height := height detection * scale;
     confidence := confidence detection;
     class := class detection |}.

(** *** [runPillDetection], the mock detector

    [random k] is what the [k]-th call of [Math.random] returns. The loop
    [for (let i = 0; i < numPills; i++)] runs on the fuel [numPills]
    itself, an integer once [Math.floor] and [+ 5] have been applied. *)
Fixpoint mockLoop (random : nat -> number) (canvasWidth canvasHeight numPills : number)
    (onProgress : bool) (fuel : nat) (i : number) (calls : nat)
  : Eff number (list Detection) :=
  match fuel with
  | O => ret []
  | S fuel' =>
      if lt i numPills then
        let d := {| x := random calls * canvasWidth;
                    y := random (calls + 1)%nat * canvasHeight;
                    width := 30 + random (calls + 2)%nat * 20;
                    height := 30 + random (calls + 3)%nat * 20;
                    confidence := 0.85 + random (calls + 4)%nat * 0.15;
                    class := None |} in
        (if onProgress then emit ((i + 1) / numPills) else ret tt) ;;;
        rest <- mockLoop random canvasWidth canvasHeight numPills onProgress
                  fuel' (i + 1) (calls + 5)%nat ;;
        ret (d :: rest)
      else ret []
  end.

Definition runPillDetection (random : nat -> number)
    (canvasWidth canvasHeight : number) (onProgress : bool)
  : Eff number (list Detection) :=
  let numPills := Math_floor (random O * 20) + 5 in
  mockLoop random canvasWidth canvasHeight numPills onProgress
    (Z.to_nat (floorZ numPills)) 0 1%nat.

(** *** [processAndDisplayImage] *)

Record PipelineEnv : Type := {
  objectURL : string;
  imageLoad : LoadOutcome;
  random : nat -> number;
  isoNow : string
}.

Record PipelineResult : Type := {
  originalImageUrl : string;
  originalWidth : number;
  originalHeight : number;
  detections : list Detection;
  pillCount : nat;
  processingScale : number;
  timestamp : string
}.

Definition processAndDisplayImage (env : PipelineEnv) (imageFile : File)
    (onProgress : bool) : Eff Progress PipelineResult :=
  report onProgress 10 "Loading image..." ;;;
  let originalImageUrl := objectURL env in
  dims <- match imageLoad env with
          | Loaded w h => ret (w, h)
          | LoadError => throw "Failed to load image"
          | LoadTimeout _ => throw "Image loading timeout"
          end ;;
  report onProgress 30 "Preparing for analysis..." ;;;
  let originalWidth := fst dims in
  let originalHeight := snd dims in
  let scale := scaleFor maxProcessingDimension originalWidth originalHeight in
  let processedCanvas := processedSize maxProcessingDimension originalWidth originalHeight in
  report onProgress 50 "Detecting pills..." ;;;
  detections <- forward
                  (fun progress =>
                     if onProgress
                     then [(50 + progress * 0.4, "Detecting pills...")]
                     else [])
                  (runPillDetection (random env)
                     (fst processedCanvas) (snd processedCanvas) true) ;;
  report onProgress 90 "Finalizing results..." ;;;
  let scaledDetections := map (scaleDetection scale) detections in
  report onProgress 100 "Complete!" ;;;
  (* Return complete result object *)
  ret (Build_PipelineResult originalImageUrl originalWidth originalHeight
         scaledDetections (List.length scaledDetections) scale (isoNow env)).

(** *** [getErrorMessage] *)

(** The entries of [errorMessages], in insertion order. *)
Definition errorMessages : list (string * string) :=
  [("too large",
    "Image file is too large. Try taking a photo from a closer distance or reduce camera quality settings.");
   ("timeout",
    "Processing took too long. Please try again with a clearer photo.");
   ("failed to load",
    "Could not load the image. Please try again.");
   ("out of memory",
    "Not enough memory to process this image. Try taking a photo from closer.")].

Definition fallbackMessage : string :=
  "An error occurred while processing the image. Please try again.".

(** [errorMessage] is [error.message]. *)
Definition getErrorMessage (errorMessage : string) : string :=
  let errorText := JSString.toLowerCase errorMessage in
  match JSString.firstIncluded errorText errorMessages with
  | Some message => message
  | None => fallbackMessage
  end.

(** *** [validateAndCompressImage] of this file

    The executor of its promise assigns [img.onload] twice: first the
    handler that draws and encodes, then, after [setTimeout], a handler that
    clears the timer and calls [img.onload()]. A call [img.onload()] looks
    the property up when it runs. What the executor and the handlers do is
    recorded as calls, those of [resolve] and [reject] included: the promise
    is settled by the first of these, and stays pending if there is none. *)

Inductive ValidatorCall : Type :=
| CreateObjectURL (file : File)
| DecodeImage
| ClearTimeout
| SetCanvasSize (w h : number)
| DrawImage (w h : number)
| ToBlob (mime : string) (quality : number)
| RevokeObjectURL
| Resolve (compressedFile : File)
| Reject (message : string).

(** The two arrow functions assigned to [img.onload], in the order of the
    assignments. *)
Inductive OnloadHandler : Type :=
| DrawAndEncode
| ClearAndCallOnload.

(** The value of [img.onload] once the executor has run: the second
    assignment replaces the first. *)
Definition installedOnload : OnloadHandler := ClearAndCallOnload.

(** The first handler, with the callback of [canvas.toBlob]. *)
Definition drawAndEncode (env : Api.ValidatorEnv) (file : File)
    (imgWidth imgHeight : number) : Eff ValidatorCall unit :=
  let '(width, height) := Api.targetSize Api.MAX_DIMENSION imgWidth imgHeight in
  emit (SetCanvasSize width height) ;;;
  emit (DrawImage width height) ;;;
  emit (ToBlob "image/jpeg" 0.92) ;;;
  emit RevokeObjectURL ;;;
  match Api.toBlob env width height "image/jpeg" 0.92 with
  | None => emit (Reject "Failed to compress image")
  | Some (bytes, byteLength) =>
      emit (Resolve {| name := name file;
                       type := "image/jpeg";
                       size := byteLength;
                       lastModified := Api.now env;
                       content := bytes |})
  end.

(** A call of the function held by [img.onload], [slot], with room for
    [stack] more frames on the call stack; a call without room throws a
    [RangeError]. *)
Fixpoint callOnload (stack : nat) (slot : OnloadHandler) (env : Api.ValidatorEnv)
    (file : File) (imgWidth imgHeight : number) : Eff ValidatorCall unit :=
  match stack with
  | O => throw "Maximum call stack size exceeded"
  | S stack' =>
      match slot with
      | DrawAndEncode => drawAndEncode env file imgWidth imgHeight
      | ClearAndCallOnload =>
          emit ClearTimeout ;;;
          (* Call original onload *)
          callOnload stack' slot env file imgWidth imgHeight
      end
  end.

(** How a promise ends, given the calls made: the first [resolve] or
    [reject] decides. *)
Inductive Settlement : Type :=
| Resolved (compressedFile : File)
| Rejected (message : string)
| Pending.

Fixpoint settlement (calls : list ValidatorCall) : Settlement :=
  match calls with
  | [] => Pending
  | Resolve f :: _ => Resolved f
  | Reject message :: _ => Rejected message
  | _ :: rest => settlement rest
  end.

(** The calls of one validation, the later ones of its timer included,
    and the promise it returns. An error thrown by an event handler is
    reported by the platform; it does not reach the promise. *)
Definition validationCalls (stack : nat) (env : Api.ValidatorEnv) (file : File)
  : list ValidatorCall :=
  [CreateObjectURL file; DecodeImage] ++
  match Api.decode env with
  | Loaded imgWidth imgHeight =>
      (* the platform calls the handler on a stack that has room for it *)
      events (callOnload (S stack) installedOnload env file imgWidth imgHeight)
  | LoadError =>
      [RevokeObjectURL; Reject "Failed to load image. Please try again.";
       (* the timer, which this handler does not clear *)
       RevokeObjectURL; Reject "Image loading timed out. Please try a smaller image."]
  | LoadTimeout later =>
      ([RevokeObjectURL; Reject "Image loading timed out. Please try a smaller image."]
       ++ match later with
         | NoLateEvent => []
         | LateLoad imgWidth imgHeight =>
             events (callOnload (S stack) installedOnload env file imgWidth imgHeight)
          | LateError =>
              [RevokeObjectURL; Reject "Failed to load image. Please try again."]
          end)%list
  end.

Definition validateAndCompressImage (stack : nat) (env : Api.ValidatorEnv)
    (file : File) : list ValidatorCall * Settlement :=
  (* Check file size first *)
  if (size file >? Api.MAX_FILE_SIZE)%Z
  then ([], Rejected "Image file is too large. Please try a closer photo or reduce image quality in camera settings.")
  else (validationCalls stack env file,
        settlement (validationCalls stack env file)).

End Local.

(** ** The 2D canvas *)

Module Canvas.

Local Open Scope string_scope.

(** The strings the renderers draw: [(index + 1).toString()] and
    [`${percent.toFixed(0)}%`]. *)
Inductive Text : Type :=
| IndexLabel (n : nat)
| ConfidenceLabel (percent : number).

(** The drawing state the renderers assign to. *)
Record Context : Type := {
  fillStyle : string;
  strokeStyle : string;
  lineWidth : number;
  font : string;
  textBaseline : string
}.

Definition initial : Context :=
  {| fillStyle := "#000000"; strokeStyle := "#000000"; lineWidth := 1%float;
     font := "10px sans-serif"; textBaseline := "alphabetic" |}.

Definition set_fillStyle (v : string) (c : Context) : Context :=
  {| fillStyle := v; strokeStyle := strokeStyle c; lineWidth := lineWidth c;
     font := font c; textBaseline := textBaseline c |}.
Definition set_strokeStyle (v : string) (c : Context) : Context :=
  {| fillStyle := fillStyle c; strokeStyle := v; lineWidth := lineWidth c;
     font := font c; textBaseline := textBaseline c |}.
Definition set_lineWidth (v : number) (c : Context) : Context :=
  {| fillStyle := fillStyle c; strokeStyle := strokeStyle c; lineWidth := v;
     font := font c; textBaseline := textBaseline c |}.
Definition set_font (v : string) (c : Context) : Context :=
  {| fillStyle := fillStyle c; strokeStyle := strokeStyle c;
     lineWidth := lineWidth c; font := v; textBaseline := textBaseline c |}.
Definition set_textBaseline (v : string) (c : Context) : Context :=
  {| fillStyle := fillStyle c; strokeStyle := strokeStyle c;
     lineWidth := lineWidth c; font := font c; textBaseline := v |}.

(** The painting calls, each with the drawing state it was made in. *)
Inductive Paint : Type :=
| DrawImage
| FillRect (c : Context) (x y w h : number)
| StrokeRect (c : Context) (x y w h : number)
| FillText (c : Context) (text : Text) (x y : number)
| StrokeText (c : Context) (text : Text) (x y : number).

(** [Number.prototype.toFixed]: a [RangeError] unless the number of
    digits is between 0 and 100; the digits themselves are kept
    symbolic, as a [ConfidenceLabel]. *)
Definition toFixed {E} (v : number) (fractionDigits : Z) : Eff E number :=
  if ((0 <=? fractionDigits) && (fractionDigits <=? 100))%Z then ret v
  else throw "toFixed() digits argument must be between 0 and 100".

(** [array.forEach((element, index) => ...)] over a callback that
    updates the drawing state. *)
Fixpoint forEach {St E A} (f : St -> A -> nat -> Eff E St) (l : list A)
    (index : nat) (s : St) : Eff E St :=
  match l with
  | [] => ret s
  | a :: l' => bind (f s a index) (forEach f l' (S index))
  end.

(** The points of the plane a call [fillRect(x, y, w, h)] fills: none
    when an argument is not finite, else the rectangle between the
    corners [(x, y)] and [(x + w, y + h)]. *)
Definition between (a b u : R) : Prop :=
  (a <= u <= b)%R \/ (b <= u <= a)%R.

Definition rectangle (x y w h : number) (u v : R) : Prop :=
  finite x = true /\ finite y = true /\
  finite w = true /\ finite h = true /\
  between (F2R x) (F2R x + F2R w) u /\ between (F2R y) (F2R y + F2R h) v.

(** The canvas bitmap [0, width] x [0, height]; painting is clipped to it. *)
Definition onCanvas (canvasWidth canvasHeight : number) (u v : R) : Prop :=
  (0 <= u <= F2R canvasWidth)%R /\ (0 <= v <= F2R canvasHeight)%R.

(** The part of a call [fillRect(x, y, w, h)] that shows in the output:
    the points of its rectangle that lie on the canvas. *)
Definition visible (canvasWidth canvasHeight : number) (x y w h : number)
    (u v : R) : Prop :=
  rectangle x y w h u v /\ onCanvas canvasWidth canvasHeight u v.

(** The boxes handed to [strokeRect], in the order of the calls. *)
Definition strokedBoxes (calls : list Paint) : list (number * number * number * number) :=
  flat_map (fun call => match call with
                        | StrokeRect _ x y w h => [(x, y, w, h)]
                        | _ => []
                        end) calls.

Definition boxOf (d : Detection) : number * number * number * number :=
  (x d, y d, width d, height d).

(** A box entirely outside the canvas rectangle: to its left, to its
    right, above it or below it. *)
Definition outside (canvasWidth canvasHeight : number) (d : Detection) : Prop :=
  (Rmax (F2R (x d)) (F2R (x d) + F2R (width d)) < 0)%R \/
  (F2R canvasWidth < Rmin (F2R (x d)) (F2R (x d) + F2R (width d)))%R \/
  (Rmax (F2R (y d)) (F2R (y d) + F2R (height d)) < 0)%R \/
  (F2R canvasHeight < Rmin (F2R (y d)) (F2R (y d) + F2R (height d)))%R.

End Canvas.

(** ** [drawDetectionsOnCanvas] of [imageProcessing.js] *)

Module Renderer.

Import Canvas.
Local Open Scope float_scope.
Local Open Scope string_scope.
Local Open Scope eff_scope.

(** The callback of [detections.forEach] in [img.onload]. *)
Definition drawDetection (ctx : Context) (detection : Detection) (index : nat)
  : Eff Paint Context :=
  (* Draw semi-transparent fill *)
  let ctx := set_fillStyle "rgba(255, 0, 0, 0.2)" ctx in
  emit (FillRect ctx (x detection) (y detection) (width detection) (height detection)) ;;;
  (* Draw bounding box *)
  let ctx := set_strokeStyle "#FF0000" ctx in
  let ctx := set_lineWidth 3 ctx in
  emit (StrokeRect ctx (x detection) (y detection) (width detection) (height detection)) ;;;
  (* Draw pill number *)
  let ctx := set_fillStyle "#FF0000" ctx in
  let ctx := set_font "bold 24px Arial" ctx in
  let ctx := set_strokeStyle "#FFFFFF" ctx in
  let ctx := set_lineWidth 4 ctx in
  let text := IndexLabel (index + 1) in
  let textX := x detection + 8 in
  let textY := y detection + 28 in
  (* Text outline for visibility *)
  emit (StrokeText ctx text textX textY) ;;;
  emit (FillText ctx text textX textY) ;;;
  (* Draw confidence if available *)
  if truthy (confidence detection) then
    percent <- toFixed (confidence detection * 100) 0 ;;
    let confText := ConfidenceLabel percent in
    let ctx := set_font "14px Arial" ctx in
    let confY := y detection + height detection - 8 in
    emit (StrokeText ctx confText textX confY) ;;;
    emit (FillText ctx confText textX confY) ;;;
    ret ctx
  else ret ctx.

(** The canvas once the promise settles: its size and drawing state. *)
Record Drawn : Type := {
  canvasWidth : number;
  canvasHeight : number;
  context : Context
}.

(** [imageLoad] is how loading [imageSrc] ends. Assigning [canvas.width]
    resets the drawing state, so drawing starts from the initial one. *)
Definition drawDetectionsOnCanvas (imageLoad : LoadOutcome)
    (detections : list Detection) : Eff Paint Drawn :=
  match imageLoad with
  | Loaded naturalWidth naturalHeight =>
      (* Set canvas to match image dimensions, draw original image *)
      emit DrawImage ;;;
      (* Draw detection markers *)
      ctx <- forEach drawDetection detections 0 initial ;;
      ret {| canvasWidth := naturalWidth; canvasHeight := naturalHeight;
             context := ctx |}
  | _ => throw "Failed to load image for drawing"
  end.

End Renderer.

(** ** [ResultsDisplay.jsx] *)

Module ResultsDisplay.

Import Canvas.
Local Open Scope float_scope.
Local Open Scope string_scope.
Local Open Scope eff_scope.

Section Draw.

(** [ctx.measureText(text).width] under a given font. *)
Variable measureText : string -> Text -> number.

(** The callback of [detections.forEach] in [drawDetections]. *)
Definition drawDetection (ctx : Context) (detection : Detection) (index : nat)
  : Eff Paint Context :=
  (* Semi-transparent fill *)
  let ctx := set_fillStyle "rgba(255, 0, 0, 0.15)" ctx in
  emit (FillRect ctx (x detection) (y detection) (width detection) (height detection)) ;;;
  (* Bounding box *)
  let ctx := set_strokeStyle "#FF0000" ctx in
  let ctx := set_lineWidth 4 ctx in
  emit (StrokeRect ctx (x detection) (y detection) (width detection) (height detection)) ;;;
  (* Pill number with background *)
  let pillNumber := IndexLabel (index + 1) in
  let ctx := set_font "bold 28px Arial" ctx in
  let textWidth := measureText (font ctx) pillNumber in
  let textHeight := 28 in
  let bgPadding := 6 in
  let bgX := x detection in
  let bgY := y detection in
  let bgWidth := textWidth + bgPadding * 2 in
  let bgHeight := textHeight + bgPadding * 2 in
  (* Draw background rectangle *)
  let ctx := set_fillStyle "rgba(255, 0, 0, 0.9)" ctx in
  emit (FillRect ctx bgX bgY bgWidth bgHeight) ;;;
  (* Draw text *)
  let ctx := set_fillStyle "#FFFFFF" ctx in
  let ctx := set_textBaseline "top" ctx in
  emit (FillText ctx pillNumber (bgX + bgPadding) (bgY + bgPadding)) ;;;
  (* Draw confidence score if available *)
  if truthy (confidence detection) then
    percent <- toFixed (confidence detection * 100) 0 ;;
    let confText := ConfidenceLabel percent in
    let ctx := set_font "16px Arial" ctx in
    let confY := y detection + height detection - 24 in
    (* Background for confidence *)
    let confWidth := measureText (font ctx) confText in
    let ctx := set_fillStyle "rgba(0, 0, 0, 0.7)" ctx in
    emit (FillRect ctx (x detection) (confY - 4) (confWidth + 8) 20) ;;;
    (* Confidence text *)
    let ctx := set_fillStyle "#FFFFFF" ctx in
    emit (FillText ctx confText (x detection + 4) confY) ;;;
    ret ctx
  else ret ctx.

Definition drawDetections (ctx : Context) (detections : list Detection)
  : Eff Paint Context :=
  forEach drawDetection detections 0 ctx.

End Draw.

(** The display scale computed in [img.onload] from the container's
    [clientWidth]: [Math.min(scale, 1)]. *)
Definition canvasScaleFor (clientWidth originalWidth : number) : number :=
  let containerWidth := clientWidth - 20 in
  let scale := containerWidth / originalWidth in
  Math_min2 scale 1.

(** The file name [handleDownload] gives the saved image; [isoNow] is
    [new Date().toISOString()]. *)
Definition downloadName (pillCount : nat) (isoNow : string) : string :=
  let timestamp :=
    JSString.replaceClass
      (fun c => Ascii.eqb c ":" || Ascii.eqb c ".") "-" isoNow in
  "pill-count-" ++ JSString.ofNat pillCount ++ "-" ++ timestamp ++ ".jpg".

End ResultsDisplay.

(** ** [App.jsx] *)

Module App.

Local Open Scope float_scope.
Local Open Scope string_scope.
Local Open Scope eff_scope.

(** What [handleImageCapture] tells the progress state, in order: its
    own two updates, and those its progress callback forwards. *)
Inductive ProgressUpdate : Type :=
| Own (p : Progress)
| FromCallback (p : Progress).

Definition percentOf (u : ProgressUpdate) : number :=
  match u with Own p | FromCallback p => fst p end.

(** The calls of the pipeline's progress callback among the updates. *)
Definition delivered (us : list ProgressUpdate) : list Progress :=
  flat_map (fun u => match u with FromCallback p => [p] | Own _ => [] end) us.

(** The [try] block of [handleImageCapture]. *)
Definition handleImageCapture (venv : Api.ValidatorEnv) (penv : Api.PipelineEnv)
    (file : File) : Eff ProgressUpdate Api.PipelineResult :=
  emit (Own (0, "Starting...")) ;;;
  (* Validate and compress image *)
  validatedFile <- forward (fun _ => []) (Api.validateAndCompressImage venv file) ;;
  emit (Own (20, "Image validated")) ;;;
  (* Process image *)
  result <- forward (fun p => [FromCallback p])
              (Api.processAndDisplayImage penv validatedFile true) ;;
  ret result.

(** *** The component state *)

(** The four [useState] cells of [App]. *)
Record State : Type := {
  results : option Api.PipelineResult;
  isLoading : bool;
  error : option string;
  progress : Progress
}.

Definition initialState : State :=
  {| results := None; isLoading := false; error := None; progress := (0, "") |}.

(** The progress cell after a sequence of [setProgress] calls. *)
Definition lastProgress (start : Progress) (updates : list ProgressUpdate)
  : Progress :=
  fold_left (fun _ u => match u with Own p | FromCallback p => p end)
            updates start.

(** The state once [handleImageCapture(file)] has settled, [file] being
    [None] for a falsy argument: the [try] block above between
    [setIsLoading(true); setError(null)] and either
    [setResults(result); setIsLoading(false)] or the [catch] with
    [setIsLoading(false); setError(getErrorMessage(err))]. *)
Definition afterImageCapture (venv : Api.ValidatorEnv) (penv : Api.PipelineEnv)
    (file : option File) (s : State) : State :=
  match file with
  | None => s
  | Some file =>
      let run := handleImageCapture venv penv file in
      let progress' := lastProgress (progress s) (events run) in
      match result run with
      | Returned r =>
          {| results := Some r; isLoading := false; error := None;
             progress := progress' |}
      | Thrown message =>
          {| results := results s; isLoading := false;
             error := Some (Api.getErrorMessage message);
             progress := progress' |}
      end
  end.

(** [handleFileSelect] and [handleCameraCapture]: [event.target.files[0]],
    if there is one, goes to [handleImageCapture]. *)
Definition handleFileSelect (venv : Api.ValidatorEnv) (penv : Api.PipelineEnv)
    (files : list File) (s : State) : State :=
  match nth_error files 0 with
  | Some file => afterImageCapture venv penv (Some file) s
  | None => s
  end.

(** [handleRetake]: the object URLs it revokes and the state it leaves. *)
Definition handleRetake (s : State) : list string * State :=
  (match results s with
   | Some r =>
       if JSString.nonEmpty (Api.originalImageUrl r)
       then [Api.originalImageUrl r] else []
   | None => []
   end,
   {| results := None; isLoading := isLoading s; error := None;
      progress := (0, "") |}).

(** What [App] renders: the results screen as soon as [results] is set,
    else the capture screen, with the error box when [error] is a
    non-empty string and the loading overlay while [isLoading]. *)
Inductive Screen : Type :=
| ResultsScreen (r : Api.PipelineResult)
| CaptureScreen (errorBox : option string) (overlay : option Progress).

Definition render (s : State) : Screen :=
  match results s with
  | Some r => ResultsScreen r
  | None =>
      CaptureScreen
        (match error s with
         | Some message =>
             if JSString.nonEmpty message then Some message else None
         | None => None
         end)
        (if isLoading s then Some (progress s) else None)
  end.

End App.

(** ** Vocabulary of the properties *)

Module Props.

Local Open Scope float_scope.

(** A sequence of percentages never goes down from one call to the next. *)
Fixpoint nonDecreasing (l : list number) : bool :=
  match l with
  | a :: (b :: _) as l' => (a <=? b) && nonDecreasing l'
  | _ => true
  end.

Definition percentages (l : list Progress) : list number := map fst l.

(** The ten confidences of the specification's filter example. *)
Definition exampleConfidences : list number :=
  [0.9; 0.4; 0.5; 0.51; 0.0; 1.0; 0.49; 0.6; 0.3; 0.8].

Definition exampleRetained : list number :=
  [0.9; 0.5; 0.51; 1.0; 0.6; 0.8].

(** The centre of a top-left box: [(x + width / 2, y + height / 2)]. *)
Definition centerOf (d : Detection) : number * number :=
  (x d + width d / 2, y d + height d / 2).

(** The four spatial fields are finite numbers. *)
Definition finiteBox (d : Detection) : bool :=
  finite (x d) && finite (y d) && finite (width d) && finite (height d).

(** Each spatial field of [recovered] is within tolerance of the same
    field of [original]. *)
Definition closeBox (recovered original : Detection) : Prop :=
  closeTo (x recovered) (x original) /\
  closeTo (y recovered) (y original) /\
  closeTo (width recovered) (width original) /\
  closeTo (height recovered) (height original).

(** A recovered centre coordinate is within 2^-51, relative to the
    magnitudes of the centre coordinate and of the half size that were
    subtracted and added back. *)
Definition closeCenter (recovered center halfSize : float) : Prop :=
  (Rabs (F2R recovered - F2R center)
   <= bpow (-51) * (Rabs (F2R center) + Rabs (F2R halfSize)))%R.

End Props.

Import Props.

(** ** Inputs of the examples *)

Module Examples.

Local Open Scope float_scope.
Local Open Scope string_scope.

(** An 800 x 600 PNG of 1000 bytes, and a platform that decodes it and
    encodes the canvas into a two-byte JPEG. *)
Definition smallPng : File :=
  {| name := "photo.png"; type := "image/png"; size := 1000;
     lastModified := 0; content := [137; 80; 78; 71]%Z |}.

Definition decodes800x600 : Api.ValidatorEnv :=
  {| Api.decode := Loaded 800 600;
     Api.toBlob := fun _ _ _ _ => Some ([255; 216]%Z, 2%Z);
     Api.now := 1700000000000%Z |}.

(** A detection whose [x] is 2^1023, a finite number at the top of the
    binary64 range. *)
Definition farDetection : Detection :=
  {| x := 0x1p1023; y := 60.1; width := 50.7; height := 20.3; confidence := 0.9;
     class := None |}.

(** A prediction whose centre and size are not multiples of a power of
    two: centre (100.3, 60.1), size 50.7 x 20.3. *)
Definition fractionalPrediction : Detection :=
  {| x := 100.3; y := 60.1; width := 50.7; height := 20.3; confidence := 0.9;
     class := Some "pill" |}.

(** The scale factor of a 3024 x 4032 image, and a detection on its
    768 x 1024 inference image. *)
Definition scaleOf3024x4032 : number :=
  Local.scaleFor Local.maxProcessingDimension 3024 4032.

Definition inferredDetection : Detection :=
  {| x := 100.3; y := 60.1; width := 50.7; height := 20.3; confidence := 0.9;
     class := None |}.

(** The ten predictions of the filter example, all with the same box. *)
Definition examplePredictions : list Detection :=
  map (fun c => {| x := 100; y := 50; width := 20; height := 10;
                   confidence := c; class := Some "pill" |})
      exampleConfidences.

(** A run in which the image loads, the file is read and the service
    answers with the ten predictions. *)
Definition answeringService : Api.PipelineEnv :=
  {| Api.objectURL := "blob:original";
     Api.imageLoad := Loaded 3024 4032;
     Api.fileToBase64 := Some "/9j/4AAQ";
     Api.response :=
       Api.FetchResponse true 200
         (Some {| Api.predictions := Api.Elements (map Api.Box examplePredictions);
                  Api.image := Some (3024, 4032) |});
     Api.isoNow := "2024-01-01T00:00:00.000Z" |}.

(** A run of the placeholder detector in which [Math.random] always
    returns 0.25: ten pills. *)
Definition quarterRandom : Local.PipelineEnv :=
  {| Local.objectURL := "blob:original";
     Local.imageLoad := Loaded 3024 4032;
     Local.random := fun _ => 0.25;
     Local.isoNow := "2024-01-01T00:00:00.000Z" |}.

(** A box 40 x 30 whose corner is at (-50, 20): entirely to the left of
    any canvas. *)
Definition offCanvasDetection : Detection :=
  {| x := -50; y := 20; width := 40; height := 30; confidence := 0.9;
     class := None |}.

(** A box 2 x 2 whose corner is at (-5, -5): entirely above and to the
    left of any canvas. *)
Definition cornerDetection : Detection :=
  {| x := -5; y := -5; width := 2; height := 2; confidence := 0.9;
     class := None |}.

End Examples.

Import Examples.

(** ** What is observed of a run *)

Module Observations.

Import Canvas.

(** The pill numbers written with [fillText], with their positions, in
    the order of the calls. *)
Definition numberLabels (calls : list Paint) : list (nat * number * number) :=
  flat_map (fun call => match call with
                        | FillText _ (IndexLabel n) tx ty => [(n, tx, ty)]
                        | _ => []
                        end) calls.

(** The confidence percentages written with [fillText], with their
    positions. *)
Definition percentLabels (calls : list Paint) : list (number * number * number) :=
  flat_map (fun call => match call with
                        | FillText _ (ConfidenceLabel percent) tx ty => [(percent, tx, ty)]
                        | _ => []
                        end) calls.

(** The stroke colour and line width of each [strokeRect] call. *)
Definition boxStrokes (calls : list Paint) : list (string * number) :=
  flat_map (fun call => match call with
                        | StrokeRect c _ _ _ _ => [(strokeStyle c, lineWidth c)]
                        | _ => []
                        end) calls.

(** The elements of a list with their 1-based positions. *)
Definition numbered {A} (l : list A) : list (nat * A) :=
  combine (seq 1 (List.length l)) l.

(** A body the debug logging of [callRoboflowAPI] runs through: its
    [predictions] are missing or falsy, or an array of boxes. *)
Definition isBox (pred : Api.Prediction) : bool :=
  match pred with Api.Box _ => true | Api.NotABox => false end.

Definition wellFormed (data : Api.ApiData) : bool :=
  match Api.predictions data with
  | Api.Absent => true
  | Api.NotAnArray => false
  | Api.Elements preds => forallb isBox preds
  end.

(** The detections the pipeline makes of a body. *)
Definition detectionsOf (data : Api.ApiData) : list Detection :=
  match Api.predictions data with
  | Api.Elements preds => Api.formatDetections (Api.boxes preds)
  | _ => []
  end.



(** The fractions the loop of the placeholder detector hands to its
    callback, from the counter [i] on: [(i + 1) / numPills] for each turn. *)
Fixpoint mockFractions (numPills : number) (fuel : nat) (i : number) : list number :=
  match fuel with
  | O => []
  | S fuel' =>
      if lt i numPills
      then ((i + 1) / numPills)%float :: mockFractions numPills fuel' (i + 1)%float
      else []
  end.

(** A string without a given character. *)
Fixpoint without (c : ascii) (s : string) : bool :=
  match s with
  | EmptyString => true
  | String c' s' => negb (Ascii.eqb c' c) && without c s'
  end.

End Observations.

Import Observations.

(** ** Inputs of further examples *)

Module Cases.

Local Open Scope float_scope.
Local Open Scope string_scope.

(** A service that answers with a JSON body without [predictions]. *)
Definition bareAnswer : Api.PipelineEnv :=
  {| Api.objectURL := "blob:original";
     Api.imageLoad := Loaded 3024 4032;
     Api.fileToBase64 := Some "/9j/4AAQ";
     Api.response :=
       Api.FetchResponse true 200
         (Some {| Api.predictions := Api.Absent; Api.image := None |});
     Api.isoNow := "2024-01-01T00:00:00.000Z" |}.

(** A service that answers with a JSON body whose [predictions] is a
    string. *)
Definition textAnswer : Api.PipelineEnv :=
  {| Api.objectURL := "blob:original";
     Api.imageLoad := Loaded 3024 4032;
     Api.fileToBase64 := Some "/9j/4AAQ";
     Api.response :=
       Api.FetchResponse true 200
         (Some {| Api.predictions := Api.NotAnArray; Api.image := None |});
     Api.isoNow := "2024-01-01T00:00:00.000Z" |}.

(** A service that answers with status 503. *)
Definition unavailableService : Api.PipelineEnv :=
  {| Api.objectURL := "blob:original";
     Api.imageLoad := Loaded 3024 4032;
     Api.fileToBase64 := Some "/9j/4AAQ";
     Api.response := Api.FetchResponse false 503 None;
     Api.isoNow := "2024-01-01T00:00:00.000Z" |}.

(** A platform on which decoding the file never finishes. *)
Definition neverDecodes : Api.ValidatorEnv :=
  {| Api.decode := LoadTimeout NoLateEvent;
     Api.toBlob := fun _ _ _ _ => None;
     Api.now := 1700000000000%Z |}.


(** A platform that decodes the file to an 8000 x 6000 image. *)
Definition decodes8000x6000 : Api.ValidatorEnv :=
  {| Api.decode := Loaded 8000 6000;
     Api.toBlob := fun _ _ _ _ => Some ([255; 216]%Z, 2%Z);
     Api.now := 1700000000000%Z |}.

(** A run of the placeholder detector on an 800 x 600 image. *)
Definition smallImageRun : Local.PipelineEnv :=
  {| Local.objectURL := "blob:original";
     Local.imageLoad := Loaded 800 600;
     Local.random := fun _ => 0.25;
     Local.isoNow := "2024-01-01T00:00:00.000Z" |}.

End Cases.

Import Cases.

(** * Properties *)

(** ** Binary64 rounding

    What the operations [+], [-], [*] and [/] of the source do to the real
    numbers their operands denote, derived from the specification of
    binary64 arithmetic ([SpecFloat]): a finite result is within half a unit
    in the last place of the exact one. *)

Section Rounding.

Local Open Scope R_scope.

(** *** Powers of two *)

Lemma bpow_powerRZ (e : Z) : bpow e = powerRZ 2 e.
Proof.
  destruct e as [|p|p]; simpl.
  - reflexivity.
  - rewrite Z.pow_pos_fold. rewrite <- (positive_nat_Z p) at 1.
    rewrite <- pow_IZR. reflexivity.
  - rewrite Z.pow_pos_fold. rewrite <- (positive_nat_Z p) at 1.
    rewrite <- pow_IZR. reflexivity.
Qed.

Lemma bpow_add (a b : Z) : bpow (a + b) = bpow a * bpow b.
Proof. rewrite !bpow_powerRZ. apply powerRZ_add. lra. Qed.

Lemma bpow_pos (e : Z) : 0 < bpow e.
Proof. rewrite bpow_powerRZ. apply powerRZ_lt. lra. Qed.

Lemma bpow_succ (e : Z) : bpow (e + 1) = 2 * bpow e.
Proof. rewrite bpow_add. simpl. lra. Qed.

Lemma bpow_nonneg_IZR (e : Z) : (0 <= e)%Z -> bpow e = IZR (2 ^ e).
Proof. destruct e; simpl; try reflexivity. lia. Qed.

Lemma bpow_le (a b : Z) : (a <= b)%Z -> bpow a <= bpow b.
Proof.
  intros H. replace b with (a + (b - a))%Z by lia. rewrite bpow_add.
  assert (1 <= bpow (b - a)).
  { rewrite bpow_nonneg_IZR by lia. apply IZR_le.
    assert (0 < 2 ^ (b - a))%Z by (apply Z.pow_pos_nonneg; lia). lia. }
  pose proof (bpow_pos a). nra.
Qed.

Lemma bpow_lt (a b : Z) : (a < b)%Z -> bpow a < bpow b.
Proof.
  intros H. replace b with (a + 1 + (b - a - 1))%Z by lia. rewrite bpow_add, bpow_succ.
  assert (1 <= bpow (b - a - 1)).
  { rewrite bpow_nonneg_IZR by lia. apply IZR_le.
    assert (0 < 2 ^ (b - a - 1))%Z by (apply Z.pow_pos_nonneg; lia). lia. }
  pose proof (bpow_pos a). nra.
Qed.

(** *** Number of binary digits *)

(** A positive integer of [d] binary digits lies in [2^(d-1), 2^d). *)
Lemma digits2_pos_bounds (p : positive) :
  (2 ^ (Zpos (digits2_pos p) - 1) <= Zpos p < 2 ^ Zpos (digits2_pos p))%Z.
Proof.
  induction p as [p IH|p IH|]; simpl digits2_pos.
  - rewrite Pos2Z.inj_succ. replace (Z.succ (Zpos (digits2_pos p)) - 1)%Z with (Zpos (digits2_pos p) - 1 + 1)%Z by lia.
    rewrite Z.pow_succ_r by lia. rewrite Z.pow_add_r by lia.
    change (2 ^ 1)%Z with 2%Z. lia.
  - rewrite Pos2Z.inj_succ. replace (Z.succ (Zpos (digits2_pos p)) - 1)%Z with (Zpos (digits2_pos p) - 1 + 1)%Z by lia.
    rewrite Z.pow_succ_r by lia. rewrite Z.pow_add_r by lia.
    change (2 ^ 1)%Z with 2%Z. lia.
  - simpl. lia.
Qed.

Lemma Zdigits2_bounds (m : Z) : (0 < m)%Z ->
  (2 ^ (Zdigits2 m - 1) <= m < 2 ^ Zdigits2 m)%Z.
Proof. destruct m; try lia. intros _. apply digits2_pos_bounds. Qed.

(** *** Shifting a significand right

    One step of [shr_1] halves the significand and doubles the unit; the
    round and sticky bits keep track of where the exact value lies. *)

Lemma shr_1_m (mrs : shr_record) : (0 <= shr_m mrs)%Z ->
  shr_m (shr_1 mrs) = (shr_m mrs / 2)%Z /\
  shr_m mrs = (2 * shr_m (shr_1 mrs) + (if shr_r (shr_1 mrs) then 1 else 0))%Z /\
  shr_s (shr_1 mrs) = (shr_r mrs || shr_s mrs)%bool.
Proof.
  destruct mrs as [m r s]. simpl. intros Hm.
  destruct m as [|[p|p|]|p]; simpl; try lia.
  - repeat split; reflexivity.
  - repeat split; try lia. rewrite Pos2Z.inj_xI. apply (Z.div_unique _ 2 _ 1); lia.
  - repeat split; try lia. rewrite Pos2Z.inj_xO. apply (Z.div_unique _ 2 _ 0); lia.
  - repeat split; reflexivity.
Qed.

Lemma shr_1_inbetween (mrs : shr_record) (e : Z) (v : R) :
  (0 <= shr_m mrs)%Z ->
  inbetween (shr_m mrs) e (loc_of_shr_record mrs) v ->
  inbetween (shr_m (shr_1 mrs)) (e + 1) (loc_of_shr_record (shr_1 mrs)) v.
Proof.
  intros Hm Hin.
  destruct (shr_1_m mrs Hm) as (_ & Hdec & Hs).
  destruct (shr_1 mrs) as [m' r' s']. destruct mrs as [m r s].
  cbn [shr_m shr_r shr_s] in *.
  subst s'. pose proof (bpow_pos e) as Hb. pose proof (bpow_succ e) as Hs.
  assert (HI : IZR m = 2 * IZR m' + (if r' then 1 else 0)).
  { rewrite Hdec. rewrite plus_IZR, mult_IZR. destruct r'; reflexivity. }
  clear Hdec Hm.
  destruct r', r, s; cbn [loc_of_shr_record inbetween orb] in *;
    rewrite Hs; rewrite HI in Hin; nra.
Qed.

Lemma iter_pos_shr_1 (p : positive) : forall (mrs : shr_record) (e : Z) (v : R),
  (0 <= shr_m mrs)%Z ->
  inbetween (shr_m mrs) e (loc_of_shr_record mrs) v ->
  (0 <= shr_m (SpecFloat.iter_pos shr_1 p mrs))%Z /\
  shr_m (SpecFloat.iter_pos shr_1 p mrs) = (shr_m mrs / 2 ^ Zpos p)%Z /\
  inbetween (shr_m (SpecFloat.iter_pos shr_1 p mrs)) (e + Zpos p)
    (loc_of_shr_record (SpecFloat.iter_pos shr_1 p mrs)) v.
Proof.
  assert (Hone : forall mrs e v, (0 <= shr_m mrs)%Z ->
     inbetween (shr_m mrs) e (loc_of_shr_record mrs) v ->
     (0 <= shr_m (shr_1 mrs))%Z /\
     shr_m (shr_1 mrs) = (shr_m mrs / 2 ^ 1)%Z /\
     inbetween (shr_m (shr_1 mrs)) (e + 1) (loc_of_shr_record (shr_1 mrs)) v).
  { intros mrs e v Hm Hin. destruct (shr_1_m mrs Hm) as (Hd & _ & _).
    split; [rewrite Hd; apply Z.div_pos; lia|].
    split; [exact Hd|]. apply shr_1_inbetween; assumption. }
  induction p as [p IH|p IH|]; intros mrs e v Hm Hin; simpl SpecFloat.iter_pos.
  - destruct (Hone mrs e v Hm Hin) as (H0 & H1 & H2).
    destruct (IH _ _ _ H0 H2) as (H3 & H4 & H5).
    destruct (IH _ _ _ H3 H5) as (H6 & H7 & H8).
    split; [exact H6|]. split.
    + rewrite H7, H4, H1. rewrite !Z.div_div by (try apply Z.pow_pos_nonneg; lia).
      f_equal. rewrite <- !Z.pow_add_r by lia. f_equal. lia.
    + replace (e + Z.pos p~1)%Z with (e + 1 + Z.pos p + Z.pos p)%Z by lia. exact H8.
  - destruct (IH _ _ _ Hm Hin) as (H3 & H4 & H5).
    destruct (IH _ _ _ H3 H5) as (H6 & H7 & H8).
    split; [exact H6|]. split.
    + rewrite H7, H4. rewrite !Z.div_div by (try apply Z.pow_pos_nonneg; lia).
      f_equal. rewrite <- !Z.pow_add_r by lia. f_equal. lia.
    + replace (e + Z.pos p~0)%Z with (e + Z.pos p + Z.pos p)%Z by lia. exact H8.
  - apply Hone; assumption.
Qed.


Lemma fexp64_eq (e : Z) : fexp64 e = Z.max (e - 53) (-1074).
Proof. reflexivity. Qed.

Lemma shr_record_of_loc_m (m : Z) (l : location) : shr_m (shr_record_of_loc m l) = m.
Proof. destruct l as [|[]]; reflexivity. Qed.

Lemma loc_of_shr_record_of_loc (m : Z) (l : location) :
  loc_of_shr_record (shr_record_of_loc m l) = l.
Proof. destruct l as [|[]]; reflexivity. Qed.

Lemma Zdigits2_le (m k : Z) : (0 < m)%Z -> (0 <= k)%Z -> (m < 2 ^ k)%Z -> (Zdigits2 m <= k)%Z.
Proof.
  intros Hm Hk Hlt. destruct (Zdigits2_bounds m Hm) as [Hlo _].
  destruct (Z_le_gt_dec (Zdigits2 m) k) as [|Hgt]; [assumption|].
  assert (2 ^ k <= 2 ^ (Zdigits2 m - 1))%Z by (apply Z.pow_le_mono_r; lia). lia.
Qed.

Lemma shr_fexp_noshift (m e : Z) (l : location) :
  (fexp64 (Zdigits2 m + e) - e <= 0)%Z ->
  shr_fexp prec emax m e l = (shr_record_of_loc m l, e).
Proof.
  intros H. unfold shr_fexp, shr.
  destruct (fexp64 (Zdigits2 m + e) - e)%Z; try reflexivity. lia.
Qed.

Lemma shr_fexp_shift (m e : Z) (l : location) (v : R) :
  (0 <= m)%Z -> inbetween m e l v ->
  (0 < fexp64 (Zdigits2 m + e) - e)%Z ->
  exists mrs, shr_fexp prec emax m e l = (mrs, fexp64 (Zdigits2 m + e)) /\
    (0 <= shr_m mrs < 2 ^ 53)%Z /\
    inbetween (shr_m mrs) (fexp64 (Zdigits2 m + e)) (loc_of_shr_record mrs) v /\
    ((-1074 < fexp64 (Zdigits2 m + e))%Z -> (2 ^ 52 <= shr_m mrs)%Z).
Proof.
  intros Hm Hin Hn. unfold shr_fexp, shr.
  destruct (fexp64 (Zdigits2 m + e) - e)%Z as [|n|n] eqn:Hdiff; try lia.
  eexists. split.
  { f_equal. lia. }
  assert (H0 : (0 <= shr_m (shr_record_of_loc m l))%Z)
    by (rewrite shr_record_of_loc_m; exact Hm).
  assert (H1 : inbetween (shr_m (shr_record_of_loc m l)) e
                 (loc_of_shr_record (shr_record_of_loc m l)) v)
    by (rewrite shr_record_of_loc_m, loc_of_shr_record_of_loc; exact Hin).
  destruct (iter_pos_shr_1 n _ e v H0 H1) as (Ha & Hb & Hc).
  rewrite shr_record_of_loc_m in Hb.
  split; [split; [exact Ha|]|].
  - rewrite Hb. destruct (Z.eq_dec m 0) as [->|Hne].
    + rewrite Z.div_0_l; [lia|]. apply Z.pow_nonzero; lia.
    + assert (Hpos : (0 < m)%Z) by lia.
      destruct (Zdigits2_bounds m Hpos) as [_ Hhi].
      apply Z.div_lt_upper_bound; [apply Z.pow_pos_nonneg; lia|].
      rewrite <- Z.pow_add_r by lia.
      eapply Z.lt_le_trans; [exact Hhi|].
      apply Z.pow_le_mono_r; [lia|]. rewrite fexp64_eq in Hdiff. lia.
  - split.
    + replace (fexp64 (Zdigits2 m + e)) with (e + Z.pos n)%Z by lia. exact Hc.
    + intros Hnorm. rewrite Hb. rewrite fexp64_eq in Hdiff, Hnorm.
      destruct (Z.eq_dec m 0) as [->|Hne]; [change (Zdigits2 0) with 0%Z in *; lia|].
      assert (Hpos : (0 < m)%Z) by lia.
      destruct (Zdigits2_bounds m Hpos) as [Hlo _].
      apply Z.div_le_lower_bound; [apply Z.pow_pos_nonneg; lia|].
      rewrite <- Z.pow_add_r by lia.
      replace (Z.pos n + 52)%Z with (Zdigits2 m - 1)%Z by lia. exact Hlo.
Qed.

(** Rounding to nearest, ties to even, moves the value by at most half a
    unit, and not at all when the location is exact. *)
Lemma round_nearest_even_error (m e : Z) (l : location) (v : R) :
  inbetween m e l v ->
  (m <= round_nearest_even m l <= m + 1)%Z /\
  (l = loc_Exact -> round_nearest_even m l = m) /\
  Rabs (IZR (round_nearest_even m l) * bpow e - v) <= / 2 * bpow e.
Proof.
  intros Hin. pose proof (bpow_pos e) as Hb.
  destruct l as [|[]]; simpl in *.
  - split; [lia|]. split; [reflexivity|]. subst v.
    rewrite Rminus_diag, Rabs_R0. lra.
  - destruct (Z.even m); (split; [lia|]); (split; [discriminate|]);
      rewrite ?plus_IZR; subst v; apply Rabs_le; simpl; lra.
  - split; [lia|]. split; [discriminate|]. apply Rabs_le; lra.
  - split; [lia|]. split; [discriminate|]. rewrite plus_IZR. apply Rabs_le; simpl; lra.
Qed.

(** After rounding, the significand is at most 2^53; when it is 2^53 the
    second shift turns it into 2^52 with the next exponent. *)
Lemma second_shr_fexp (m e : Z) :
  (0 <= m <= 2 ^ 53)%Z -> (-1074 <= e)%Z ->
  exists mrs e', shr_fexp prec emax m e loc_Exact = (mrs, e') /\
    (0 <= shr_m mrs)%Z /\ IZR (shr_m mrs) * bpow e' = IZR m * bpow e /\
    (e' = e \/ (e' = (e + 1)%Z /\ m = (2 ^ 53)%Z)).
Proof.
  intros Hm He.
  destruct (Z.eq_dec m (2 ^ 53)) as [->|Hne].
  - exists (Build_shr_record (2 ^ 52) false false), (e + 1)%Z.
    split; [|split; [|split]].
    + unfold shr_fexp.
      replace (fexp64 (Zdigits2 (2 ^ 53) + e) - e)%Z with 1%Z
        by (rewrite fexp64_eq; change (Zdigits2 (2 ^ 53)) with 54%Z; lia).
      reflexivity.
    + simpl. lia.
    + rewrite bpow_succ. simpl shr_m.
      change (2 ^ 53)%Z with (2 * 2 ^ 52)%Z. rewrite mult_IZR. lra.
    + right. split; reflexivity.
  - exists (shr_record_of_loc m loc_Exact), e. split; [|split; [|split]].
    + apply shr_fexp_noshift. rewrite fexp64_eq.
      destruct (Z.eq_dec m 0) as [->|Hm0]; [simpl; lia|].
      assert (Zdigits2 m <= 53)%Z by (apply Zdigits2_le; lia). lia.
    + simpl. lia.
    + reflexivity.
    + left. reflexivity.
Qed.



Lemma binary_round_aux_finish (sx : bool) (mrs : shr_record) (e : Z) (r : R) :
  (0 <= shr_m mrs)%Z -> IZR (shr_m mrs) * bpow e = r ->
  let z := match shr_m mrs with
           | Z0 => S754_zero sx
           | Zpos m => if (e <=? emax - prec)%Z then S754_finite sx m e else S754_infinity sx
           | Zneg _ => S754_nan
           end in
  (z = S754_infinity sx /\ (971 < e)%Z) \/
  (SF_is_finite z = true /\ SF2R z = signed sx r).
Proof.
  intros Hm Hr. destruct (shr_m mrs) as [|p|p]; simpl.
  - right. split; [reflexivity|]. rewrite <- Hr. destruct sx; simpl; lra.
  - destruct (Z.leb_spec e 971); [right|left; split; [reflexivity|lia]].
    split; [reflexivity|]. rewrite <- Hr. destruct sx; simpl.
    + change (Z.neg p) with (- Z.pos p)%Z. rewrite opp_IZR. lra.
    + reflexivity.
  - lia.
Qed.

(** *** The rounding step of every operation *)

Lemma Rabs_le_inv (a b : R) : Rabs a <= b -> - b <= a <= b.
Proof. unfold Rabs. destruct (Rcase_abs a); lra. Qed.

(** [binary_round_aux] on a significand [m], an exponent [e] and a location
    that describe the positive real [v]: the result is an infinity only when
    [v] is at least 2^1024 - 2^970; otherwise it is finite and its magnitude
    [r] is [v] itself or within half a unit in the last place of [v]. *)
Lemma binary_round_aux_correct (sx : bool) (m e : Z) (l : location) (v : R) :
  (0 <= m)%Z -> inbetween m e l v ->
  (l = loc_Exact \/ (e <= fexp64 (Zdigits2 m + e))%Z) ->
  exists r : R,
    ((binary_round_aux prec emax sx m e l = S754_infinity sx /\
      ((e <= fexp64 (Zdigits2 m + e))%Z -> bpow 1024 - bpow 970 <= v)) \/
     (SF_is_finite (binary_round_aux prec emax sx m e l) = true /\
      SF2R (binary_round_aux prec emax sx m e l) = signed sx r)) /\
    (r = v \/
     (Rabs (r - v) <= / 2 * bpow (fexp64 (Zdigits2 m + e)) /\
      (e <= fexp64 (Zdigits2 m + e))%Z /\
      (l = loc_Exact -> (e < fexp64 (Zdigits2 m + e))%Z))).
Proof.
  intros Hm Hin Hcase.
  set (f := fexp64 (Zdigits2 m + e)) in *.
  assert (Hf : (-1074 <= f)%Z) by (unfold f; rewrite fexp64_eq; lia).
  (* first shift *)
  assert (Hfirst : exists mrs1 e1,
             shr_fexp prec emax m e l = (mrs1, e1) /\
             ((e1 = e /\ mrs1 = shr_record_of_loc m l /\ l = loc_Exact /\ (f < e)%Z) \/
              (e1 = f /\ (e <= f)%Z /\ (0 <= shr_m mrs1 < 2 ^ 53)%Z /\
               inbetween (shr_m mrs1) e1 (loc_of_shr_record mrs1) v /\
               (l = loc_Exact -> e = f -> loc_of_shr_record mrs1 = loc_Exact) /\
               ((-1074 < f)%Z -> (2 ^ 52 <= shr_m mrs1)%Z)))).
  { destruct (Z_lt_le_dec 0 (f - e)) as [Hn|Hn].
    - destruct (shr_fexp_shift m e l v Hm Hin Hn) as (mrs & Heq & Hb & Hi & Hlo).
      exists mrs, f. split; [exact Heq|]. right. repeat split; try lia; auto.
    - exists (shr_record_of_loc m l), e. split; [apply shr_fexp_noshift; exact Hn|].
      destruct (Z.eq_dec e f) as [Hef|Hef].
      + right. rewrite shr_record_of_loc_m, loc_of_shr_record_of_loc.
        assert (Hm0 : (-1074 < f -> 0 < m)%Z).
        { intros Hn1. destruct (Z.eq_dec m 0) as [->|]; [|lia].
          unfold f in Hef, Hn1. rewrite fexp64_eq in Hef, Hn1.
          change (Zdigits2 0) with 0%Z in *. lia. }
        repeat split; try lia; auto.
        * destruct (Z.eq_dec m 0) as [->|Hne]; [lia|].
          assert (Hpos : (0 < m)%Z) by lia.
          destruct (Zdigits2_bounds m Hpos) as [_ Hhi].
          eapply Z.lt_le_trans; [exact Hhi|]. apply Z.pow_le_mono_r; [lia|].
          unfold f in Hef. rewrite fexp64_eq in Hef. lia.
        * intros Hn1. specialize (Hm0 Hn1).
          destruct (Zdigits2_bounds m Hm0) as [Hlo _].
          replace 52%Z with (Zdigits2 m - 1)%Z; [exact Hlo|].
          unfold f in Hef, Hn1. rewrite fexp64_eq in Hef, Hn1. lia.
      + left. destruct Hcase as [Hl|Hle]; [|lia]. repeat split; auto; lia. }
  destruct Hfirst as (mrs1 & e1 & Heq1 &
                      [(He1 & Hmrs & Hl & Hlt)|(He1 & Hle & Hb & Hi & Hex & Hlo)]).
  - (* exact, no shift at all *)
    subst e1 mrs1 l. exists v. split; [|left; reflexivity].
    unfold binary_round_aux. rewrite Heq1. simpl round_nearest_even.
    rewrite (shr_fexp_noshift m e loc_Exact) by (fold f; lia).
    simpl in Hin.
    destruct (binary_round_aux_finish sx (shr_record_of_loc m loc_Exact) e v)
      as [[Hinf _]|Hfin]; simpl; auto.
    left. split; [exact Hinf|]. intros; lia.
  - subst e1.
    destruct (round_nearest_even_error _ _ _ _ Hi) as (Hr1 & Hr2 & Hr3).
    set (m2 := round_nearest_even (shr_m mrs1) (loc_of_shr_record mrs1)) in *.
    destruct (second_shr_fexp m2 f ltac:(lia) Hf)
      as (mrs2 & e2 & Heq2 & Hm2 & Hv2 & He2).
    exists (IZR m2 * bpow f). split.
    + unfold binary_round_aux. rewrite Heq1. fold m2. rewrite Heq2.
      destruct (binary_round_aux_finish sx mrs2 e2 (IZR m2 * bpow f) Hm2 Hv2)
        as [[Hinf Hbig]|Hfin]; [left|right; exact Hfin].
      split; [exact Hinf|]. intros _.
      assert (H1024 : bpow 1024 = IZR (2 ^ 52) * bpow 972)
        by (change 1024%Z with (52 + 972)%Z; rewrite bpow_add; reflexivity).
      assert (H972 : bpow 972 = 2 * bpow 971)
        by (change 972%Z with (971 + 1)%Z; apply bpow_succ).
      assert (H971 : bpow 971 = 2 * bpow 970)
        by (change 971%Z with (970 + 1)%Z; apply bpow_succ).
      pose proof (bpow_pos 970) as Hp970. pose proof (bpow_pos f) as Hpf.
      assert (Hlow : IZR (shr_m mrs1) * bpow f <= v).
      { destruct (loc_of_shr_record mrs1) as [|[]]; simpl in Hi; lra. }
      destruct He2 as [He2|[He2 Hm53]].
      * subst e2. assert (Hf972 : (972 <= f)%Z) by lia.
        pose proof (bpow_le 972 f Hf972) as Hmono.
        assert (H52 : IZR (2 ^ 52) <= IZR (shr_m mrs1)) by (apply IZR_le; apply Hlo; lia).
        assert (0 < IZR (2 ^ 52)) by (apply IZR_lt; reflexivity).
        nra.
      * assert (Hf971 : (971 <= f)%Z) by lia.
        pose proof (bpow_le 971 f Hf971) as Hmono.
        rewrite Hm53 in Hr3. apply Rabs_le_inv in Hr3.
        change (2 ^ 53)%Z with (2 * 2 ^ 52)%Z in Hr3. rewrite mult_IZR in Hr3.
        assert (0 < IZR (2 ^ 52)) by (apply IZR_lt; reflexivity).
        assert (1 <= IZR (2 ^ 52)) by (apply IZR_le; lia).
        nra.
    + destruct (Z.eq_dec e f) as [Hef|Hef].
      * destruct l as [|c].
        -- left. specialize (Hex eq_refl Hef). rewrite Hex in Hi. simpl in Hi.
           unfold m2. rewrite Hex. simpl. symmetry. exact Hi.
        -- right. split; [exact Hr3|]. split; [lia|discriminate].
      * right. split; [exact Hr3|]. split; [lia|]. intros _. lia.
Qed.

Lemma bpow_digits_le (m : Z) : (0 < m)%Z -> bpow (Zdigits2 m - 1) <= IZR m.
Proof.
  intros Hm. destruct (Zdigits2_bounds m Hm) as [Hlo _].
  assert (0 < Zdigits2 m)%Z by (destruct m; simpl; lia).
  rewrite bpow_nonneg_IZR by lia. apply IZR_le. exact Hlo.
Qed.

Lemma half_ulp_normal (m e : Z) (v : R) :
  (0 < m)%Z -> IZR m * bpow e <= v ->
  / 2 * bpow (Zdigits2 m + e - 53) <= bpow (-53) * v.
Proof.
  intros Hm Hv. pose proof (bpow_digits_le m Hm) as Hd.
  replace (Zdigits2 m + e - 53)%Z with ((Zdigits2 m - 1) + e + (-53) + 1)%Z by lia.
  rewrite bpow_succ, !bpow_add.
  pose proof (bpow_pos e). pose proof (bpow_pos (-53)). pose proof (bpow_pos (Zdigits2 m - 1)).
  assert (bpow (Zdigits2 m - 1) * bpow e <= v) by nra.
  nra.
Qed.

Lemma half_ulp_bound (m e : Z) (v : R) :
  (0 < m)%Z -> IZR m * bpow e <= v ->
  / 2 * bpow (fexp64 (Zdigits2 m + e)) <= bpow (-53) * v + bpow (-1075).
Proof.
  intros Hm Hv. rewrite fexp64_eq.
  pose proof (half_ulp_normal m e v Hm Hv) as Hn.
  assert (Hv0 : 0 <= v).
  { pose proof (bpow_pos e). assert (0 < IZR m) by (apply IZR_lt; lia). nra. }
  pose proof (bpow_pos (-53)). pose proof (bpow_pos (-1075)).
  destruct (Z.max_spec (Zdigits2 m + e - 53) (-1074)) as [[_ ->]|[_ ->]].
  - change (-1074)%Z with (-1075 + 1)%Z. rewrite bpow_succ. nra.
  - nra.
Qed.

Lemma SF2R_finite (s : bool) (m : positive) (e : Z) :
  SF2R (S754_finite s m e) = signed s (IZR (Zpos m) * bpow e).
Proof.
  destruct s; simpl; [|reflexivity].
  change (Z.neg m) with (- Z.pos m)%Z. rewrite opp_IZR. lra.
Qed.

Lemma signed_xorb (a b : bool) (u v : R) :
  signed a u * signed b v = signed (xorb a b) (u * v).
Proof. destruct a, b; simpl; lra. Qed.

Lemma signed_Rabs (s : bool) (r v : R) :
  Rabs (signed s r - signed s v) = Rabs (r - v).
Proof.
  destruct s; simpl; [|reflexivity].
  replace (- r - - v) with (- (r - v)) by lra. apply Rabs_Ropp.
Qed.

Lemma Rabs_signed (s : bool) (v : R) : 0 <= v -> Rabs (signed s v) = v.
Proof.
  intros Hv. destruct s; simpl.
  - rewrite Rabs_Ropp. apply Rabs_pos_eq. exact Hv.
  - apply Rabs_pos_eq. exact Hv.
Qed.

(** *** Multiplication *)

Lemma SFmul_error (sx sy : bool) (mx my : positive) (ex ey : Z) :
  let x := S754_finite sx mx ex in
  let y := S754_finite sy my ey in
  SF_is_finite (SF64mul x y) = true ->
  Rabs (SF2R (SF64mul x y) - SF2R x * SF2R y)
  <= bpow (-53) * Rabs (SF2R x * SF2R y) + bpow (-1075).
Proof.
  intros x y Hfin. subst x y. unfold SF64mul, SFmul in *.
  set (v := IZR (Zpos (mx * my)) * bpow (ex + ey)).
  assert (Hv : SF2R (S754_finite sx mx ex) * SF2R (S754_finite sy my ey)
               = signed (xorb sx sy) v).
  { rewrite !SF2R_finite, signed_xorb. f_equal. unfold v.
    rewrite Pos2Z.inj_mul, mult_IZR, bpow_add. ring. }
  assert (Hv0 : 0 <= v).
  { unfold v. pose proof (bpow_pos (ex + ey)).
    assert (0 < IZR (Zpos (mx * my))) by (apply IZR_lt; lia). nra. }
  rewrite Hv.
  destruct (binary_round_aux_correct (xorb sx sy) (Zpos (mx * my)) (ex + ey) loc_Exact v)
    as (r & Hz & Hr); [lia|reflexivity|left; reflexivity|].
  destruct Hz as [[Hinf _]|[_ Hz]]; [rewrite Hinf in Hfin; discriminate|].
  rewrite Hz, signed_Rabs, (Rabs_signed _ v Hv0).
  pose proof (bpow_pos (-53)). pose proof (bpow_pos (-1075)).
  destruct Hr as [->|(Hb & _ & _)].
  - rewrite Rminus_diag, Rabs_R0. nra.
  - eapply Rle_trans; [exact Hb|]. apply half_ulp_bound; [lia|]. unfold v. lra.
Qed.

(** *** Division *)

Lemma new_location_correct (n k : Z) :
  (0 < n)%Z -> (0 <= k < n)%Z ->
  match new_location n k with
  | loc_Exact => k = 0%Z
  | loc_Inexact Lt => (0 < k)%Z /\ (2 * k < n)%Z
  | loc_Inexact Eq => (2 * k = n)%Z
  | loc_Inexact Gt => (n < 2 * k)%Z
  end.
Proof.
  intros Hn Hk. unfold new_location, new_location_even, new_location_odd.
  destruct (Z.even n) eqn:Hev.
  - destruct (Z.eqb_spec k 0) as [->|Hk0]; [reflexivity|].
    destruct (Z.compare_spec (2 * k) n); lia.
  - destruct (Z.eqb_spec k 0) as [->|Hk0]; [reflexivity|].
    assert (Hodd : Z.odd n = true) by (rewrite <- Z.negb_even, Hev; reflexivity).
    apply Z.odd_spec in Hodd. destruct Hodd as [j Hj].
    destruct (Z.compare_spec (2 * k + 1) n); lia.
Qed.

Lemma inbetween_quotient (q r n e : Z) :
  (0 < n)%Z -> (0 <= r < n)%Z ->
  inbetween q e (new_location n r) ((IZR q + IZR r / IZR n) * bpow e).
Proof.
  intros Hn Hr. pose proof (new_location_correct n r Hn Hr) as Hloc.
  pose proof (bpow_pos e) as Hb.
  assert (Hn' : 0 < IZR n) by (apply IZR_lt; lia).
  assert (Hr' : 0 <= IZR r) by (apply IZR_le; lia).
  set (x := IZR r / IZR n).
  destruct (new_location n r) as [|[]]; simpl.
  - subst r. unfold x. replace (0 / IZR n) with 0 by (unfold Rdiv; ring). ring.
  - assert (x = / 2).
    { unfold x. apply (Rmult_eq_reg_r (IZR n)); [|lra].
      unfold Rdiv. rewrite Rmult_assoc, Rinv_l by lra.
      rewrite <- Hloc, mult_IZR. lra. }
    rewrite H. reflexivity.
  - destruct Hloc as [H1 H2].
    assert (0 < x < / 2).
    { unfold x. apply IZR_lt in H1, H2. rewrite mult_IZR in H2. split.
      - apply Rdiv_lt_0_compat; lra.
      - apply (Rmult_lt_reg_r (IZR n)); [lra|].
        unfold Rdiv. rewrite Rmult_assoc, Rinv_l by lra. lra. }
    nra.
  - assert (/ 2 < x < 1).
    { unfold x. apply IZR_lt in Hloc. rewrite mult_IZR in Hloc.
      destruct Hr as [_ Hr]. apply IZR_lt in Hr. split.
      - apply (Rmult_lt_reg_r (IZR n)); [lra|].
        unfold Rdiv. rewrite Rmult_assoc, Rinv_l by lra. lra.
      - apply (Rmult_lt_reg_r (IZR n)); [lra|].
        unfold Rdiv. rewrite Rmult_assoc, Rinv_l by lra. lra. }
    nra.
Qed.

Lemma SFdiv_core_binary_correct (mx my : positive) (ex ey : Z) :
  exists q e' l,
    SFdiv_core_binary prec emax (Zpos mx) ex (Zpos my) ey = (q, e', l) /\
    (0 <= q)%Z /\
    inbetween q e' l (IZR (Zpos mx) * bpow ex / (IZR (Zpos my) * bpow ey)) /\
    (e' <= fexp64 (Zdigits2 q + e'))%Z /\
    (q = 0%Z -> fexp64 (Zdigits2 q + e') = (-1074)%Z).
Proof.
  unfold SFdiv_core_binary.
  set (d1 := Zdigits2 (Zpos mx)). set (d2 := Zdigits2 (Zpos my)).
  set (D := (d1 + ex - (d2 + ey))%Z).
  set (e' := Z.min (fexp64 D) (ex - ey)).
  set (s := (ex - ey - e')%Z).
  assert (Hs : (0 <= s)%Z) by (unfold s, e'; lia).
  set (m' := match s with
             | Zpos _ => Z.shiftl (Zpos mx) s
             | Z0 => Zpos mx
             | Zneg _ => 0%Z
             end).
  assert (Hm' : m' = (Zpos mx * 2 ^ s)%Z).
  { unfold m'. destruct s as [|p|p] eqn:Hsp.
    - simpl. lia.
    - rewrite Z.shiftl_mul_pow2 by lia. reflexivity.
    - lia. }
  pose proof (Z_div_mod m' (Zpos my) ltac:(lia)) as Hdm.
  destruct (Z.div_eucl m' (Zpos my)) as [q r] eqn:Hqr.
  destruct Hdm as [Hdm Hr].
  exists q, e', (new_location (Zpos my) r).
  split; [reflexivity|].
  assert (Hpow : (0 < 2 ^ s)%Z) by (apply Z.pow_pos_nonneg; lia).
  assert (Hq : (0 <= q)%Z).
  { assert (0 <= m')%Z by (rewrite Hm'; lia). nia. }
  split; [exact Hq|].
  assert (Hmy : 0 < IZR (Zpos my)) by (apply IZR_lt; lia).
  split.
  { replace (IZR (Zpos mx) * bpow ex / (IZR (Zpos my) * bpow ey))
      with ((IZR q + IZR r / IZR (Zpos my)) * bpow e').
    - apply inbetween_quotient; lia.
    - replace ex with (s + e' + ey)%Z at 1 by (unfold s; lia).
      rewrite !bpow_add. rewrite (bpow_nonneg_IZR s Hs).
      pose proof (bpow_pos ey). pose proof (bpow_pos e').
      assert (HI : IZR (Zpos mx) * IZR (2 ^ s) = IZR (Zpos my) * IZR q + IZR r).
      { rewrite <- !mult_IZR, <- plus_IZR. f_equal. lia. }
      replace (IZR (Z.pos mx) * (IZR (2 ^ s) * bpow e' * bpow ey))
        with ((IZR (Z.pos mx) * IZR (2 ^ s)) * bpow e' * bpow ey) by ring.
      rewrite HI. field. split; lra. }
  assert (Hfe : forall k, (-1074 <= fexp64 k)%Z) by (intros; rewrite fexp64_eq; lia).
  destruct (Z_le_gt_dec e' (-1074)) as [Hsmall|Hbig].
  { split.
    - specialize (Hfe (Zdigits2 q + e')%Z). lia.
    - intros ->. simpl Zdigits2. rewrite fexp64_eq. lia. }
  assert (HfD : (e' <= D - 53)%Z).
  { assert (e' <= fexp64 D)%Z by (unfold e'; lia). rewrite fexp64_eq in H. lia. }
  set (k := (D - 1 - e')%Z).
  assert (Hk : (52 <= k)%Z) by (unfold k; lia).
  assert (Hqk : (2 ^ k <= q)%Z).
  { destruct (Zdigits2_bounds (Zpos mx) ltac:(lia)) as [Hlo1 _].
    destruct (Zdigits2_bounds (Zpos my) ltac:(lia)) as [_ Hhi2].
    fold d1 in Hlo1. fold d2 in Hhi2.
    assert (Hd1 : (0 < d1)%Z) by (unfold d1; simpl; lia).
    assert (Hd2 : (0 < d2)%Z) by (unfold d2; simpl; lia).
    assert (Hks : (k + d2 = d1 - 1 + s)%Z) by (unfold k, D, s; lia).
    assert (H1 : (2 ^ k * 2 ^ d2 <= m')%Z).
    { rewrite <- Z.pow_add_r by lia. rewrite Hks, Z.pow_add_r by lia.
      rewrite Hm'. apply Z.mul_le_mono_nonneg_r; lia. }
    assert (Hpk : (0 < 2 ^ k)%Z) by (apply Z.pow_pos_nonneg; lia).
    destruct (Z_le_gt_dec (2 ^ k) q) as [|Hgt]; [assumption|].
    assert (q + 1 <= 2 ^ k)%Z by lia.
    assert (m' < Zpos my * (q + 1))%Z by lia.
    assert (Zpos my * (q + 1) <= 2 ^ d2 * 2 ^ k)%Z by nia.
    lia. }
  assert (Hq0 : (0 < q)%Z).
  { assert (0 < 2 ^ k)%Z by (apply Z.pow_pos_nonneg; lia). lia. }
  split; [|lia].
  destruct (Zdigits2_bounds q Hq0) as [_ Hhi].
  assert (Hdq : (k < Zdigits2 q)%Z).
  { destruct (Z_lt_le_dec k (Zdigits2 q)) as [|Hle]; [assumption|].
    assert (2 ^ Zdigits2 q <= 2 ^ k)%Z
      by (apply Z.pow_le_mono_r; [lia|exact Hle]). lia. }
  rewrite fexp64_eq. unfold k in Hdq. lia.
Qed.

Lemma SFdiv_error (sx sy : bool) (mx my : positive) (ex ey : Z) :
  let x := S754_finite sx mx ex in
  let y := S754_finite sy my ey in
  SF_is_finite (SF64div x y) = true ->
  Rabs (SF2R (SF64div x y) - SF2R x / SF2R y)
  <= bpow (-53) * Rabs (SF2R x / SF2R y) + bpow (-1075).
Proof.
  intros x y Hfin. subst x y. unfold SF64div, SFdiv in *.
  destruct (SFdiv_core_binary_correct mx my ex ey)
    as (q & e' & l & Heq & Hq & Hin & Hle & Hq0).
  rewrite Heq in *.
  set (v := IZR (Zpos mx) * bpow ex / (IZR (Zpos my) * bpow ey)) in *.
  assert (Hmx : 0 < IZR (Zpos mx)) by (apply IZR_lt; lia).
  assert (Hmy : 0 < IZR (Zpos my)) by (apply IZR_lt; lia).
  pose proof (bpow_pos ex). pose proof (bpow_pos ey).
  assert (Hv : SF2R (S754_finite sx mx ex) / SF2R (S754_finite sy my ey)
               = signed (xorb sx sy) v).
  { rewrite !SF2R_finite. unfold v.
    destruct sx, sy; simpl; field; nra. }
  assert (Hv0 : 0 < v).
  { unfold v. apply Rdiv_lt_0_compat; nra. }
  rewrite Hv.
  destruct (binary_round_aux_correct (xorb sx sy) q e' l v Hq Hin (or_intror Hle))
    as (r & Hz & Hr).
  destruct Hz as [[Hinf _]|[_ Hz]]; [rewrite Hinf in Hfin; discriminate|].
  rewrite Hz, signed_Rabs, (Rabs_signed _ v (Rlt_le _ _ Hv0)).
  pose proof (bpow_pos (-53)). pose proof (bpow_pos (-1075)).
  destruct Hr as [->|(Hb & _ & _)].
  - rewrite Rminus_diag, Rabs_R0. nra.
  - eapply Rle_trans; [exact Hb|].
    destruct (Z.eq_dec q 0) as [Hz0|Hnz].
    + rewrite (Hq0 Hz0). change (-1074)%Z with (-1075 + 1)%Z. rewrite bpow_succ. nra.
    + apply half_ulp_bound; [lia|].
      pose proof (bpow_pos e') as He'.
      destruct l as [|[]]; simpl in Hin; nra.
Qed.

(** *** Addition and subtraction *)

Lemma iter_xO_spec (m d : positive) :
  Zpos (Pos.iter xO m d) = (Zpos m * 2 ^ Zpos d)%Z /\
  Zpos (digits2_pos (Pos.iter xO m d)) = (Zpos (digits2_pos m) + Zpos d)%Z.
Proof.
  induction d as [|d IH] using Pos.peano_ind.
  - simpl. split; lia.
  - rewrite Pos.iter_succ. destruct IH as [IH1 IH2]. split.
    + rewrite Pos2Z.inj_xO, IH1, Pos2Z.inj_succ, Z.pow_succ_r by lia. ring.
    + simpl digits2_pos. rewrite Pos2Z.inj_succ, IH2, Pos2Z.inj_succ. lia.
Qed.

Lemma shl_align_spec (mx : positive) (ex ex' : Z) :
  exists mz ez, shl_align mx ex ex' = (mz, ez) /\
    IZR (Zpos mz) * bpow ez = IZR (Zpos mx) * bpow ex /\
    (Zpos (digits2_pos mz) + ez = Zpos (digits2_pos mx) + ex)%Z /\
    ez = Z.min ex ex'.
Proof.
  unfold shl_align. destruct (ex' - ex)%Z as [|d|d] eqn:Hd.
  - exists mx, ex. repeat split; lia.
  - exists mx, ex. repeat split; lia.
  - exists (Pos.iter xO mx d), ex'. destruct (iter_xO_spec mx d) as [H1 H2].
    split; [reflexivity|]. split; [|split; lia].
    rewrite H1, mult_IZR. replace ex with (Zpos d + ex')%Z by lia.
    rewrite bpow_add, (bpow_nonneg_IZR (Zpos d)) by lia. ring.
Qed.

Lemma binary_round_correct (sx : bool) (m : positive) (e : Z) :
  (-1074 <= e)%Z ->
  exists r : R,
    ((binary_round prec emax sx m e = S754_infinity sx /\
      bpow 1024 - bpow 970 <= IZR (Zpos m) * bpow e) \/
     (SF_is_finite (binary_round prec emax sx m e) = true /\
      SF2R (binary_round prec emax sx m e) = signed sx r)) /\
    Rabs (r - IZR (Zpos m) * bpow e) <= bpow (-53) * (IZR (Zpos m) * bpow e).
Proof.
  intros He. unfold binary_round.
  set (f := fexp64 (Zpos (digits2_pos m) + e)).
  destruct (shl_align_spec m e f) as (mz & ez & Heq & Hval & Hdig & Hez).
  rewrite Heq. set (v := IZR (Zpos m) * bpow e) in *.
  assert (Hv0 : 0 < v).
  { unfold v. pose proof (bpow_pos e). assert (0 < IZR (Zpos m)) by (apply IZR_lt; lia). nra. }
  pose proof (bpow_pos (-53)) as H53.
  assert (Hf : fexp64 (Zdigits2 (Zpos mz) + ez) = f).
  { unfold f. simpl Zdigits2. rewrite Hdig. reflexivity. }
  destruct (binary_round_aux_correct sx (Zpos mz) ez loc_Exact v)
    as (r & Hz & Hr); [lia|simpl; lra|left; reflexivity|].
  exists r. split.
  { destruct Hz as [[Hinf Hbig]|Hfin]; [left|right; exact Hfin].
    split; [exact Hinf|]. apply Hbig. rewrite Hf. lia. }
  destruct Hr as [->|(Hb & Hle & Hlt)].
  - rewrite Rminus_diag, Rabs_R0. nra.
  - specialize (Hlt eq_refl). rewrite Hf in Hb, Hlt.
    assert (Hez' : ez = e) by lia. subst ez.
    assert (Hfn : f = (Zdigits2 (Zpos m) + e - 53)%Z).
    { unfold f in *. rewrite fexp64_eq in *. simpl Zdigits2. lia. }
    rewrite Hfn in Hb. eapply Rle_trans; [exact Hb|].
    apply half_ulp_normal; [lia|]. unfold v. lra.
Qed.

Lemma binary_normalize_correct (M e : Z) :
  (-1074 <= e)%Z ->
  SF_is_finite (binary_normalize prec emax M e false) = true ->
  Rabs (SF2R (binary_normalize prec emax M e false) - IZR M * bpow e)
  <= bpow (-53) * Rabs (IZR M * bpow e).
Proof.
  intros He Hfin. unfold binary_normalize in *. pose proof (bpow_pos e) as Hb.
  destruct M as [|m|m].
  - simpl. rewrite Rmult_0_l, Rminus_diag, Rabs_R0. lra.
  - destruct (binary_round_correct false m e He) as (r & Hz & Hr).
    destruct Hz as [[Hinf _]|[_ Hz]]; [rewrite Hinf in Hfin; discriminate|].
    rewrite Hz. simpl signed.
    assert (0 < IZR (Zpos m)) by (apply IZR_lt; lia).
    rewrite (Rabs_pos_eq (IZR (Zpos m) * bpow e)) by nra. exact Hr.
  - destruct (binary_round_correct true m e He) as (r & Hz & Hr).
    destruct Hz as [[Hinf _]|[_ Hz]]; [rewrite Hinf in Hfin; discriminate|].
    rewrite Hz. simpl signed.
    assert (0 < IZR (Zpos m)) by (apply IZR_lt; lia).
    change (Z.neg m) with (- Z.pos m)%Z. rewrite opp_IZR.
    replace (- r - - IZR (Z.pos m) * bpow e) with (- (r - IZR (Z.pos m) * bpow e)) by ring.
    rewrite Rabs_Ropp.
    replace (- IZR (Z.pos m) * bpow e) with (- (IZR (Z.pos m) * bpow e)) by ring.
    rewrite Rabs_Ropp, (Rabs_pos_eq (IZR (Zpos m) * bpow e)) by nra. exact Hr.
Qed.

Lemma aligned_value (s : bool) (m : positive) (e ez : Z) :
  (ez <= e)%Z ->
  IZR (cond_Zopp s (Zpos (fst (shl_align m e ez)))) * bpow ez
  = SF2R (S754_finite s m e).
Proof.
  intros Hle. destruct (shl_align_spec m e ez) as (mz & ez' & Heq & Hval & _ & Hez).
  rewrite Heq. simpl fst. replace ez' with ez in Hval by lia.
  rewrite SF2R_finite. destruct s; simpl.
  - change (Z.neg mz) with (- Z.pos mz)%Z. rewrite opp_IZR, <- Hval. ring.
  - exact Hval.
Qed.

Lemma SFadd_error (sx sy : bool) (mx my : positive) (ex ey : Z) :
  let x := S754_finite sx mx ex in
  let y := S754_finite sy my ey in
  (-1074 <= ex)%Z -> (-1074 <= ey)%Z ->
  SF_is_finite (SF64add x y) = true ->
  Rabs (SF2R (SF64add x y) - (SF2R x + SF2R y))
  <= bpow (-53) * Rabs (SF2R x + SF2R y).
Proof.
  intros x y Hex Hey Hfin. subst x y. unfold SF64add, SFadd in *.
  set (ez := Z.min ex ey) in *.
  rewrite <- (aligned_value sx mx ex ez), <- (aligned_value sy my ey ez) by (unfold ez; lia).
  rewrite <- Rmult_plus_distr_r, <- plus_IZR.
  apply binary_normalize_correct; [unfold ez; lia|exact Hfin].
Qed.

Lemma SFsub_error (sx sy : bool) (mx my : positive) (ex ey : Z) :
  let x := S754_finite sx mx ex in
  let y := S754_finite sy my ey in
  (-1074 <= ex)%Z -> (-1074 <= ey)%Z ->
  SF_is_finite (SF64sub x y) = true ->
  Rabs (SF2R (SF64sub x y) - (SF2R x - SF2R y))
  <= bpow (-53) * Rabs (SF2R x - SF2R y).
Proof.
  intros x y Hex Hey Hfin. subst x y. unfold SF64sub, SFsub in *.
  set (ez := Z.min ex ey) in *.
  rewrite <- (aligned_value sx mx ex ez), <- (aligned_value sy my ey ez) by (unfold ez; lia).
  rewrite <- Rmult_minus_distr_r, <- minus_IZR.
  apply binary_normalize_correct; [unfold ez; lia|exact Hfin].
Qed.

(** *** The operations on numbers *)

Lemma is_finite_SF (x : float) : is_finite x = SF_is_finite (Prim2SF x).
Proof.
  unfold is_finite, is_nan, is_infinity.
  rewrite !eqb_spec, abs_spec.
  change (Prim2SF infinity) with (S754_infinity false).
  destruct (Prim2SF x) as [s|s| |s m e]; try (destruct s; reflexivity); try reflexivity.
  unfold SFeqb, SFcompare, SFabs.
  rewrite Z.compare_refl, Pos.compare_cont_refl. destruct s; reflexivity.
Qed.

Lemma canonical_cases (m : positive) (e : Z) :
  canonical_mantissa prec emax m e = true ->
  (-1074 <= e)%Z /\ (Zpos (digits2_pos m) <= 53)%Z /\
  (Zpos (digits2_pos m) = 53%Z \/ e = (-1074)%Z).
Proof.
  unfold canonical_mantissa. intros H. apply Z.eqb_eq in H.
  rewrite fexp64_eq in H. lia.
Qed.

Lemma valid_finite (x : float) (s : bool) (m : positive) (e : Z) :
  Prim2SF x = S754_finite s m e ->
  (-1074 <= e <= 971)%Z /\ (Zpos (digits2_pos m) <= 53)%Z /\
  (Zpos (digits2_pos m) = 53%Z \/ e = (-1074)%Z).
Proof.
  intros Hx. pose proof (Prim2SF_valid x) as Hv. rewrite Hx in Hv.
  simpl in Hv. unfold bounded in Hv. apply andb_prop in Hv. destruct Hv as [Hc Hb].
  apply Z.leb_le in Hb. change (emax - prec)%Z with 971%Z in Hb.
  destruct (canonical_cases m e Hc) as (H1 & H2 & H3). repeat split; auto; lia.
Qed.

(** A finite product is within 2^-53, relatively, of the exact product
    (within 2^-1075 when it underflows). *)
Theorem mul_error (x y : float) :
  is_finite (x * y) = true ->
  Rabs (F2R (x * y) - F2R x * F2R y)
  <= bpow (-53) * Rabs (F2R x * F2R y) + bpow (-1075).
Proof.
  rewrite is_finite_SF. unfold F2R. rewrite mul_spec.
  pose proof (bpow_pos (-53)). pose proof (bpow_pos (-1075)).
  destruct (Prim2SF x) as [sx|sx| |sx mx ex], (Prim2SF y) as [sy|sy| |sy my ey];
    try discriminate;
    try (intros _; simpl SF2R; rewrite ?Rmult_0_l, ?Rmult_0_r, Rminus_diag, Rabs_R0; lra).
  apply SFmul_error.
Qed.

(** A finite quotient is within 2^-53, relatively, of the exact quotient
    (within 2^-1075 when it underflows). *)
Theorem div_error (x y : float) :
  is_finite (x / y) = true ->
  Rabs (F2R (x / y) - F2R x / F2R y)
  <= bpow (-53) * Rabs (F2R x / F2R y) + bpow (-1075).
Proof.
  rewrite is_finite_SF. unfold F2R. rewrite div_spec.
  pose proof (bpow_pos (-53)). pose proof (bpow_pos (-1075)).
  destruct (Prim2SF x) as [sx|sx| |sx mx ex], (Prim2SF y) as [sy|sy| |sy my ey];
    try discriminate;
    try (intros _; simpl SF2R; unfold Rdiv;
         rewrite ?Rinv_0, ?Rmult_0_l, ?Rmult_0_r, Rminus_diag, Rabs_R0; lra).
  apply SFdiv_error.
Qed.

(** A finite sum is within 2^-53, relatively, of the exact sum. *)
Theorem add_error (x y : float) :
  is_finite (x + y) = true ->
  Rabs (F2R (x + y) - (F2R x + F2R y)) <= bpow (-53) * Rabs (F2R x + F2R y).
Proof.
  rewrite is_finite_SF. unfold F2R. rewrite add_spec.
  pose proof (bpow_pos (-53)).
  destruct (Prim2SF x) as [sx|sx| |sx mx ex] eqn:Hx,
           (Prim2SF y) as [sy|sy| |sy my ey] eqn:Hy;
    try discriminate;
    try (destruct sx, sy; try discriminate; intros _; simpl SF2R;
         rewrite ?Rplus_0_l, ?Rplus_0_r, Rminus_diag, Rabs_R0;
         pose proof (Rabs_pos 0); nra);
    try (intros _; simpl SF64add; cbn [SFadd];
         rewrite ?Rplus_0_l, ?Rplus_0_r, Rminus_diag, Rabs_R0;
         match goal with |- _ <= _ * Rabs ?t => pose proof (Rabs_pos t) end; nra).
  destruct (valid_finite x _ _ _ Hx) as ([Hex _] & _).
  destruct (valid_finite y _ _ _ Hy) as ([Hey _] & _).
  apply SFadd_error; assumption.
Qed.

Ltac exact_result :=
  match goal with
  | |- Rabs (?a - ?b) <= ?u * Rabs ?c =>
      replace (a - b) with 0;
      [ rewrite Rabs_R0; apply Rmult_le_pos; [lra | apply Rabs_pos]
      | unfold SF64sub, SFsub, SF64add, SFadd, SF2R, cond_Zopp;
        repeat match goal with s : bool |- _ => destruct s end;
        simpl; rewrite <- ?Pos2Z.opp_pos, ?opp_IZR; ring ]
  end.

(** A finite difference is within 2^-53, relatively, of the exact one. *)
Theorem sub_error (x y : float) :
  is_finite (x - y) = true ->
  Rabs (F2R (x - y) - (F2R x - F2R y)) <= bpow (-53) * Rabs (F2R x - F2R y).
Proof.
  rewrite is_finite_SF. unfold F2R. rewrite sub_spec.
  pose proof (bpow_pos (-53)).
  destruct (Prim2SF x) as [sx|sx| |sx mx ex] eqn:Hx,
           (Prim2SF y) as [sy|sy| |sy my ey] eqn:Hy;
    try discriminate;
    try (destruct sx, sy; discriminate).
  - intros _. exact_result.
  - intros _. exact_result.
  - intros _. exact_result.
  - destruct (valid_finite x _ _ _ Hx) as ([Hex _] & _).
    destruct (valid_finite y _ _ _ Hy) as ([Hey _] & _).
    apply SFsub_error; assumption.
Qed.

(** The largest finite magnitude. *)
Lemma F2R_bounded (x : float) :
  Rabs (F2R x) <= IZR (2 ^ 53 - 1) * bpow 971.
Proof.
  unfold F2R. pose proof (bpow_pos 971) as Hb.
  assert (H0 : 0 <= IZR (2 ^ 53 - 1) * bpow 971).
  { assert (0 <= IZR (2 ^ 53 - 1)) by (apply IZR_le; lia). nra. }
  destruct (Prim2SF x) as [s|s| |s m e] eqn:Hx;
    try (simpl SF2R; rewrite Rabs_R0; exact H0).
  destruct (valid_finite x _ _ _ Hx) as ([_ He] & Hd & _).
  rewrite SF2R_finite.
  pose proof (bpow_pos e) as Hbe.
  assert (Hm0 : 0 < IZR (Zpos m)) by (apply IZR_lt; lia).
  rewrite Rabs_signed by nra.
  destruct (digits2_pos_bounds m) as [_ Hhi].
  assert (Hm : (Zpos m <= 2 ^ 53 - 1)%Z).
  { assert (2 ^ Zpos (digits2_pos m) <= 2 ^ 53)%Z by (apply Z.pow_le_mono_r; lia). lia. }
  apply IZR_le in Hm. pose proof (bpow_le e 971 He). nra.
Qed.

Lemma digits2_pos_mul_le (a b : positive) :
  (Zpos (digits2_pos a) <= Zpos (digits2_pos (a * b)))%Z.
Proof.
  destruct (digits2_pos_bounds a) as [Hlo _].
  destruct (digits2_pos_bounds (a * b)) as [_ Hhi].
  destruct (Z_le_gt_dec (Zpos (digits2_pos a)) (Zpos (digits2_pos (a * b)))) as [|Hgt];
    [assumption|].
  assert (2 ^ Zpos (digits2_pos (a * b)) <= 2 ^ (Zpos (digits2_pos a) - 1))%Z
    by (apply Z.pow_le_mono_r; lia).
  assert (Zpos a <= Zpos (a * b))%Z by (rewrite Pos2Z.inj_mul; nia).
  lia.
Qed.

(** A product whose exact value is within the finite range does not overflow. *)
Theorem mul_finite (x y : float) :
  is_finite x = true -> is_finite y = true ->
  Rabs (F2R x * F2R y) < bpow 1024 - bpow 970 ->
  is_finite (x * y) = true.
Proof.
  rewrite !is_finite_SF. unfold F2R. rewrite mul_spec.
  destruct (Prim2SF x) as [sx|sx| |sx mx ex] eqn:Hx,
           (Prim2SF y) as [sy|sy| |sy my ey] eqn:Hy;
    try discriminate; try reflexivity.
  intros _ _ Hsmall. unfold SF64mul, SFmul.
  set (v := IZR (Zpos (mx * my)) * bpow (ex + ey)).
  assert (Hv : SF2R (S754_finite sx mx ex) * SF2R (S754_finite sy my ey)
               = signed (xorb sx sy) v).
  { rewrite !SF2R_finite, signed_xorb. f_equal. unfold v.
    rewrite Pos2Z.inj_mul, mult_IZR, bpow_add. ring. }
  assert (Hv0 : 0 <= v).
  { unfold v. pose proof (bpow_pos (ex + ey)).
    assert (0 < IZR (Zpos (mx * my))) by (apply IZR_lt; lia). nra. }
  rewrite Hv, Rabs_signed in Hsmall by exact Hv0.
  destruct (binary_round_aux_correct (xorb sx sy) (Zpos (mx * my)) (ex + ey) loc_Exact v)
    as (r & Hz & _); [lia|reflexivity|left; reflexivity|].
  destruct Hz as [[_ Hbig]|[Hfin _]]; [|exact Hfin].
  exfalso. apply (Rlt_irrefl v). eapply Rlt_le_trans; [exact Hsmall|]. apply Hbig.
  destruct (valid_finite x _ _ _ Hx) as (Hex & Hdx & Hcx).
  destruct (valid_finite y _ _ _ Hy) as (Hey & Hdy & Hcy).
  rewrite fexp64_eq. simpl Zdigits2.
  pose proof (digits2_pos_mul_le mx my) as H1.
  pose proof (digits2_pos_mul_le my mx) as H2. rewrite (Pos.mul_comm my mx) in H2.
  lia.
Qed.

(** A number [s] with [0 < s] and [s <= 1] is finite and denotes a real
    in (0, 1]. *)
Lemma positive_at_most_one (s : float) :
  (0 <? s)%float = true -> (s <=? 1)%float = true ->
  is_finite s = true /\ 0 < F2R s <= 1.
Proof.
  rewrite ltb_spec, leb_spec, is_finite_SF. unfold F2R.
  change (Prim2SF 0) with (S754_zero false).
  change (Prim2SF 1) with (S754_finite false 4503599627370496 (-52)).
  destruct (Prim2SF s) as [sg|sg| |sg m e] eqn:Hs; try discriminate;
    try (destruct sg; discriminate).
  destruct sg; [discriminate|]. intros _ Hle. split; [reflexivity|].
  rewrite SF2R_finite. cbn [signed].
  pose proof (bpow_pos e) as Hbe.
  assert (Hm0 : 0 < IZR (Zpos m)) by (apply IZR_lt; lia).
  split; [nra|].
  destruct (valid_finite s _ _ _ Hs) as (_ & Hd & _).
  destruct (digits2_pos_bounds m) as [_ Hhi].
  assert (Hm : (Zpos m < 2 ^ 53)%Z).
  { assert (2 ^ Zpos (digits2_pos m) <= 2 ^ 53)%Z by (apply Z.pow_le_mono_r; lia). lia. }
  unfold SFleb, SFcompare in Hle.
  destruct (Z.compare_spec e (-52)) as [He|He|He]; try discriminate.
  - subst e.
    assert (Hb52 : bpow (-52) * IZR (Zpos 4503599627370496) = 1).
    { change (bpow (-52)) with (/ IZR (Zpos 4503599627370496)).
      apply Rinv_l. apply not_eq_sym, Rlt_not_eq, IZR_lt. reflexivity. }
    assert (Hc0 : 0 < IZR (Zpos 4503599627370496)) by (apply IZR_lt; reflexivity).
    revert Hle Hb52 Hc0. generalize 4503599627370496%positive as c. intros c Hle Hb52 Hc0.
    assert (Hmle : (m <= c)%positive).
    { unfold Pos.le, Pos.compare. intros Hgt. rewrite Hgt in Hle. discriminate. }
    assert (Hmle' : IZR (Zpos m) <= IZR (Zpos c)) by (apply IZR_le; lia).
    pose proof (bpow_pos (-52)) as Hp52. nra.
  - assert (He' : (e <= -53)%Z) by lia.
    pose proof (bpow_le e (-53) He') as Hmono.
    apply IZR_lt in Hm.
    assert (Hb53 : bpow (-53) = / IZR (2 ^ 53)) by reflexivity.
    rewrite Hb53 in Hmono.
    assert (0 < IZR (2 ^ 53)) by (apply IZR_lt; reflexivity).
    assert (0 < / IZR (2 ^ 53)) by (apply Rinv_0_lt_compat; assumption).
    assert (IZR (Zpos m) * bpow e <= IZR (2 ^ 53) * / IZR (2 ^ 53)).
    { apply Rmult_le_compat; lra. }
    rewrite Rinv_r in H1 by lra. lra.
Qed.

(** *** Division by one *)

Lemma SFdiv_one (s : bool) (m : positive) (e : Z) :
  SpecFloat.bounded prec emax m e = true ->
  SF64div (S754_finite s m e) (S754_finite false 4503599627370496 (-52))
  = S754_finite s m e.
Proof.
  intros Hb. unfold SpecFloat.bounded in Hb. apply andb_prop in Hb. destruct Hb as [Hc He].
  apply Z.leb_le in He. change (emax - prec)%Z with 971%Z in He.
  destruct (canonical_cases m e Hc) as (Hlo & Hd & Hcase).
  unfold SF64div, SFdiv, SFdiv_core_binary.
  change (Zdigits2 (Zpos 4503599627370496)) with 53%Z.
  change (Zdigits2 (Zpos m)) with (Zpos (digits2_pos m)).
  assert (Hpow : (2 ^ 52 = Zpos 4503599627370496)%Z) by reflexivity.
  replace (xorb s false) with s by (destruct s; reflexivity).
  destruct (Z.eq_dec e (-1074)) as [He74|Hn74].
  - (* the lowest binade *)
    subst e.
    replace (Z.min (fexp64 (Zpos (digits2_pos m) + -1074 - (53 + -52))) (-1074 - -52))
      with (-1074)%Z by (rewrite fexp64_eq; lia).
    change (-1074 - -52 - -1074)%Z with 52%Z.
    rewrite Z.shiftl_mul_pow2 by lia.
    rewrite <- Hpow.
    replace (Z.div_eucl (Zpos m * 2 ^ 52) (2 ^ 52)) with (Zpos m, 0%Z).
    2:{ symmetry. pose proof (Z_div_mod (Zpos m * 2 ^ 52) (2 ^ 52) ltac:(lia)) as H.
        destruct (Z.div_eucl (Zpos m * 2 ^ 52) (2 ^ 52)) as [q r]. destruct H as [H1 H2].
        assert (q = Zpos m) by nia. subst q. f_equal. lia. }
    change (new_location (2 ^ 52) 0) with loc_Exact.
    unfold binary_round_aux.
    rewrite (shr_fexp_noshift (Zpos m) (-1074) loc_Exact)
      by (rewrite fexp64_eq; simpl Zdigits2; lia).
    simpl round_nearest_even.
    rewrite (shr_fexp_noshift (Zpos m) (-1074) loc_Exact)
      by (rewrite fexp64_eq; simpl Zdigits2; lia).
    reflexivity.
  - (* a normal number: 53 digits *)
    assert (Hd53 : Zpos (digits2_pos m) = 53%Z) by lia.
    rewrite Hd53.
    replace (Z.min (fexp64 (53 + e - (53 + -52))) (e - -52))
      with (e - 1)%Z by (rewrite fexp64_eq; lia).
    replace (e - -52 - (e - 1))%Z with 53%Z by lia.
    rewrite Z.shiftl_mul_pow2 by lia.
    rewrite <- Hpow.
    replace (Z.div_eucl (Zpos m * 2 ^ 53) (2 ^ 52)) with (Zpos (xO m), 0%Z).
    2:{ symmetry. pose proof (Z_div_mod (Zpos m * 2 ^ 53) (2 ^ 52) ltac:(lia)) as H.
        destruct (Z.div_eucl (Zpos m * 2 ^ 53) (2 ^ 52)) as [q r]. destruct H as [H1 H2].
        change (2 ^ 53)%Z with (2 * 2 ^ 52)%Z in H1.
        assert (q = Zpos (xO m)) by nia. subst q. f_equal. lia. }
    change (new_location (2 ^ 52) 0) with loc_Exact.
    unfold binary_round_aux.
    assert (Hs1 : shr_fexp prec emax (Zpos (xO m)) (e - 1) loc_Exact
                  = (Build_shr_record (Zpos m) false false, e)).
    { unfold shr_fexp. simpl Zdigits2. rewrite Pos2Z.inj_succ, Hd53.
      replace (fexp64 (Z.succ 53 + (e - 1)) - (e - 1))%Z with 1%Z
        by (rewrite fexp64_eq; lia).
      unfold shr. simpl. f_equal. lia. }
    rewrite Hs1. simpl round_nearest_even.
    rewrite (shr_fexp_noshift (Zpos m) e loc_Exact)
      by (rewrite fexp64_eq; simpl Zdigits2; lia).
    simpl shr_m. change (emax - prec)%Z with 971%Z.
    destruct (Z.leb_spec e 971); [reflexivity|lia].
Qed.

(** [v / 1] is [v], bit for bit, for every number [v] (NaN, the
    infinities and the zeros included). *)
Theorem div_one (x : float) : (x / 1)%float = x.
Proof.
  apply Prim2SF_inj. rewrite div_spec.
  change (Prim2SF 1) with (S754_finite false 4503599627370496 (-52)).
  pose proof (Prim2SF_valid x) as Hv.
  destruct (Prim2SF x) as [s|s| |s m e]; try (destruct s; reflexivity); try reflexivity.
  apply SFdiv_one. exact Hv.
Qed.

(** *** Integers *)

(** An integer of at most 53 bits is a binary64 number. *)
Lemma binary_round_exact (s : bool) (p : positive) :
  (Zpos (digits2_pos p) <= 53)%Z ->
  exists mz ez,
    binary_round prec emax s p 0 = S754_finite s mz ez /\
    SpecFloat.bounded prec emax mz ez = true /\
    IZR (Zpos mz) * bpow ez = IZR (Zpos p).
Proof.
  intros Hd. unfold binary_round.
  assert (Hf : fexp64 (Zpos (digits2_pos p) + 0) = (Zpos (digits2_pos p) - 53)%Z).
  { rewrite fexp64_eq. lia. }
  rewrite Hf.
  destruct (shl_align_spec p 0 (Zpos (digits2_pos p) - 53))
    as (mz & ez & Heq & Hval & Hdig & Hez).
  rewrite Heq. exists mz, ez.
  assert (Hez' : ez = (Zpos (digits2_pos p) - 53)%Z) by lia.
  assert (Hdz : Zpos (digits2_pos mz) = 53%Z) by lia.
  assert (Hfz : fexp64 (Zdigits2 (Zpos mz) + ez) = ez).
  { simpl Zdigits2. rewrite fexp64_eq. lia. }
  split; [|split].
  - unfold binary_round_aux.
    rewrite (shr_fexp_noshift (Zpos mz) ez loc_Exact) by lia.
    rewrite shr_record_of_loc_m, loc_of_shr_record_of_loc.
    cbn [round_nearest_even].
    rewrite (shr_fexp_noshift (Zpos mz) ez loc_Exact) by lia.
    rewrite shr_record_of_loc_m.
    destruct (Z.leb_spec ez (emax - prec)) as [_|H]; [reflexivity|].
    change (emax - prec)%Z with 971%Z in H. lia.
  - unfold SpecFloat.bounded, canonical_mantissa.
    apply andb_true_intro. split.
    + apply Z.eqb_eq. simpl Zdigits2 in Hfz. exact Hfz.
    + apply Z.leb_le. change (emax - prec)%Z with 971%Z. lia.
  - rewrite Hval. simpl bpow. lra.
Qed.

Lemma of_Z_exact (z : Z) :
  (Z.abs z < 2 ^ 53)%Z ->
  is_finite (of_Z z) = true /\ F2R (of_Z z) = IZR z.
Proof.
  intros Hz. unfold of_Z, F2R. rewrite is_finite_SF.
  assert (Hdig : forall p, (Zpos p < 2 ^ 53)%Z -> (Zpos (digits2_pos p) <= 53)%Z).
  { intros p Hp. apply (Zdigits2_le (Zpos p) 53); lia. }
  destruct z as [|p|p]; unfold binary_normalize.
  - rewrite Prim2SF_SF2Prim by reflexivity. split; reflexivity.
  - destruct (binary_round_exact false p (Hdig p ltac:(lia)))
      as (mz & ez & Heq & Hb & Hval).
    rewrite Heq, Prim2SF_SF2Prim by exact Hb.
    split; [reflexivity|]. rewrite SF2R_finite. exact Hval.
  - destruct (binary_round_exact true p (Hdig p ltac:(lia)))
      as (mz & ez & Heq & Hb & Hval).
    rewrite Heq, Prim2SF_SF2Prim by exact Hb.
    split; [reflexivity|]. rewrite SF2R_finite. simpl signed. rewrite Hval.
    change (Zneg p) with (- Zpos p)%Z. rewrite opp_IZR. reflexivity.
Qed.

End Rounding.


(** ** The effect layer *)

Section EffLemmas.

Context {E A B : Type}.

Lemma result_bind_returned (m : Eff E A) (k : A -> Eff E B) (b : B) :
  result (bind m k) = Returned b ->
  exists a, result m = Returned a /\ result (k a) = Returned b.
Proof.
  unfold result, bind. destruct (snd m) as [a|msg] eqn:Hm; simpl.
  - intros H. exists a. split; [reflexivity | exact H].
  - discriminate.
Qed.

Lemma events_bind_returned (m : Eff E A) (k : A -> Eff E B) (a : A) :
  result m = Returned a ->
  events (bind m k) = events m ++ events (k a).
Proof.
  unfold result, events, bind. intros ->. reflexivity.
Qed.

End EffLemmas.

(** ** What a successful run returns *)

Section SuccessfulRun.

Local Open Scope float_scope.
Local Open Scope string_scope.

(** The logging loop runs through an array of boxes and throws on any
    other array. *)
Lemma logEach_run {E} (preds : list Api.Prediction) :
  @Api.logEach E preds
  = ([], if forallb isBox preds then Returned tt else Thrown Api.typeErrorMessage).
Proof.
  induction preds as [|[p|] preds IH]; [reflexivity|exact IH|reflexivity].
Qed.

Lemma boxes_map_Box (ps : list Detection) : Api.boxes (map Api.Box ps) = ps.
Proof.
  unfold Api.boxes. induction ps as [|p ps IH]; simpl; [reflexivity|].
  f_equal. exact IH.
Qed.

Lemma isBox_map_Box (ps : list Detection) : forallb isBox (map Api.Box ps) = true.
Proof. induction ps as [|p ps IH]; simpl; [reflexivity|exact IH]. Qed.

Lemma map_Box_boxes (preds : list Api.Prediction) :
  forallb isBox preds = true -> map Api.Box (Api.boxes preds) = preds.
Proof.
  unfold Api.boxes. induction preds as [|[p|] preds IH]; simpl; intros H.
  - reflexivity.
  - f_equal. exact (IH H).
  - discriminate H.
Qed.

(** The request, read off the way [fetch] and the parsing of the body end. *)
Lemma callRoboflowAPI_run (response : Api.FetchOutcome) (onProgress : bool) :
  Api.callRoboflowAPI response onProgress
  = ((if onProgress
      then match response with
           | Api.FetchResponse true _ (Some data) =>
               if wellFormed data then [0.3; 0.7; 1.0] else [0.3; 0.7]
           | Api.FetchResponse true _ None => [0.3; 0.7]
           | _ => [0.3]
           end
      else []),
     match response with
     | Api.FetchResponse true _ (Some data) =>
         if wellFormed data then Returned data else Thrown Api.analyzeFailedMessage
     | _ => Thrown Api.analyzeFailedMessage
     end).
Proof.
  destruct response as [|[|] status [[[| |preds] img]|]];
    try (destruct onProgress; reflexivity).
  unfold Api.callRoboflowAPI, wellFormed. cbn [Api.predictions negb].
  rewrite logEach_run.
  destruct (forallb isBox preds), onProgress; reflexivity.
Qed.

(** The pipeline, read off the way its three awaited steps end. *)
Lemma api_pipeline_run (env : Api.PipelineEnv) (file : File) (onProgress : bool) :
  Api.processAndDisplayImage env file onProgress
  = ((if onProgress
      then match Api.imageLoad env with
           | Loaded _ _ =>
               (10, "Loading image...") :: (30, "Preparing for analysis...") ::
               match Api.fileToBase64 env with
               | None => []
               | Some _ =>
                   (50, "Detecting pills...") :: (50 + 0.3 * 40, "Detecting pills...") ::
                   match Api.response env with
                   | Api.FetchResponse true _ (Some data) =>
                       (50 + 0.7 * 40, "Detecting pills...") ::
                       if wellFormed data
                       then [(50 + 1.0 * 40, "Detecting pills...");
                             (90, "Finalizing results..."); (100, "Complete!")]
                       else []
                   | Api.FetchResponse true _ None =>
                       [(50 + 0.7 * 40, "Detecting pills...")]
                   | _ => []
                   end
               end
           | _ => [(10, "Loading image...")]
           end
      else []),
     match Api.imageLoad env with
     | LoadError => Thrown "Failed to load image"
     | LoadTimeout _ => Thrown "Image loading timeout"
     | Loaded w h =>
         match Api.fileToBase64 env with
         | None => Thrown "Failed to read file"
         | Some _ =>
             match Api.response env with
             | Api.FetchResponse true _ (Some data) =>
                 if wellFormed data
                 then Returned (Api.Build_PipelineResult (Api.objectURL env) w h
                                  (detectionsOf data)
                                  (List.length (detectionsOf data)) (Api.isoNow env))
                 else Thrown Api.analyzeFailedMessage
             | _ => Thrown Api.analyzeFailedMessage
             end
         end
     end).
Proof.
  destruct env as [url load b64 resp iso].
  unfold Api.processAndDisplayImage.
  cbn [Api.imageLoad Api.fileToBase64 Api.response Api.objectURL Api.isoNow].
  rewrite callRoboflowAPI_run.
  destruct load as [w h| |later]; [|destruct onProgress; reflexivity..].
  destruct b64 as [b|]; [|destruct onProgress; reflexivity].
  destruct resp as [|[|] status [[[| |preds] img]|]];
    try (destruct onProgress; reflexivity).
  unfold wellFormed, detectionsOf. cbn [Api.predictions].
  destruct (forallb isBox preds) eqn:Hb; [|destruct onProgress; reflexivity].
  destruct onProgress; unfold bind, forward, report, emit, ret; simpl;
    rewrite !logEach_run, Hb; reflexivity.
Qed.

Lemma api_result_shape (env : Api.PipelineEnv) (file : File) (onProgress : bool)
    (r : Api.PipelineResult) :
  result (Api.processAndDisplayImage env file onProgress) = Returned r ->
  exists w h data,
    Api.imageLoad env = Loaded w h /\
    Api.response env = Api.FetchResponse true (match Api.response env with
                                               | Api.FetchResponse _ s _ => s
                                               | _ => 0%Z end) (Some data) /\
    wellFormed data = true /\
    Api.originalWidth r = w /\ Api.originalHeight r = h /\
    Api.detections r = detectionsOf data /\
    Api.pillCount r = List.length (Api.detections r).
Proof.
  rewrite api_pipeline_run. unfold result. cbn [snd].
  destruct (Api.imageLoad env) as [w h| |later]; try discriminate.
  destruct (Api.fileToBase64 env) as [b|]; try discriminate.
  destruct (Api.response env) as [|[|] status [data|]]; try discriminate.
  destruct (wellFormed data) eqn:Hwf; try discriminate.
  intros H. injection H as <-. exists w, h, data.
  repeat split; try reflexivity. exact Hwf.
Qed.

Ltac invert_bind H :=
  let a := fresh "a" in
  let Ha := fresh "Ha" in
  apply result_bind_returned in H; destruct H as (a & Ha & H).

Lemma local_result_shape (env : Local.PipelineEnv) (file : File) (onProgress : bool)
    (r : Local.PipelineResult) :
  result (Local.processAndDisplayImage env file onProgress) = Returned r ->
  exists w h inferred,
    Local.imageLoad env = Loaded w h /\
    Local.originalWidth r = w /\ Local.originalHeight r = h /\
    Local.processingScale r = Local.scaleFor Local.maxProcessingDimension w h /\
    Local.detections r
    = map (Local.scaleDetection (Local.processingScale r)) inferred /\
    Local.pillCount r = List.length (Local.detections r) /\
    result (Local.runPillDetection (Local.random env)
              (fst (Local.processedSize Local.maxProcessingDimension w h))
              (snd (Local.processedSize Local.maxProcessingDimension w h))
              true) = Returned inferred.
Proof.
  unfold Local.processAndDisplayImage. intros H.
  invert_bind H. invert_bind H. invert_bind H. invert_bind H.
  invert_bind H. invert_bind H. invert_bind H.
  unfold result, ret in H. simpl in H. injection H as <-.
  destruct (Local.imageLoad env) as [w h| |] eqn:Hload; try discriminate.
  unfold result, ret in Ha0. simpl in Ha0. injection Ha0 as <-.
  exists w, h, a3. simpl. repeat split; try reflexivity. exact Ha3.
Qed.

(** The detections of a successful run are the service's predictions,
    filtered and formatted. *)
Lemma api_detections_are_formatted (env : Api.PipelineEnv) (file : File)
    (onProgress : bool) (r : Api.PipelineResult) (status : Z) (data : Api.ApiData)
    (ps : list Detection) :
  result (Api.processAndDisplayImage env file onProgress) = Returned r ->
  Api.response env = Api.FetchResponse true status (Some data) ->
  Api.predictions data = Api.Elements (map Api.Box ps) ->
  Api.detections r = Api.formatDetections ps.
Proof.
  intros Hr Hresp Hps.
  destruct (api_result_shape env file onProgress r Hr)
    as (w & h & data' & _ & Hresp' & _ & _ & _ & Hdet & _).
  rewrite Hresp in Hresp'. simpl in Hresp'.
  assert (Hdata : data' = data) by congruence. subst data'.
  rewrite Hdet. unfold detectionsOf. rewrite Hps, boxes_map_Box. reflexivity.
Qed.

End SuccessfulRun.

(** ** The confidence filter *)

Section ConfidenceFilter.

Import Api.
Local Open Scope float_scope.

Lemma confidences_formatDetections (ps : list Detection) :
  map confidence (formatDetections ps)
  = filter (fun c => ge c CONFIDENCE_THRESHOLD) (map confidence ps).
Proof.
  unfold formatDetections.
  induction ps as [|p ps IH]; simpl; [reflexivity|].
  unfold accepted at 1. destruct (ge (confidence p) CONFIDENCE_THRESHOLD); simpl.
  - rewrite IH. reflexivity.
  - exact IH.
Qed.

Lemma in_formatDetections (ps : list Detection) (d : Detection) :
  In d (formatDetections ps) <->
  exists p, In p ps /\ ge (confidence p) CONFIDENCE_THRESHOLD = true /\ d = toTopLeft p.
Proof.
  unfold formatDetections. rewrite in_map_iff. split.
  - intros (p & <- & Hp). apply filter_In in Hp. destruct Hp as [Hin Hacc].
    exists p. auto.
  - intros (p & Hin & Hacc & ->). exists p. split; [reflexivity|].
    apply filter_In. auto.
Qed.

(** The detections that are kept come in the order they were received:
    the kept ones before a position are followed by the kept ones after it. *)
Lemma formatDetections_app (ps qs : list Detection) :
  formatDetections (ps ++ qs) = formatDetections ps ++ formatDetections qs.
Proof.
  unfold formatDetections. rewrite filter_app, map_app. reflexivity.
Qed.

(** C3: the confidence filter keeps exactly the detections whose
    confidence is at least the threshold 0.50, in the order received;
    on the ten confidences 0.9, 0.4, 0.5, 0.51, 0.0, 1.0, 0.49, 0.6, 0.3,
    0.8 it keeps the six 0.9, 0.5, 0.51, 1.0, 0.6, 0.8; and the detections
    of a successful run are the service's predictions so filtered. *)
Theorem confidence_filter_retains_exactly :
  CONFIDENCE_THRESHOLD = 0.5 /\
  (forall ps d,
      In d (formatDetections ps) <->
      exists p, In p ps /\ (0.5 <=? confidence p) = true /\ d = toTopLeft p) /\
  (forall ps,
      map confidence (formatDetections ps)
      = filter (fun c => 0.5 <=? c) (map confidence ps)) /\
  (forall ps qs,
      formatDetections (ps ++ qs) = formatDetections ps ++ formatDetections qs) /\
  (forall ps,
      map confidence ps = exampleConfidences ->
      map confidence (formatDetections ps) = exampleRetained /\
      List.length (formatDetections ps) = 6%nat) /\
  (forall env file onProgress r status data ps,
      result (processAndDisplayImage env file onProgress) = Returned r ->
      response env = FetchResponse true status (Some data) ->
      predictions data = Elements (map Box ps) ->
      detections r = formatDetections ps) /\
  (exists r,
      result (processAndDisplayImage answeringService smallPng true) = Returned r /\
      map confidence (detections r) = exampleRetained).
Proof.
  split; [reflexivity|].
  split; [exact in_formatDetections|].
  split; [exact confidences_formatDetections|].
  split; [exact formatDetections_app|].
  split; [|split; [exact api_detections_are_formatted|eexists; split; reflexivity]].
  intros ps Hps.
  assert (H : map confidence (formatDetections ps) = exampleRetained).
  { rewrite confidences_formatDetections, Hps. reflexivity. }
  split; [exact H|].
  rewrite <- (length_map confidence), H. reflexivity.
Qed.

End ConfidenceFilter.

(** ** Downscaling *)

Section Downscaling.

Local Open Scope float_scope.

(** C4: a 3024 x 4032 source with maximum inference dimension 1024 is
    downscaled to exactly 768 x 1024: one scale factor, the smaller of
    1024/3024 and 1024/4032, multiplies both axes, each product is rounded
    down, the longer axis lands on the maximum and the 3:4 aspect ratio is
    kept. The resize step of the validator computes the same size when it is
    given that maximum, and a run of the pipeline on such an image reports
    that scale with the original 3024 x 4032. *)
Theorem downscale_3024x4032_is_768x1024 :
  Local.maxProcessingDimension = 1024 /\
  Local.processedSize Local.maxProcessingDimension 3024 4032 = (768, 1024) /\
  Local.scaleFor Local.maxProcessingDimension 3024 4032
    = Math_min2 (1024 / 3024) (1024 / 4032) /\
  Local.scaleFor Local.maxProcessingDimension 3024 4032 = 1024 / 4032 /\
  (forall m w h,
      Local.processedSize m w h
      = (Math_floor (w * Local.scaleFor m w h),
         Math_floor (h * Local.scaleFor m w h))) /\
  Api.targetSize 1024 3024 4032 = (768, 1024) /\
  768 * 4032 = 1024 * 3024 /\
  (forall env file onProgress r,
      result (Local.processAndDisplayImage env file onProgress) = Returned r ->
      Local.imageLoad env = Loaded 3024 4032 ->
      Local.processingScale r = 1024 / 4032 /\
      Local.originalWidth r = 3024 /\ Local.originalHeight r = 4032).
Proof.
  do 7 (split; [reflexivity|]).
  intros env file onProgress r Hr Himg.
  destruct (local_result_shape env file onProgress r Hr)
    as (w & h & inferred & Hload & Hw & Hh & Hscale & _).
  rewrite Hload in Himg. injection Himg as -> ->.
  split; [rewrite Hscale; reflexivity|]. split; assumption.
Qed.

End Downscaling.

(** ** The validator *)

Section Validator.

Import Api.
Local Open Scope string_scope.

Lemma validate_tooLarge (env : ValidatorEnv) (file : File) :
  (size file > MAX_FILE_SIZE)%Z ->
  validateAndCompressImage env file = ([], Thrown tooLargeMessage).
Proof.
  intros H. unfold validateAndCompressImage.
  destruct (Z.gtb_spec (size file) MAX_FILE_SIZE) as [_|Hle]; [reflexivity|lia].
Qed.

(** Within the byte limit the validator asks the platform to decode the file
    before anything else, and never fails with the size error. *)
Lemma validate_within_limit (env : ValidatorEnv) (file : File) :
  (size file <= MAX_FILE_SIZE)%Z ->
  (exists rest,
      events (validateAndCompressImage env file)
      = CreateObjectURL file :: DecodeImage :: rest) /\
  result (validateAndCompressImage env file) <> Thrown tooLargeMessage.
Proof.
  intros H. unfold validateAndCompressImage, onload, onerror, onTimeout, settledThen.
  destruct (Z.gtb_spec (size file) MAX_FILE_SIZE) as [Hgt|_]; [lia|].
  destruct (decode env) as [w h| |later].
  - destruct (targetSize MAX_DIMENSION w h) as [cw ch].
    destruct (toBlob env cw ch "image/jpeg" 0.92%float) as [[bytes len]|];
      (split; [eexists; reflexivity | discriminate]).
  - split; [eexists; reflexivity | discriminate].
  - split; [eexists; reflexivity | discriminate].
Qed.

(** C6: the validator fails with the size error exactly when the file's
    byte size exceeds the 10 MB limit, and it does so before it asks the
    platform for anything: no object URL is created and no decode is
    started. *)
Theorem tooLarge_iff_size_exceeds_limit :
  MAX_FILE_SIZE = 10485760%Z /\
  forall (env : ValidatorEnv) (file : File),
    (result (validateAndCompressImage env file) = Thrown tooLargeMessage
     <-> (size file > MAX_FILE_SIZE)%Z) /\
    ((size file > MAX_FILE_SIZE)%Z ->
     events (validateAndCompressImage env file) = []) /\
    ((size file <= MAX_FILE_SIZE)%Z ->
     exists rest,
       events (validateAndCompressImage env file)
       = CreateObjectURL file :: DecodeImage :: rest).
Proof.
  split; [reflexivity|]. intros env file. split; [split|split].
  - intros Hr. destruct (Z_gt_le_dec (size file) MAX_FILE_SIZE) as [Hgt|Hle]; [exact Hgt|].
    destruct (validate_within_limit env file Hle) as [_ Hne]. contradiction.
  - intros Hgt. rewrite (validate_tooLarge env file Hgt). reflexivity.
  - intros Hgt. rewrite (validate_tooLarge env file Hgt). reflexivity.
  - intros Hle. exact (proj1 (validate_within_limit env file Hle)).
Qed.

Lemma targetSize_within (w h : number) :
  gt w MAX_DIMENSION = false -> gt h MAX_DIMENSION = false ->
  targetSize MAX_DIMENSION w h = (w, h).
Proof. unfold targetSize. intros -> ->. reflexivity. Qed.

(** C5, as the code has it: an image that decodes and whose width and
    height are both within the maximum dimension is not resized (the canvas
    takes the image's own size), but it is never passed through: it is
    always drawn and re-encoded as JPEG at quality 0.92, and the file handed
    back carries the encoder's bytes, the type image/jpeg and a fresh
    timestamp under the old name. *)
Theorem within_dimension_not_resized_but_reencoded
    (env : ValidatorEnv) (file : File) (w h : number) :
  (size file <= MAX_FILE_SIZE)%Z ->
  decode env = Loaded w h ->
  gt w MAX_DIMENSION = false ->
  gt h MAX_DIMENSION = false ->
  events (validateAndCompressImage env file)
  = [CreateObjectURL file; DecodeImage; SetCanvasSize w h; DrawImage w h;
     ToBlob "image/jpeg" 0.92%float; RevokeObjectURL] /\
  match toBlob env w h "image/jpeg" 0.92%float with
  | Some (bytes, byteLength) =>
      result (validateAndCompressImage env file)
      = Returned {| name := name file; type := "image/jpeg"; size := byteLength;
                    lastModified := now env; content := bytes |}
  | None =>
      result (validateAndCompressImage env file) = Thrown compressFailedMessage
  end.
Proof.
  intros Hsize Hdec Hw Hh. unfold validateAndCompressImage, onload.
  destruct (Z.gtb_spec (size file) MAX_FILE_SIZE) as [Hgt|_]; [lia|].
  rewrite Hdec, (targetSize_within w h Hw Hh).
  destruct (toBlob env w h "image/jpeg" 0.92%float) as [[bytes len]|];
    split; reflexivity.
Qed.

End Validator.

Section ValidatorExamples.

Import Api.
Local Open Scope string_scope.
Local Open Scope float_scope.

(** C5 fails as stated: the 800 x 600 PNG is within every limit, yet the
    validator re-encodes it, and hands back a JPEG file that differs from
    the input in its type, size, timestamp and bytes. *)
Lemma small_png_is_reencoded :
  (size smallPng <= MAX_FILE_SIZE)%Z /\
  decode decodes800x600 = Loaded 800 600 /\
  gt 800 MAX_DIMENSION = false /\
  gt 600 MAX_DIMENSION = false /\
  In (ToBlob "image/jpeg" 0.92) (events (validateAndCompressImage decodes800x600 smallPng)) /\
  result (validateAndCompressImage decodes800x600 smallPng)
  = Returned {| name := "photo.png"; type := "image/jpeg"; size := 2;
                lastModified := 1700000000000; content := [255; 216]%Z |} /\
  result (validateAndCompressImage decodes800x600 smallPng) <> Returned smallPng.
Proof.
  split; [vm_compute; discriminate|].
  split; [reflexivity|].
  split; [reflexivity|].
  split; [reflexivity|].
  split; [vm_compute; tauto|].
  split; [reflexivity|].
  vm_compute. discriminate.
Qed.

Lemma within_dimension_witness :
  events (validateAndCompressImage decodes800x600 smallPng)
  = [CreateObjectURL smallPng; DecodeImage; SetCanvasSize 800 600; DrawImage 800 600;
     ToBlob "image/jpeg" 0.92; RevokeObjectURL] /\
  match toBlob decodes800x600 800 600 "image/jpeg" 0.92 with
  | Some (bytes, byteLength) =>
      result (validateAndCompressImage decodes800x600 smallPng)
      = Returned {| name := name smallPng; type := "image/jpeg"; size := byteLength;
                    lastModified := now decodes800x600; content := bytes |}
  | None =>
      result (validateAndCompressImage decodes800x600 smallPng)
      = Thrown compressFailedMessage
  end.
Proof.
  apply (within_dimension_not_resized_but_reencoded decodes800x600 smallPng 800 600).
  - vm_compute; discriminate.
  - reflexivity.
  - reflexivity.
  - reflexivity.
Defined.

End ValidatorExamples.

(** ** Progress reports *)

Section ProgressOrder.

Import Api.
Local Open Scope float_scope.

(** The reports of one run of the pipeline form a prefix of
    10, 30, 50, 62, 78, 90, 90, 100: where the run stops depends on how the
    image load, the file read and the request end. *)
Lemma processAndDisplayImage_percentages (env : PipelineEnv) (file : File) :
  In (percentages (events (processAndDisplayImage env file true)))
     [ [10]; [10; 30]; [10; 30; 50; 62]; [10; 30; 50; 62; 78];
       [10; 30; 50; 62; 78; 90; 90; 100] ].
Proof.
  rewrite api_pipeline_run. unfold events. cbn [fst].
  destruct (imageLoad env) as [w h| |later]; [|simpl; tauto|simpl; tauto].
  destruct (fileToBase64 env) as [b|]; [|simpl; tauto].
  destruct (response env) as [|[|] status [data|]]; try (simpl; tauto).
  destruct (wellFormed data); simpl; tauto.
Qed.

Lemma processAndDisplayImage_silent (env : PipelineEnv) (file : File) :
  events (processAndDisplayImage env file false) = [].
Proof. rewrite api_pipeline_run. reflexivity. Qed.

Lemma delivered_from_callback (l : list Progress) :
  App.delivered (flat_map (fun p => [App.FromCallback p]) l) = l.
Proof.
  unfold App.delivered. induction l as [|p l IH]; simpl; [reflexivity|].
  f_equal. exact IH.
Qed.

(** What the handler's callback receives is what the pipeline reports. *)
Lemma handler_delivers_pipeline_reports
    (venv : ValidatorEnv) (penv : PipelineEnv) (file validated : File) :
  result (validateAndCompressImage venv file) = Returned validated ->
  App.delivered (events (App.handleImageCapture venv penv file))
  = events (processAndDisplayImage penv validated true).
Proof.
  unfold App.handleImageCapture.
  generalize (processAndDisplayImage penv) as pipeline.
  generalize (validateAndCompressImage venv file) as v.
  intros [vev vr] pipeline Hv. unfold result in Hv. simpl in Hv. subst vr.
  destruct (pipeline validated true) as [pev pr] eqn:Hp.
  unfold events, bind, forward, emit, ret. simpl. rewrite Hp. simpl.
  replace (flat_map (fun _ : PlatformCall => []) vev) with (@nil App.ProgressUpdate)
    by (clear; induction vev; simpl; auto).
  destruct pr; simpl; rewrite ?app_nil_r; apply delivered_from_callback.
Qed.

Lemma handler_delivers_nothing_on_invalid
    (venv : ValidatorEnv) (penv : PipelineEnv) (file : File) (msg : string) :
  result (validateAndCompressImage venv file) = Thrown msg ->
  App.delivered (events (App.handleImageCapture venv penv file)) = [].
Proof.
  unfold App.handleImageCapture.
  generalize (processAndDisplayImage penv) as pipeline.
  generalize (validateAndCompressImage venv file) as v.
  intros [vev vr] pipeline Hv. unfold result in Hv. simpl in Hv. subst vr.
  unfold events, bind, forward, emit, ret. simpl.
  replace (flat_map (fun _ : PlatformCall => []) vev) with (@nil App.ProgressUpdate)
    by (clear; induction vev; simpl; auto).
  reflexivity.
Qed.

(** C7: in every run of the pipeline, however it ends, the percentages
    handed to the progress callback never go down; the same holds for the
    callback [handleImageCapture] passes to the pipeline. *)
Theorem progress_percentages_non_decreasing :
  (forall (env : PipelineEnv) (file : File) (onProgress : bool),
      nonDecreasing (percentages (events (processAndDisplayImage env file onProgress)))
      = true) /\
  (forall (venv : ValidatorEnv) (penv : PipelineEnv) (file : File),
      nonDecreasing
        (percentages (App.delivered (events (App.handleImageCapture venv penv file))))
      = true).
Proof.
  assert (H : forall env file onProgress,
             nonDecreasing (percentages (events (processAndDisplayImage env file onProgress)))
             = true).
  { intros env file [|].
    - pose proof (processAndDisplayImage_percentages env file) as Hin.
      cbn [In] in Hin.
      destruct Hin as [Hin|[Hin|[Hin|[Hin|[Hin|[]]]]]]; rewrite <- Hin; reflexivity.
    - rewrite processAndDisplayImage_silent. reflexivity. }
  split; [exact H|].
  intros venv penv file.
  destruct (result (validateAndCompressImage venv file)) as [validated|msg] eqn:Hv.
  - rewrite (handler_delivers_pipeline_reports venv penv file validated Hv). apply H.
  - rewrite (handler_delivers_nothing_on_invalid venv penv file msg Hv). reflexivity.
Qed.

(** The progress state of the application itself is another matter: the
    handler sets 20 after validation and the pipeline then reports 10. *)
Remark handler_percent_goes_back :
  map App.percentOf
    (firstn 3 (events (App.handleImageCapture decodes800x600
                         {| objectURL := "blob:0"; imageLoad := LoadError;
                            fileToBase64 := None; response := FetchRejected;
                            isoNow := "" |} smallPng)))
  = [0; 20; 10].
Proof. reflexivity. Qed.

End ProgressOrder.

(** ** Fields the mappings leave alone *)

Section PassThrough.

Local Open Scope float_scope.
Local Open Scope string_scope.

(** The detections of the placeholder detector carry no class label. *)
Lemma mockLoop_without_class (random : nat -> number) (cw ch numPills : number)
    (onProgress : bool) :
  forall (fuel : nat) (i : number) (calls : nat) (ds : list Detection),
    result (Local.mockLoop random cw ch numPills onProgress fuel i calls)
    = Returned ds ->
    forall d, In d ds -> class d = None.
Proof.
  induction fuel as [|fuel IH]; intros i calls ds H d Hd; simpl in H.
  - injection H as <-. destruct Hd.
  - destruct (lt i numPills).
    + apply result_bind_returned in H. destruct H as (u & _ & H).
      apply result_bind_returned in H. destruct H as (rest & Hrest & H).
      injection H as <-. destruct Hd as [<-|Hd]; [reflexivity|].
      exact (IH _ _ _ Hrest d Hd).
    + injection H as <-. destruct Hd.
Qed.

(** C9: both mappings pass the confidence and the class label through.
    The conversion of a service prediction to a top-left box copies both
    fields. The mapping from inference space back to original space copies
    the confidence; the detections it is given, those of the detector of
    its file, carry no class label, and neither do the detections it
    returns: the label is the same, absent, on both sides. *)
Theorem confidence_and_class_pass_through :
  (forall (p : Detection),
      confidence (Api.toTopLeft p) = confidence p /\
      class (Api.toTopLeft p) = class p) /\
  (forall (ps : list Detection),
      map confidence (Api.formatDetections ps)
      = map confidence (filter Api.accepted ps) /\
      map class (Api.formatDetections ps) = map class (filter Api.accepted ps)) /\
  (forall (scale : number) (d : Detection),
      confidence (Local.scaleDetection scale d) = confidence d) /\
  (forall (random : nat -> number) (canvasWidth canvasHeight : number)
          (onProgress : bool) (inferred : list Detection),
      result (Local.runPillDetection random canvasWidth canvasHeight onProgress)
      = Returned inferred ->
      forall (scale : number) (d : Detection),
        In d inferred ->
        confidence (Local.scaleDetection scale d) = confidence d /\
        class (Local.scaleDetection scale d) = class d) /\
  (forall (env : Local.PipelineEnv) (file : File) (onProgress : bool)
          (r : Local.PipelineResult),
      result (Local.processAndDisplayImage env file onProgress) = Returned r ->
      exists w h inferred,
        Local.imageLoad env = Loaded w h /\
        result (Local.runPillDetection (Local.random env)
                  (fst (Local.processedSize Local.maxProcessingDimension w h))
                  (snd (Local.processedSize Local.maxProcessingDimension w h))
                  true) = Returned inferred /\
        Local.detections r
        = map (Local.scaleDetection (Local.processingScale r)) inferred /\
        map confidence (Local.detections r) = map confidence inferred /\
        map class (Local.detections r) = map class inferred) /\
  (exists r,
      result (Local.processAndDisplayImage quarterRandom smallPng true) = Returned r /\
      List.length (Local.detections r) = 10%nat).
Proof.
  assert (Hclass : forall random cw ch onProgress inferred,
             result (Local.runPillDetection random cw ch onProgress) = Returned inferred ->
             forall d, In d inferred -> class d = None).
  { intros random cw ch onProgress inferred H.
    exact (mockLoop_without_class _ _ _ _ _ _ _ _ _ H). }
  split; [intros; split; reflexivity|].
  split.
  { intros ps. unfold Api.formatDetections. rewrite !map_map.
    split; apply map_ext; reflexivity. }
  split; [reflexivity|].
  split.
  { intros random cw ch onProgress inferred H scale d Hd.
    split; [reflexivity|]. rewrite (Hclass _ _ _ _ _ H d Hd). reflexivity. }
  split; [|eexists; split; reflexivity].
  intros env file onProgress r H.
  destruct (local_result_shape env file onProgress r H)
    as (w & h & inferred & Hload & _ & _ & _ & Hdet & _ & Hrun).
  exists w, h, inferred.
  split; [exact Hload|]. split; [exact Hrun|]. split; [exact Hdet|].
  rewrite Hdet, !map_map. split; apply map_ext_in; intros d Hd; [reflexivity|].
  rewrite (Hclass _ _ _ _ _ Hrun d Hd). reflexivity.
Qed.

End PassThrough.

(** ** The result object *)

Section ResultObject.

Local Open Scope float_scope.
Local Open Scope string_scope.

(** C10: in the result object of every successful run, of either version
    of the pipeline, [pillCount] is the length of [detections]. *)
Theorem pillCount_is_number_of_detections :
  (forall (env : Api.PipelineEnv) (file : File) (onProgress : bool)
          (r : Api.PipelineResult),
      result (Api.processAndDisplayImage env file onProgress) = Returned r ->
      Api.pillCount r = List.length (Api.detections r)) /\
  (forall (env : Local.PipelineEnv) (file : File) (onProgress : bool)
          (r : Local.PipelineResult),
      result (Local.processAndDisplayImage env file onProgress) = Returned r ->
      Local.pillCount r = List.length (Local.detections r)) /\
  (exists r, result (Api.processAndDisplayImage answeringService smallPng true)
             = Returned r /\ Api.pillCount r = 6%nat) /\
  (exists r, result (Local.processAndDisplayImage quarterRandom smallPng true)
             = Returned r /\ Local.pillCount r = 10%nat).
Proof.
  split; [|split; [|split; [eexists; split; reflexivity|eexists; split; reflexivity]]].
  - intros env file onProgress r H.
    destruct (api_result_shape env file onProgress r H) as (w & h & data & Hs).
    apply Hs.
  - intros env file onProgress r H.
    destruct (local_result_shape env file onProgress r H) as (w & h & inferred & Hs).
    apply Hs.
Qed.

End ResultObject.

(** ** The coordinate mappings *)

Section CoordinateMapping.

Local Open Scope R_scope.

Lemma tolerance_constants :
  bpow (-51) = 4 * bpow (-53) /\ bpow (-1073) = 4 * bpow (-1075) /\
  0 < bpow (-53) < 1 /\ 0 < bpow (-1075).
Proof.
  split; [|split; [|split]].
  - change (-51)%Z with (-53 + 1 + 1)%Z. rewrite !bpow_succ. ring.
  - change (-1073)%Z with (-1075 + 1 + 1)%Z. rewrite !bpow_succ. ring.
  - split; [apply bpow_pos|]. change 1 with (bpow 0). apply bpow_lt. lia.
  - apply bpow_pos.
Qed.

(** Dividing by a scale factor in (0, 1] and multiplying back: when the
    quotient is finite, so is the product, and it is within tolerance of
    the number one started from. *)
Lemma div_mul_round_trip (s v : float) :
  (0 <? s)%float = true -> (s <=? 1)%float = true ->
  is_finite (v / s) = true ->
  is_finite (v / s * s) = true /\ closeTo (v / s * s)%float v.
Proof.
  intros Hpos Hle Hfin.
  destruct (positive_at_most_one s Hpos Hle) as (Hsfin & Hs0 & Hs1).
  pose proof (div_error v s Hfin) as Hdiv.
  pose proof (F2R_bounded (v / s)) as Hmax.
  destruct tolerance_constants as (H51 & H1073 & [Hu0 Hu1] & Heta).
  set (S := F2R s) in *. set (Y := F2R (v / s)%float) in *. set (X := F2R v) in *.
  assert (HXS : X / S * S = X) by (field; lra).
  assert (HaA : Rabs (X / S) * S = Rabs X).
  { rewrite <- (Rabs_pos_eq S) at 2 by lra. rewrite <- Rabs_mult, HXS. reflexivity. }
  assert (Hfin2 : is_finite (v / s * s) = true).
  { apply mul_finite; [exact Hfin|exact Hsfin|]. fold Y S.
    rewrite Rabs_mult, (Rabs_pos_eq S) by lra.
    assert (H1024 : bpow 1024 = IZR (2 ^ 53) * bpow 971)
      by (change 1024%Z with (53 + 971)%Z; rewrite bpow_add; reflexivity).
    assert (H971 : bpow 971 = 2 * bpow 970)
      by (change 971%Z with (970 + 1)%Z; apply bpow_succ).
    pose proof (bpow_pos 970) as Hp. pose proof (Rabs_pos Y) as HY.
    rewrite minus_IZR in Hmax.
    assert (Rabs Y * S <= Rabs Y) by nra.
    nra. }
  split; [exact Hfin2|].
  pose proof (mul_error (v / s) s Hfin2) as Hmul. fold Y S in Hmul.
  unfold closeTo, tolerance. fold X. set (Z := F2R (v / s * s)%float) in *.
  rewrite H51, H1073.
  set (u := bpow (-53)) in *. set (eta := bpow (-1075)) in *.
  pose proof (Rabs_pos (X / S)) as HA0. pose proof (Rabs_pos X) as HX0.
  assert (HY : Rabs Y <= Rabs (X / S) + (u * Rabs (X / S) + eta)).
  { replace Y with ((Y - X / S) + X / S) at 1 by ring.
    eapply Rle_trans; [apply Rabs_triang|]. lra. }
  rewrite Rabs_mult, (Rabs_pos_eq S) in Hmul by lra.
  replace (Z - X) with ((Z - Y * S) + (Y - X / S) * S) by (rewrite <- HXS at 2; ring).
  eapply Rle_trans; [apply Rabs_triang|].
  rewrite Rabs_mult, (Rabs_pos_eq S) by lra.
  assert (H1 : Rabs (Y - X / S) * S <= u * Rabs X + eta * S) by nra.
  assert (H2 : Rabs Y * S <= Rabs X + u * Rabs X + eta * S) by nra.
  assert (H3 : u * (Rabs Y * S) <= u * (Rabs X + u * Rabs X + eta * S))
    by (apply Rmult_le_compat_l; lra).
  assert (H6 : eta * S <= eta) by nra.
  assert (H7 : 0 <= u * Rabs X) by (apply Rmult_le_pos; lra).
  assert (H8 : 0 <= eta * S) by (apply Rmult_le_pos; lra).
  assert (H4 : u * (u * Rabs X) <= 1 * (u * Rabs X))
    by (apply Rmult_le_compat_r; lra).
  assert (H5 : u * (eta * S) <= 1 * (eta * S))
    by (apply Rmult_le_compat_r; lra).
  lra.
Qed.

End CoordinateMapping.

Section MappingRoundTrips.

Local Open Scope float_scope.

Lemma finiteBox_fields (d : Detection) :
  finiteBox d = true ->
  is_finite (x d) = true /\ is_finite (y d) = true /\
  is_finite (width d) = true /\ is_finite (height d) = true.
Proof.
  unfold finiteBox, finite. intros H.
  apply andb_prop in H. destruct H as [H Hh].
  apply andb_prop in H. destruct H as [H Hw].
  apply andb_prop in H. destruct H as [Hx Hy]. auto.
Qed.

(** C1 fails as stated: for the scale factor 0.5 and a detection whose
    [x] is the finite number 2^1023, the mapped [x] is 2^1023 / 0.5, which
    is Infinity in binary64, and multiplying it by 0.5 gives Infinity, not
    a number within any tolerance of 2^1023. *)
Lemma scale_round_trip_overflows :
  lt 0 0.5 = true /\ ge 1 0.5 = true /\
  finiteBox farDetection = true /\
  x (Local.scaleDetection 0.5 farDetection) = infinity /\
  x (Local.unscaleDetection 0.5 (Local.scaleDetection 0.5 farDetection)) = infinity /\
  finiteBox (Local.unscaleDetection 0.5 (Local.scaleDetection 0.5 farDetection))
  = false /\
  ~ closeBox (Local.unscaleDetection 0.5 (Local.scaleDetection 0.5 farDetection))
      farDetection.
Proof.
  split; [reflexivity|]. split; [reflexivity|]. split; [reflexivity|].
  split; [reflexivity|]. split; [reflexivity|]. split; [reflexivity|].
  intros [Hx _]. unfold closeTo, tolerance in Hx.
  change (x (Local.unscaleDetection 0.5 (Local.scaleDetection 0.5 farDetection)))
    with infinity in Hx.
  change (F2R infinity) with 0%R in Hx.
  assert (HX : F2R (x farDetection) = (IZR (2 ^ 52) * bpow 971)%R).
  { unfold F2R. change (Prim2SF (x farDetection))
      with (S754_finite false (Z.to_pos (2 ^ 52)) 971).
    rewrite SF2R_finite. reflexivity. }
  rewrite HX in Hx.
  assert (H52 : (4 <= IZR (2 ^ 52))%R) by (apply IZR_le; apply Z.leb_le; reflexivity).
  assert (H971 : (1 <= bpow 971)%R).
  { change 1%R with (bpow 0). apply bpow_le. lia. }
  assert (H51 : (bpow (-51) < / 2)%R).
  { change (/ 2)%R with (bpow (-1)). apply bpow_lt. lia. }
  assert (H1073 : (bpow (-1073) < 1)%R).
  { change 1%R with (bpow 0). apply bpow_lt. lia. }
  pose proof (bpow_pos (-51)) as H51p.
  generalize dependent (IZR (2 ^ 52)). intros M HX Hx H52.
  generalize dependent (bpow 971). intros B HX Hx H971.
  assert (HMB : (4 <= M * B)%R) by nra.
  rewrite Rminus_0_l, Rabs_Ropp, Rabs_pos_eq in Hx by lra.
  nra.
Qed.

(** C1, as the code has it: the mapping from inference space to original
    space divides each spatial field by the scale factor; for every scale
    factor s with 0 < s <= 1 and every detection whose mapped fields are
    finite numbers (no quotient overflows), multiplying the mapped fields by
    s gives finite numbers within floating-point tolerance of the original
    fields (a relative 2^-51, plus 2^-1073 in the subnormal range); and for
    s = 1 the mapping returns every spatial field, and the confidence, bit
    for bit. *)
Theorem scale_round_trip_within_tolerance (s : number) (d : Detection) :
  lt 0 s = true -> ge 1 s = true ->
  finiteBox (Local.scaleDetection s d) = true ->
  (x (Local.scaleDetection s d) = x d / s /\
   y (Local.scaleDetection s d) = y d / s /\
   width (Local.scaleDetection s d) = width d / s /\
   height (Local.scaleDetection s d) = height d / s) /\
  finiteBox (Local.unscaleDetection s (Local.scaleDetection s d)) = true /\
  closeBox (Local.unscaleDetection s (Local.scaleDetection s d)) d /\
  (forall d' : Detection,
      x (Local.scaleDetection 1 d') = x d' /\
      y (Local.scaleDetection 1 d') = y d' /\
      width (Local.scaleDetection 1 d') = width d' /\
      height (Local.scaleDetection 1 d') = height d' /\
      confidence (Local.scaleDetection 1 d') = confidence d').
Proof.
  unfold lt, ge. intros Hpos Hle Hfin.
  apply finiteBox_fields in Hfin. simpl in Hfin.
  destruct Hfin as (Hx & Hy & Hw & Hh).
  destruct (div_mul_round_trip s (x d) Hpos Hle Hx) as [Fx Cx].
  destruct (div_mul_round_trip s (y d) Hpos Hle Hy) as [Fy Cy].
  destruct (div_mul_round_trip s (width d) Hpos Hle Hw) as [Fw Cw].
  destruct (div_mul_round_trip s (height d) Hpos Hle Hh) as [Fh Ch].
  split; [repeat split|]. split; [|split].
  - unfold finiteBox, finite. simpl. rewrite Fx, Fy, Fw, Fh. reflexivity.
  - unfold closeBox. simpl. auto.
  - intros d'. simpl. rewrite !div_one. repeat split.
Qed.

Lemma scale_round_trip_witness :
  (x (Local.scaleDetection scaleOf3024x4032 inferredDetection)
   = x inferredDetection / scaleOf3024x4032 /\
   y (Local.scaleDetection scaleOf3024x4032 inferredDetection)
   = y inferredDetection / scaleOf3024x4032 /\
   width (Local.scaleDetection scaleOf3024x4032 inferredDetection)
   = width inferredDetection / scaleOf3024x4032 /\
   height (Local.scaleDetection scaleOf3024x4032 inferredDetection)
   = height inferredDetection / scaleOf3024x4032) /\
  finiteBox (Local.unscaleDetection scaleOf3024x4032
               (Local.scaleDetection scaleOf3024x4032 inferredDetection)) = true /\
  closeBox (Local.unscaleDetection scaleOf3024x4032
              (Local.scaleDetection scaleOf3024x4032 inferredDetection))
    inferredDetection /\
  (forall d' : Detection,
      x (Local.scaleDetection 1 d') = x d' /\
      y (Local.scaleDetection 1 d') = y d' /\
      width (Local.scaleDetection 1 d') = width d' /\
      height (Local.scaleDetection 1 d') = height d' /\
      confidence (Local.scaleDetection 1 d') = confidence d').
Proof.
  apply (scale_round_trip_within_tolerance scaleOf3024x4032 inferredDetection).
  - vm_compute. reflexivity.
  - vm_compute. reflexivity.
  - vm_compute. reflexivity.
Defined.

(** Subtracting half a size from a centre coordinate and adding it back. *)
Lemma sub_add_round_trip (c h : float) :
  is_finite (c - h) = true -> is_finite (c - h + h) = true ->
  closeCenter (c - h + h) c h.
Proof.
  intros Hsub Hadd. unfold closeCenter.
  pose proof (sub_error c h Hsub) as H1.
  pose proof (add_error (c - h) h Hadd) as H2.
  destruct tolerance_constants as (H51 & _ & [Hu0 Hu1] & _).
  rewrite H51.
  set (C := F2R c) in *. set (H := F2R h) in *.
  set (T := F2R (c - h)) in *. set (B := F2R (c - h + h)) in *.
  set (u := bpow (-53)) in *.
  assert (HCH : (Rabs (C - H) <= Rabs C + Rabs H)%R).
  { unfold Rminus. eapply Rle_trans; [apply Rabs_triang|]. rewrite Rabs_Ropp. lra. }
  assert (HTH : (Rabs (T + H) <= Rabs C + u * Rabs (C - H))%R).
  { replace (T + H)%R with (C + (T - (C - H)))%R by ring.
    eapply Rle_trans; [apply Rabs_triang|]. lra. }
  replace (B - C)%R with ((B - (T + H)) + (T - (C - H)))%R by ring.
  eapply Rle_trans; [apply Rabs_triang|].
  pose proof (Rabs_pos C) as HC0. pose proof (Rabs_pos H) as HH0.
  pose proof (Rabs_pos (C - H)) as HCH0.
  assert (H3 : (u * Rabs (T + H) <= u * (Rabs C + u * Rabs (C - H)))%R)
    by (apply Rmult_le_compat_l; lra).
  assert (H4 : (u * (u * Rabs (C - H)) <= 1 * (u * Rabs (C - H)))%R).
  { apply Rmult_le_compat_r; [apply Rmult_le_pos; lra|lra]. }
  assert (H5 : (u * Rabs (C - H) <= u * (Rabs C + Rabs H))%R)
    by (apply Rmult_le_compat_l; lra).
  assert (H6 : (0 <= u * Rabs H)%R) by (apply Rmult_le_pos; lra).
  assert (H7 : (0 <= u * Rabs C)%R) by (apply Rmult_le_pos; lra).
  lra.
Qed.

(** C2 fails as stated: for the centre (100.3, 60.1) and size 50.7 x 20.3
    the top-left corner is x = 100.3 - 50.7/2, y = 60.1 - 20.3/2 as
    computed in binary64, and adding the half width back gives
    100.29999999999998, not 100.3. *)
Lemma converting_back_misses_center :
  x (Api.toTopLeft fractionalPrediction) = 100.3 - 50.7 / 2 /\
  x fractionalPrediction = 100.3 /\
  fst (centerOf (Api.toTopLeft fractionalPrediction)) = 100.29999999999998 /\
  (fst (centerOf (Api.toTopLeft fractionalPrediction)) =? x fractionalPrediction) = false /\
  centerOf (Api.toTopLeft fractionalPrediction)
  <> (x fractionalPrediction, y fractionalPrediction).
Proof.
  split; [reflexivity|]. split; [reflexivity|]. split; [reflexivity|].
  split; [reflexivity|].
  intros H. apply (f_equal (fun c => fst c =? x fractionalPrediction)) in H.
  vm_compute in H. discriminate.
Qed.

(** C2, as the code has it: the converted box has x = cx - w/2 and
    y = cy - h/2, computed in binary64, with width and height unchanged;
    converting back, x + width/2 and y + height/2, recovers the centre
    within floating-point tolerance, a relative 2^-51 of the magnitudes
    involved, whenever the numbers computed on the way are finite. *)
Theorem top_left_conversion_and_back (p : Detection) :
  finiteBox (Api.toTopLeft p) = true ->
  finite (fst (centerOf (Api.toTopLeft p))) = true ->
  finite (snd (centerOf (Api.toTopLeft p))) = true ->
  x (Api.toTopLeft p) = x p - width p / 2 /\
  y (Api.toTopLeft p) = y p - height p / 2 /\
  width (Api.toTopLeft p) = width p /\
  height (Api.toTopLeft p) = height p /\
  closeCenter (fst (centerOf (Api.toTopLeft p))) (x p) (width p / 2) /\
  closeCenter (snd (centerOf (Api.toTopLeft p))) (y p) (height p / 2).
Proof.
  intros Hbox Hcx Hcy. apply finiteBox_fields in Hbox. simpl in Hbox.
  destruct Hbox as (Hx & Hy & _ & _).
  unfold centerOf, finite in *. simpl in *.
  repeat split; try reflexivity.
  - apply sub_add_round_trip; assumption.
  - apply sub_add_round_trip; assumption.
Qed.

Lemma top_left_conversion_witness :
  x (Api.toTopLeft fractionalPrediction)
  = x fractionalPrediction - width fractionalPrediction / 2 /\
  y (Api.toTopLeft fractionalPrediction)
  = y fractionalPrediction - height fractionalPrediction / 2 /\
  width (Api.toTopLeft fractionalPrediction) = width fractionalPrediction /\
  height (Api.toTopLeft fractionalPrediction) = height fractionalPrediction /\
  closeCenter (fst (centerOf (Api.toTopLeft fractionalPrediction)))
    (x fractionalPrediction) (width fractionalPrediction / 2) /\
  closeCenter (snd (centerOf (Api.toTopLeft fractionalPrediction)))
    (y fractionalPrediction) (height fractionalPrediction / 2).
Proof.
  apply (top_left_conversion_and_back fractionalPrediction).
  - vm_compute. reflexivity.
  - vm_compute. reflexivity.
  - vm_compute. reflexivity.
Defined.

End MappingRoundTrips.

(** ** The annotation renderers *)

Section Rendering.

Import Canvas.

Lemma forEach_returns {St E A} (f : St -> A -> nat -> Eff E St) :
  (forall s a i, exists s', result (f s a i) = Returned s') ->
  forall (l : list A) (i : nat) (s : St),
    exists s', result (forEach f l i s) = Returned s'.
Proof.
  intros Hf. induction l as [|a l IH]; intros i s; simpl.
  - exists s. reflexivity.
  - destruct (Hf s a i) as [s1 H1]. destruct (IH (S i) s1) as [s2 H2].
    exists s2. unfold result, bind in *. rewrite H1. simpl. exact H2.
Qed.

Lemma strokedBoxes_app (l1 l2 : list Paint) :
  strokedBoxes (l1 ++ l2) = strokedBoxes l1 ++ strokedBoxes l2.
Proof. unfold strokedBoxes. apply flat_map_app. Qed.

Lemma forEach_strokedBoxes {St} (f : St -> Detection -> nat -> Eff Paint St) :
  (forall s d i, exists s', result (f s d i) = Returned s') ->
  (forall s d i, strokedBoxes (events (f s d i)) = [boxOf d]) ->
  forall (l : list Detection) (i : nat) (s : St),
    strokedBoxes (events (forEach f l i s)) = map boxOf l.
Proof.
  intros Hret Hbox. induction l as [|d l IH]; intros i s; simpl.
  - reflexivity.
  - destruct (Hret s d i) as [s1 H1].
    rewrite (events_bind_returned _ _ s1 H1), strokedBoxes_app, Hbox, IH.
    reflexivity.
Qed.

Lemma renderer_drawDetection_returns (ctx : Context) (d : Detection) (i : nat) :
  exists ctx', result (Renderer.drawDetection ctx d i) = Returned ctx'.
Proof.
  unfold Renderer.drawDetection. destruct (truthy (confidence d));
    eexists; reflexivity.
Qed.

Lemma renderer_drawDetection_box (ctx : Context) (d : Detection) (i : nat) :
  strokedBoxes (events (Renderer.drawDetection ctx d i)) = [boxOf d].
Proof.
  unfold Renderer.drawDetection. destruct (truthy (confidence d)); reflexivity.
Qed.

Lemma display_drawDetection_returns (measureText : string -> Text -> number)
    (ctx : Context) (d : Detection) (i : nat) :
  exists ctx', result (ResultsDisplay.drawDetection measureText ctx d i) = Returned ctx'.
Proof.
  unfold ResultsDisplay.drawDetection. destruct (truthy (confidence d));
    eexists; reflexivity.
Qed.

Lemma display_drawDetection_box (measureText : string -> Text -> number)
    (ctx : Context) (d : Detection) (i : nat) :
  strokedBoxes (events (ResultsDisplay.drawDetection measureText ctx d i)) = [boxOf d].
Proof.
  unfold ResultsDisplay.drawDetection. destruct (truthy (confidence d)); reflexivity.
Qed.

(** Each detection has its box filled, whatever comes before and after
    it. *)
Lemma forEach_fills {St} (f : St -> Detection -> nat -> Eff Paint St) :
  (forall s d i, exists s', result (f s d i) = Returned s') ->
  (forall s d i, exists c,
      In (FillRect c (x d) (y d) (width d) (height d)) (events (f s d i))) ->
  forall (l : list Detection) (i : nat) (s : St) (d : Detection),
    In d l ->
    exists c,
      In (FillRect c (x d) (y d) (width d) (height d)) (events (forEach f l i s)).
Proof.
  intros Hret Hfill. induction l as [|a l IH]; intros i s d Hd; [destruct Hd|].
  simpl. destruct (Hret s a i) as [s1 H1].
  rewrite (events_bind_returned _ _ s1 H1).
  destruct Hd as [->|Hd].
  - destruct (Hfill s d i) as [c Hc]. exists c. apply in_or_app. left. exact Hc.
  - destruct (IH (S i) s1 d Hd) as [c Hc]. exists c. apply in_or_app. right. exact Hc.
Qed.

Lemma renderer_drawDetection_fills (ctx : Context) (d : Detection) (i : nat) :
  exists c,
    In (FillRect c (x d) (y d) (width d) (height d))
       (events (Renderer.drawDetection ctx d i)).
Proof.
  eexists. unfold Renderer.drawDetection.
  destruct (truthy (confidence d)); left; reflexivity.
Qed.

Lemma display_drawDetection_fills (measureText : string -> Text -> number)
    (ctx : Context) (d : Detection) (i : nat) :
  exists c,
    In (FillRect c (x d) (y d) (width d) (height d))
       (events (ResultsDisplay.drawDetection measureText ctx d i)).
Proof.
  eexists. unfold ResultsDisplay.drawDetection.
  destruct (truthy (confidence d)); left; reflexivity.
Qed.

(** No point of the canvas lies in the fill of a box that is entirely
    outside it. *)
Lemma outside_not_visible (canvasWidth canvasHeight : number) (d : Detection) :
  outside canvasWidth canvasHeight d ->
  forall u v : R,
    ~ visible canvasWidth canvasHeight (x d) (y d) (width d) (height d) u v.
Proof.
  unfold outside, visible, rectangle, onCanvas, between.
  intros Hout u v [(_ & _ & _ & _ & Hu & Hv) [Hcu Hcv]].
  set (X := F2R (x d)) in *. set (W := F2R (width d)) in *.
  set (Y := F2R (y d)) in *. set (H := F2R (height d)) in *.
  pose proof (Rmax_l X (X + W)). pose proof (Rmax_r X (X + W)).
  pose proof (Rmin_l X (X + W)). pose proof (Rmin_r X (X + W)).
  pose proof (Rmax_l Y (Y + H)). pose proof (Rmax_r Y (Y + H)).
  pose proof (Rmin_l Y (Y + H)). pose proof (Rmin_r Y (Y + H)).
  destruct Hout as [Ho|[Ho|[Ho|Ho]]]; destruct Hu as [Hu|Hu]; destruct Hv as [Hv|Hv]; lra.
Qed.

Lemma offCanvas_is_outside (canvasWidth canvasHeight : number) :
  outside canvasWidth canvasHeight offCanvasDetection.
Proof.
  left. unfold offCanvasDetection, F2R. simpl x. simpl width.
  change (Prim2SF (-50)) with (S754_finite true 7036874417766400 (-47)).
  change (Prim2SF 40) with (S754_finite false 5629499534213120 (-47)).
  rewrite !SF2R_finite. unfold signed.
  assert (Hb : bpow (-47) = (/ IZR 140737488355328)%R) by reflexivity.
  rewrite Hb.
  assert (H1 : (IZR 7036874417766400 * / IZR 140737488355328 = 50)%R) by (field_simplify; lra).
  assert (H2 : (IZR 5629499534213120 * / IZR 140737488355328 = 40)%R) by (field_simplify; lra).
  rewrite H1, H2. apply Rmax_lub_lt; lra.
Qed.

(** The value of a small integer written as a number. *)
Lemma F2R_integer (z : Z) :
  (Z.abs z < 2 ^ 53)%Z -> F2R (of_Z z) = IZR z.
Proof. intros Hz. exact (proj2 (of_Z_exact z Hz)). Qed.

(** C8 fails as stated: the box 2 x 2 at (-5, -5) lies entirely outside
    every canvas, above it and to its left, yet what [drawDetections] of
    [ResultsDisplay] paints for it shows: the background of its number
    label is filled from the corner (-5, -5), 28 wide (for a number 16 wide)
    and 40 high, and covers the point (1, 1) of a 100 x 100 canvas. *)
Lemma label_of_an_outside_box_shows :
  outside 100%float 100%float cornerDetection /\
  In (FillRect (set_fillStyle "rgba(255, 0, 0, 0.9)"%string
                  (set_font "bold 28px Arial"%string
                     (set_lineWidth 4%float
                        (set_strokeStyle "#FF0000"%string
                           (set_fillStyle "rgba(255, 0, 0, 0.15)"%string initial)))))
        (-5)%float (-5)%float 28%float 40%float)
     (events (ResultsDisplay.drawDetections (fun _ _ => 16%float) initial
                [cornerDetection])) /\
  visible 100%float 100%float (-5)%float (-5)%float 28%float 40%float 1%R 1%R.
Proof.
  assert (H5 : F2R (-5)%float = (-5)%R).
  { change (-5)%float with (of_Z (-5)). apply F2R_integer. reflexivity. }
  assert (H2 : F2R 2%float = 2%R).
  { change 2%float with (of_Z 2). apply F2R_integer. reflexivity. }
  assert (H28 : F2R 28%float = 28%R).
  { change 28%float with (of_Z 28). apply F2R_integer. reflexivity. }
  assert (H40 : F2R 40%float = 40%R).
  { change 40%float with (of_Z 40). apply F2R_integer. reflexivity. }
  assert (H100 : F2R 100%float = 100%R).
  { change 100%float with (of_Z 100). apply F2R_integer. reflexivity. }
  split; [|split].
  - left. unfold cornerDetection. cbn [x width]. rewrite H5, H2.
    apply Rmax_lub_lt; lra.
  - right. right. left. reflexivity.
  - unfold visible, rectangle, onCanvas, between.
    rewrite H5, H28, H40, H100.
    repeat split; try reflexivity; try lra; left; lra.
Qed.

(** C8, as the code has it: for every sequence of detections, whatever
    their coordinates (negative, beyond the image, not even finite), the
    annotation renderers return normally once the image is loaded; every
    box is handed to the canvas as it is, none is skipped, and is filled and
    stroked there; the fill of a box that lies entirely outside the canvas
    rectangle covers no point of the canvas, so nothing of it shows in the
    clipped output. The label of such a box is another matter: it is
    painted from the box's corner rightward and downward, and can show. *)
Theorem renderers_return_and_clip_box_fills :
  (forall (w h : number) (ds : list Detection),
      exists drawn,
        result (Renderer.drawDetectionsOnCanvas (Loaded w h) ds) = Returned drawn /\
        Renderer.canvasWidth drawn = w /\ Renderer.canvasHeight drawn = h /\
        strokedBoxes (events (Renderer.drawDetectionsOnCanvas (Loaded w h) ds))
        = map boxOf ds /\
        forall d,
          In d ds ->
          exists c,
            In (FillRect c (x d) (y d) (width d) (height d))
               (events (Renderer.drawDetectionsOnCanvas (Loaded w h) ds)) /\
            (outside w h d ->
             forall u v : R,
               ~ visible w h (x d) (y d) (width d) (height d) u v)) /\
  (forall (measureText : string -> Text -> number) (ctx : Context)
          (ds : list Detection),
      exists ctx',
        result (ResultsDisplay.drawDetections measureText ctx ds) = Returned ctx' /\
        strokedBoxes (events (ResultsDisplay.drawDetections measureText ctx ds))
        = map boxOf ds /\
        forall d,
          In d ds ->
          exists c,
            In (FillRect c (x d) (y d) (width d) (height d))
               (events (ResultsDisplay.drawDetections measureText ctx ds)) /\
            forall canvasWidth canvasHeight : number,
              outside canvasWidth canvasHeight d ->
              forall u v : R,
                ~ visible canvasWidth canvasHeight
                    (x d) (y d) (width d) (height d) u v) /\
  (forall canvasWidth canvasHeight : number,
      outside canvasWidth canvasHeight offCanvasDetection).
Proof.
  split; [|split].
  - intros w h ds. unfold Renderer.drawDetectionsOnCanvas.
    destruct (forEach_returns Renderer.drawDetection renderer_drawDetection_returns
                ds 0 initial) as [ctx' Hctx].
    exists {| Renderer.canvasWidth := w; Renderer.canvasHeight := h;
              Renderer.context := ctx' |}.
    pose proof (forEach_strokedBoxes Renderer.drawDetection
                  renderer_drawDetection_returns renderer_drawDetection_box
                  ds 0 initial) as Hb.
    pose proof (forEach_fills Renderer.drawDetection
                  renderer_drawDetection_returns renderer_drawDetection_fills
                  ds 0 initial) as Hf.
    unfold result, events, bind, emit, ret in *. simpl. rewrite Hctx. simpl.
    split; [reflexivity|]. split; [reflexivity|]. split; [reflexivity|].
    split; [rewrite app_nil_r; exact Hb|].
    intros d Hd. destruct (Hf d Hd) as [c Hc]. exists c.
    split; [right; rewrite app_nil_r; exact Hc|].
    apply outside_not_visible.
  - intros measureText ctx ds. unfold ResultsDisplay.drawDetections.
    destruct (forEach_returns (ResultsDisplay.drawDetection measureText)
                (display_drawDetection_returns measureText) ds 0 ctx) as [ctx' Hctx].
    exists ctx'. split; [exact Hctx|]. split.
    + apply forEach_strokedBoxes.
      * apply display_drawDetection_returns.
      * apply display_drawDetection_box.
    + intros d Hd.
      destruct (forEach_fills (ResultsDisplay.drawDetection measureText)
                  (display_drawDetection_returns measureText)
                  (display_drawDetection_fills measureText) ds 0 ctx d Hd) as [c Hc].
      exists c. split; [exact Hc|].
      intros cw ch. apply outside_not_visible.
  - exact offCanvas_is_outside.
Qed.

End Rendering.

(** * Further properties of the code *)

(** ** The detection request and the pipeline around it *)

Section DetectionService.

Import Api.
Local Open Scope float_scope.
Local Open Scope string_scope.

(** X1: [callRoboflowAPI] returns the parsed body exactly when [fetch]
    resolves with an [ok] response whose body parses and whose
    [predictions] the debug logging runs through: a field that is missing
    or falsy, or an array of objects with numeric [x], [y], [width] and
    [height]. A rejected [fetch], a response that is not [ok] (whatever
    its status), a body that does not parse, [predictions] that are truthy
    but not an array and an array with an element that is not such an
    object are all rethrown as the one message "Failed to analyze image.
    Please try again.", which [getErrorMessage] shows as "Failed to analyze
    the image. Please try again."; the fraction 1.0 is reported only on
    success, so a body that is returned holds only boxes. *)
Theorem service_failures_share_one_message
    (response : FetchOutcome) (onProgress : bool) :
  result (callRoboflowAPI response onProgress)
  = match response with
    | FetchResponse true _ (Some data) =>
        match predictions data with
        | Absent => Returned data
        | NotAnArray => Thrown "Failed to analyze image. Please try again."
        | Elements preds =>
            if forallb isBox preds then Returned data
            else Thrown "Failed to analyze image. Please try again."
        end
    | _ => Thrown "Failed to analyze image. Please try again."
    end /\
  events (callRoboflowAPI response true)
  = match response with
    | FetchResponse true _ (Some data) =>
        if wellFormed data then [0.3; 0.7; 1.0] else [0.3; 0.7]
    | FetchResponse true _ None => [0.3; 0.7]
    | _ => [0.3]
    end /\
  events (callRoboflowAPI response false) = [] /\
  (forall data preds,
      result (callRoboflowAPI response onProgress) = Returned data ->
      predictions data = Elements preds ->
      preds = map Box (boxes preds)) /\
  getErrorMessage "Failed to analyze image. Please try again."
  = "Failed to analyze the image. Please try again.".
Proof.
  rewrite !callRoboflowAPI_run. unfold result, events. cbn [fst snd].
  split; [|split; [reflexivity|split; [reflexivity|split; [|reflexivity]]]].
  - destruct response as [|[|] status [[[| |preds] img]|]]; reflexivity.
  - intros data preds Hr Hp.
    destruct response as [|[|] status [data'|]]; try discriminate Hr.
    destruct (wellFormed data') eqn:Hwf; try discriminate Hr.
    injection Hr as ->. unfold wellFormed in Hwf. rewrite Hp in Hwf.
    symmetry. apply map_Box_boxes. exact Hwf.
Qed.

(** The outcome of the pipeline, read off the way its three awaited
    steps end. *)
Lemma api_pipeline_result (env : PipelineEnv) (file : File) (onProgress : bool) :
  result (processAndDisplayImage env file onProgress)
  = match imageLoad env with
    | LoadError => Thrown "Failed to load image"
    | LoadTimeout _ => Thrown "Image loading timeout"
    | Loaded w h =>
        match fileToBase64 env with
        | None => Thrown "Failed to read file"
        | Some _ =>
            match response env with
            | FetchResponse true _ (Some data) =>
                if wellFormed data
                then Returned (Build_PipelineResult (objectURL env) w h
                                 (detectionsOf data)
                                 (List.length (detectionsOf data)) (isoNow env))
                else Thrown analyzeFailedMessage
            | _ => Thrown analyzeFailedMessage
            end
        end
    end.
Proof. rewrite api_pipeline_run. reflexivity. Qed.

(** X2: with a progress callback, the pipeline reports 100 percent,
    "Complete!", exactly in the runs that return a result; a run that
    fails stops reporting below 100. Whether a callback is passed makes
    no difference to the outcome. *)
Theorem complete_is_reported_exactly_on_success (env : PipelineEnv) (file : File) :
  (In (100, "Complete!") (events (processAndDisplayImage env file true))
   <-> exists r, result (processAndDisplayImage env file true) = Returned r) /\
  (In 100 (percentages (events (processAndDisplayImage env file true)))
   <-> exists r, result (processAndDisplayImage env file true) = Returned r) /\
  result (processAndDisplayImage env file false)
  = result (processAndDisplayImage env file true).
Proof.
  assert (Hne : forall a : float, PrimFloat.eqb a 100 = false -> a <> 100).
  { intros a Ha ->. vm_compute in Ha. discriminate. }
  assert (H10 : (10 : float) <> 100) by (apply Hne; reflexivity).
  assert (H30 : (30 : float) <> 100) by (apply Hne; reflexivity).
  assert (H50 : (50 : float) <> 100) by (apply Hne; reflexivity).
  assert (H62 : (50 + 0.3 * 40 : float) <> 100) by (apply Hne; reflexivity).
  assert (H78 : (50 + 0.7 * 40 : float) <> 100) by (apply Hne; reflexivity).
  rewrite !api_pipeline_run. unfold result, events, percentages. cbn [fst snd].
  split; [|split; [|reflexivity]].
  - destruct (imageLoad env) as [w h| |later];
      [|split; [intros [H|[]]; discriminate H | intros [r H]; discriminate H]..].
    destruct (fileToBase64 env) as [b|];
      [|split; [intros [H|[H|[]]]; discriminate H | intros [r H]; discriminate H]].
    destruct (response env) as [|[|] status [data|]];
      try (split; [intros [H|[H|[H|[H|[]]]]]; discriminate H
                  | intros [r H]; discriminate H]);
      try (split; [intros [H|[H|[H|[H|[H|[]]]]]]; discriminate H
                  | intros [r H]; discriminate H]).
    destruct (wellFormed data);
      [|split; [intros [H|[H|[H|[H|[H|[]]]]]]; discriminate H
               | intros [r H]; discriminate H]].
    split; [intros _; eexists; reflexivity|].
    intros _. simpl. tauto.
  - destruct (imageLoad env) as [w h| |later];
      [|split; [intros [H|[]]; contradiction | intros [r H]; discriminate H]..].
    destruct (fileToBase64 env) as [b|];
      [|split; [intros [H|[H|[]]]; contradiction | intros [r H]; discriminate H]].
    destruct (response env) as [|[|] status [data|]];
      try (split; [intros [H|[H|[H|[H|[]]]]]; contradiction
                  | intros [r H]; discriminate H]);
      try (split; [intros [H|[H|[H|[H|[H|[]]]]]]; contradiction
                  | intros [r H]; discriminate H]).
    destruct (wellFormed data);
      [|split; [intros [H|[H|[H|[H|[H|[]]]]]]; contradiction
               | intros [r H]; discriminate H]].
    split; [intros _; eexists; reflexivity|].
    intros _. simpl. tauto.
Qed.

(** X3: a response whose body has no [predictions], the field being
    missing or falsy ([null], [false], [0], the empty string), is not an
    error: the run returns a result with no detection and a pill count
    of 0. *)
Theorem missing_predictions_give_an_empty_result
    (env : PipelineEnv) (file : File) (onProgress : bool)
    (w h : number) (base64 : string) (status : Z) (image : option (number * number)) :
  imageLoad env = Loaded w h ->
  fileToBase64 env = Some base64 ->
  response env
  = FetchResponse true status (Some {| predictions := Absent; image := image |}) ->
  result (processAndDisplayImage env file onProgress)
  = Returned (Build_PipelineResult (objectURL env) w h [] 0 (isoNow env)).
Proof.
  intros Hload Hread Hresp.
  rewrite api_pipeline_result, Hload, Hread, Hresp. reflexivity.
Qed.

Lemma missing_predictions_witness :
  result (processAndDisplayImage bareAnswer smallPng true)
  = Returned (Build_PipelineResult (objectURL bareAnswer) 3024 4032 [] 0
                (isoNow bareAnswer)).
Proof.
  apply (missing_predictions_give_an_empty_result bareAnswer smallPng true
           3024 4032 "/9j/4AAQ" 200 None); reflexivity.
Defined.

(** X24: a body whose [predictions] are truthy but not an array (the
    string "none", say), or an array with an element that is not an object
    with numeric [x], [y], [width] and [height], fails the run, although
    the pipeline itself would take the former for no detection: the debug
    logging of [callRoboflowAPI] throws on it. The run stops after the
    report of 78 percent with "Failed to analyze image. Please try
    again.". *)
Theorem malformed_predictions_fail_the_run
    (env : PipelineEnv) (file : File)
    (w h : number) (base64 : string) (status : Z) (data : ApiData) :
  imageLoad env = Loaded w h ->
  fileToBase64 env = Some base64 ->
  response env = FetchResponse true status (Some data) ->
  wellFormed data = false ->
  result (processAndDisplayImage env file true)
  = Thrown "Failed to analyze image. Please try again." /\
  result (processAndDisplayImage env file false)
  = Thrown "Failed to analyze image. Please try again." /\
  events (processAndDisplayImage env file true)
  = [(10, "Loading image..."); (30, "Preparing for analysis...");
     (50, "Detecting pills..."); (62, "Detecting pills...");
     (78, "Detecting pills...")].
Proof.
  intros Hload Hread Hresp Hwf.
  rewrite !api_pipeline_run, Hload, Hread, Hresp, Hwf. repeat split; reflexivity.
Qed.

Lemma malformed_predictions_witness :
  result (processAndDisplayImage textAnswer smallPng true)
  = Thrown "Failed to analyze image. Please try again." /\
  result (processAndDisplayImage textAnswer smallPng false)
  = Thrown "Failed to analyze image. Please try again." /\
  events (processAndDisplayImage textAnswer smallPng true)
  = [(10, "Loading image..."); (30, "Preparing for analysis...");
     (50, "Detecting pills..."); (62, "Detecting pills...");
     (78, "Detecting pills...")].
Proof.
  apply (malformed_predictions_fail_the_run textAnswer smallPng
           3024 4032 "/9j/4AAQ" 200
           {| predictions := NotAnArray; image := None |}); reflexivity.
Defined.

End DetectionService.

(** ** Validation: the object URL *)

Section ValidatorProtocol.

Import Api.
Local Open Scope string_scope.


(** The four ways the validator fails. *)
Lemma validator_messages (env : ValidatorEnv) (file : File) (message : string) :
  result (validateAndCompressImage env file) = Thrown message ->
  In message [tooLargeMessage; loadTimeoutMessage; loadFailedMessage;
              compressFailedMessage].
Proof.
  unfold validateAndCompressImage, onload, onerror, onTimeout, settledThen.
  destruct (size file >? MAX_FILE_SIZE)%Z.
  - intros H. injection H as <-. simpl. tauto.
  - destruct (decode env) as [w h| |later].
    + destruct (targetSize MAX_DIMENSION w h) as [cw ch].
      destruct (toBlob env cw ch "image/jpeg" 0.92%float) as [[bytes len]|];
        intros H; [discriminate H|]. injection H as <-. simpl. tauto.
    + intros H. injection H as <-. simpl. tauto.
    + intros H. injection H as <-. simpl. tauto.
Qed.

End ValidatorProtocol.

(** ** Error messages shown to the user *)

Section ErrorMessages.

Local Open Scope string_scope.

Lemma firstIncluded_in (text : string) (entries : list (string * string))
    (message : string) :
  JSString.firstIncluded text entries = Some message ->
  In message (map snd entries).
Proof.
  induction entries as [|[key m] entries IH]; simpl; [discriminate|].
  destruct (JSString.includes text key).
  - intros H. injection H as <-. left. reflexivity.
  - intros H. right. exact (IH H).
Qed.

Lemma api_getErrorMessage_in (message : string) :
  In (Api.getErrorMessage message)
     (Api.fallbackMessage :: map snd Api.errorMessages).
Proof.
  unfold Api.getErrorMessage.
  destruct (JSString.firstIncluded (JSString.toLowerCase message) Api.errorMessages)
    as [m|] eqn:H.
  - right. exact (firstIncluded_in _ _ _ H).
  - left. reflexivity.
Qed.

Lemma api_getErrorMessage_nonEmpty (message : string) :
  JSString.nonEmpty (Api.getErrorMessage message) = true.
Proof.
  pose proof (api_getErrorMessage_in message) as H. cbn [In map snd Api.errorMessages] in H.
  repeat (destruct H as [H|H]; [rewrite <- H; reflexivity|]). destruct H.
Qed.


(** The [try] block of the handler fails as its validation fails, else
    as the pipeline fails. *)
Lemma handler_result (venv : Api.ValidatorEnv) (penv : Api.PipelineEnv) (file : File) :
  result (App.handleImageCapture venv penv file)
  = match result (Api.validateAndCompressImage venv file) with
    | Returned validated => result (Api.processAndDisplayImage penv validated true)
    | Thrown message => Thrown message
    end.
Proof.
  unfold App.handleImageCapture.
  generalize (Api.processAndDisplayImage penv) as pipeline.
  generalize (Api.validateAndCompressImage venv file) as v.
  intros [vev [validated|message]] pipeline; [|reflexivity].
  destruct (pipeline validated true) as [pev pr] eqn:Hp.
  unfold result, bind, forward, emit, ret. simpl. rewrite Hp.
  destruct pr; reflexivity.
Qed.

Lemma pipeline_messages (env : Api.PipelineEnv) (file : File) (onProgress : bool)
    (message : string) :
  result (Api.processAndDisplayImage env file onProgress) = Thrown message ->
  In message ["Failed to load image"; "Image loading timeout";
              "Failed to read file"; Api.analyzeFailedMessage].
Proof.
  rewrite api_pipeline_result.
  destruct (Api.imageLoad env) as [w h| |];
    [|intros H; injection H as <-; simpl; tauto..].
  destruct (Api.fileToBase64 env) as [b|];
    [|intros H; injection H as <-; simpl; tauto].
  destruct (Api.response env) as [|[|] status [data|]];
    try destruct (wellFormed data);
    intros H; try discriminate H; injection H as <-; simpl; tauto.
Qed.

(** X6: the errors [handleImageCapture] can catch, each with the
    sentence [getErrorMessage] turns it into. The validator's "Image
    loading timed out" does not contain the key "timeout" and gets the
    fallback sentence, as do "Failed to compress image" and "Failed to read
    file"; the sentences for "out of memory" and "api request failed" are
    never shown, no error of the pipeline containing these keys. *)
Theorem capture_errors_and_the_messages_shown
    (venv : Api.ValidatorEnv) (penv : Api.PipelineEnv) (file : File)
    (message : string) :
  result (App.handleImageCapture venv penv file) = Thrown message ->
  In (message, Api.getErrorMessage message)
     [ ("Image file is too large. Please try a closer photo or reduce image quality in camera settings.",
        "Image file is too large. Try taking a photo from a closer distance or reduce camera quality settings.");
       ("Image loading timed out. Please try a smaller image.",
        "An error occurred while processing the image. Please try again.");
       ("Failed to load image. Please try again.",
        "Could not load the image. Please try again.");
       ("Failed to compress image",
        "An error occurred while processing the image. Please try again.");
       ("Failed to load image",
        "Could not load the image. Please try again.");
       ("Image loading timeout",
        "Processing took too long. Please try again with a clearer photo.");
       ("Failed to read file",
        "An error occurred while processing the image. Please try again.");
       ("Failed to analyze image. Please try again.",
        "Failed to analyze the image. Please try again.") ].
Proof.
  rewrite handler_result.
  destruct (result (Api.validateAndCompressImage venv file)) as [validated|m] eqn:Hv.
  - intros H. apply pipeline_messages in H. cbn [In] in H.
    repeat (destruct H as [H|H]; [rewrite <- H; vm_compute; tauto|]). destruct H.
  - intros H. injection H as ->. apply validator_messages in Hv. cbn [In] in Hv.
    repeat (destruct Hv as [Hv|Hv]; [rewrite <- Hv; vm_compute; tauto|]). destruct Hv.
Qed.

Lemma capture_errors_witness :
  In ("Image loading timed out. Please try a smaller image.",
      Api.getErrorMessage "Image loading timed out. Please try a smaller image.")
     [ ("Image file is too large. Please try a closer photo or reduce image quality in camera settings.",
        "Image file is too large. Try taking a photo from a closer distance or reduce camera quality settings.");
       ("Image loading timed out. Please try a smaller image.",
        "An error occurred while processing the image. Please try again.");
       ("Failed to load image. Please try again.",
        "Could not load the image. Please try again.");
       ("Failed to compress image",
        "An error occurred while processing the image. Please try again.");
       ("Failed to load image",
        "Could not load the image. Please try again.");
       ("Image loading timeout",
        "Processing took too long. Please try again with a clearer photo.");
       ("Failed to read file",
        "An error occurred while processing the image. Please try again.");
       ("Failed to analyze image. Please try again.",
        "Failed to analyze the image. Please try again.") ].
Proof.
  apply (capture_errors_and_the_messages_shown neverDecodes unavailableService smallPng).
  reflexivity.
Defined.

End ErrorMessages.

(** ** The component state *)

Section ComponentState.

Import App.
Local Open Scope float_scope.
Local Open Scope string_scope.

(** X7: once [handleImageCapture] has settled, from a state without
    results (the capture screen), the loading overlay is gone and exactly
    one of two things is on screen: the results screen with the result of
    the pipeline, or the capture screen with the error box showing the
    sentence [getErrorMessage] gives for the error caught. *)
Theorem capture_settles_with_results_or_error
    (venv : Api.ValidatorEnv) (penv : Api.PipelineEnv) (file : File) (s : State) :
  results s = None ->
  isLoading (afterImageCapture venv penv (Some file) s) = false /\
  ((exists r,
       result (handleImageCapture venv penv file) = Returned r /\
       error (afterImageCapture venv penv (Some file) s) = None /\
       render (afterImageCapture venv penv (Some file) s) = ResultsScreen r)
   \/
   (exists message,
       result (handleImageCapture venv penv file) = Thrown message /\
       results (afterImageCapture venv penv (Some file) s) = None /\
       render (afterImageCapture venv penv (Some file) s)
       = CaptureScreen (Some (Api.getErrorMessage message)) None)).
Proof.
  intros Hs. unfold afterImageCapture.
  destruct (result (handleImageCapture venv penv file)) as [r|message].
  - split; [reflexivity|]. left. exists r. repeat split; reflexivity.
  - split; [reflexivity|]. right. exists message.
    split; [reflexivity|]. split; [exact Hs|].
    unfold render. simpl. rewrite Hs, api_getErrorMessage_nonEmpty. reflexivity.
Qed.

Lemma capture_settles_witness :
  isLoading (afterImageCapture neverDecodes unavailableService (Some smallPng)
               initialState) = false /\
  ((exists r,
       result (handleImageCapture neverDecodes unavailableService smallPng)
       = Returned r /\
       error (afterImageCapture neverDecodes unavailableService (Some smallPng)
                initialState) = None /\
       render (afterImageCapture neverDecodes unavailableService (Some smallPng)
                 initialState) = ResultsScreen r)
   \/
   (exists message,
       result (handleImageCapture neverDecodes unavailableService smallPng)
       = Thrown message /\
       results (afterImageCapture neverDecodes unavailableService (Some smallPng)
                  initialState) = None /\
       render (afterImageCapture neverDecodes unavailableService (Some smallPng)
                 initialState)
       = CaptureScreen (Some (Api.getErrorMessage message)) None)).
Proof.
  apply (capture_settles_with_results_or_error neverDecodes unavailableService
           smallPng initialState).
  reflexivity.
Defined.

(** X8: "Take Another Photo" undoes a capture: after any capture that
    has settled, [handleRetake] leaves the component in its initial state
    (no results, no error, progress 0 with an empty message, not loading),
    and when the capture had produced a result it revokes that result's
    object URL, the one the pipeline created for the original image. *)
Theorem retake_restores_the_initial_state
    (venv : Api.ValidatorEnv) (penv : Api.PipelineEnv) (file : File) (s : State) :
  snd (handleRetake (afterImageCapture venv penv (Some file) s)) = initialState /\
  (forall r,
      result (handleImageCapture venv penv file) = Returned r ->
      Api.originalImageUrl r = Api.objectURL penv /\
      fst (handleRetake (afterImageCapture venv penv (Some file) s))
      = if JSString.nonEmpty (Api.objectURL penv) then [Api.objectURL penv] else []) /\
  (forall message,
      result (handleImageCapture venv penv file) = Thrown message ->
      results s = None ->
      fst (handleRetake (afterImageCapture venv penv (Some file) s)) = []).
Proof.
  unfold afterImageCapture, handleRetake.
  destruct (result (handleImageCapture venv penv file)) as [r|message] eqn:Hr.
  - split; [reflexivity|]. split; [|intros m H; discriminate H].
    intros r' H. injection H as <-.
    assert (Hurl : Api.originalImageUrl r = Api.objectURL penv).
    { rewrite handler_result in Hr.
      destruct (result (Api.validateAndCompressImage venv file)) as [validated|m];
        [|discriminate Hr].
      rewrite api_pipeline_result in Hr.
      destruct (Api.imageLoad penv) as [w h| |]; try discriminate Hr.
      destruct (Api.fileToBase64 penv) as [b|]; try discriminate Hr.
      destruct (Api.response penv) as [|[|] status [data|]]; try discriminate Hr.
      destruct (wellFormed data); try discriminate Hr.
      injection Hr as <-. reflexivity. }
    split; [exact Hurl|]. simpl. rewrite Hurl. reflexivity.
  - split; [reflexivity|]. split; [intros r H; discriminate H|].
    intros m _ Hs. simpl. rewrite Hs. reflexivity.
Qed.

End ComponentState.

(** ** Annotation labels *)

Section Labels.

Import Canvas.
Local Open Scope float_scope.
Local Open Scope string_scope.

(** What is observed of a [forEach] is what is observed of each call of
    its callback, in order, the callback being told its index. *)
Lemma forEach_observed {St A B} (f : St -> A -> nat -> Eff Paint St)
    (obs : Paint -> list B) (g : nat -> A -> list B) :
  (forall s a i, exists s', result (f s a i) = Returned s') ->
  (forall s a i, flat_map obs (events (f s a i)) = g (S i) a) ->
  forall (l : list A) (i : nat) (s : St),
    flat_map obs (events (forEach f l i s))
    = flat_map (fun p => g (fst p) (snd p)) (combine (seq (S i) (List.length l)) l).
Proof.
  intros Hret Hobs. induction l as [|a l IH]; intros i s; simpl; [reflexivity|].
  destruct (Hret s a i) as [s1 H1].
  rewrite (events_bind_returned _ _ s1 H1), flat_map_app, Hobs, IH. reflexivity.
Qed.

Lemma flat_map_singleton {A B} (f : A -> B) (l : list A) :
  flat_map (fun a => [f a]) l = map f l.
Proof. induction l as [|a l IH]; simpl; [reflexivity|]. rewrite IH. reflexivity. Qed.

Lemma flat_map_snd_combine {A B} (g : A -> list B) (l : list A) (i : nat) :
  flat_map (fun p : nat * A => g (snd p)) (combine (seq i (List.length l)) l)
  = flat_map g l.
Proof.
  revert i. induction l as [|a l IH]; intros i; simpl; [reflexivity|].
  rewrite IH. reflexivity.
Qed.

Lemma flat_map_if {A B} (test : A -> bool) (f : A -> B) (l : list A) :
  flat_map (fun a => if test a then [f a] else []) l = map f (filter test l).
Proof.
  induction l as [|a l IH]; simpl; [reflexivity|].
  destruct (test a); simpl; rewrite IH; reflexivity.
Qed.

Lemma map_fst_numbered {A} (l : list A) :
  map fst (numbered l) = seq 1 (List.length l).
Proof.
  unfold numbered. generalize 1%nat as i.
  induction l as [|a l IH]; intros i; simpl; [reflexivity|].
  rewrite IH. reflexivity.
Qed.

(** What is observed of a whole rendering, for each renderer. *)
Lemma renderer_observed {B} (obs : Paint -> list B) (g : nat -> Detection -> list B) :
  obs DrawImage = [] ->
  (forall s d i, flat_map obs (events (Renderer.drawDetection s d i)) = g (S i) d) ->
  forall (w h : number) (ds : list Detection),
    flat_map obs (events (Renderer.drawDetectionsOnCanvas (Loaded w h) ds))
    = flat_map (fun p => g (fst p) (snd p)) (numbered ds).
Proof.
  intros Himg Hobs w h ds. unfold Renderer.drawDetectionsOnCanvas, numbered.
  destruct (forEach_returns Renderer.drawDetection renderer_drawDetection_returns
              ds 0 initial) as [ctx' Hctx].
  rewrite <- (forEach_observed Renderer.drawDetection obs g
                renderer_drawDetection_returns Hobs ds 0 initial).
  unfold events, result, bind, emit, ret in *. simpl. rewrite Hctx. simpl.
  rewrite app_nil_r, Himg. reflexivity.
Qed.

Lemma display_observed {B} (obs : Paint -> list B) (g : nat -> Detection -> list B)
    (measureText : string -> Text -> number) :
  (forall s d i,
      flat_map obs (events (ResultsDisplay.drawDetection measureText s d i))
      = g (S i) d) ->
  forall (ctx : Context) (ds : list Detection),
    flat_map obs (events (ResultsDisplay.drawDetections measureText ctx ds))
    = flat_map (fun p => g (fst p) (snd p)) (numbered ds).
Proof.
  intros Hobs ctx ds. unfold ResultsDisplay.drawDetections, numbered.
  apply forEach_observed; [apply display_drawDetection_returns | exact Hobs].
Qed.

Lemma renderer_observed_each {B} (obs : Paint -> list B) (g : Detection -> list B) :
  obs DrawImage = [] ->
  (forall s d i, flat_map obs (events (Renderer.drawDetection s d i)) = g d) ->
  forall (w h : number) (ds : list Detection),
    flat_map obs (events (Renderer.drawDetectionsOnCanvas (Loaded w h) ds))
    = flat_map g ds.
Proof.
  intros Himg Hobs w h ds.
  rewrite (renderer_observed obs (fun _ => g) Himg Hobs).
  unfold numbered. apply (flat_map_snd_combine g ds 1).
Qed.

Lemma display_observed_each {B} (obs : Paint -> list B) (g : Detection -> list B)
    (measureText : string -> Text -> number) :
  (forall s d i,
      flat_map obs (events (ResultsDisplay.drawDetection measureText s d i)) = g d) ->
  forall (ctx : Context) (ds : list Detection),
    flat_map obs (events (ResultsDisplay.drawDetections measureText ctx ds))
    = flat_map g ds.
Proof.
  intros Hobs ctx ds.
  rewrite (display_observed obs (fun _ => g) measureText Hobs).
  unfold numbered. apply (flat_map_snd_combine g ds 1).
Qed.

(** X9: both renderers number the pills 1, 2, 3, ... in the order of
    the detections, one number per detection: [drawDetectionsOnCanvas]
    writes the number of a detection at [(x + 8, y + 28)],
    [ResultsDisplay] at [(x + 6, y + 6)], whatever the boxes and the
    confidences are. *)
Theorem pills_are_numbered_in_order :
  (forall (w h : number) (ds : list Detection),
      numberLabels (events (Renderer.drawDetectionsOnCanvas (Loaded w h) ds))
      = map (fun p => (fst p, x (snd p) + 8, y (snd p) + 28)) (numbered ds) /\
      map (fun l => fst (fst l))
        (numberLabels (events (Renderer.drawDetectionsOnCanvas (Loaded w h) ds)))
      = seq 1 (List.length ds)) /\
  (forall (measureText : string -> Text -> number) (ctx : Context)
          (ds : list Detection),
      numberLabels (events (ResultsDisplay.drawDetections measureText ctx ds))
      = map (fun p => (fst p, x (snd p) + 6, y (snd p) + 6)) (numbered ds) /\
      map (fun l => fst (fst l))
        (numberLabels (events (ResultsDisplay.drawDetections measureText ctx ds)))
      = seq 1 (List.length ds)).
Proof.
  assert (Hfst : forall (f : nat * Detection -> nat * number * number) ds,
             (forall p, fst (fst (f p)) = fst p) ->
             map (fun l => fst (fst l)) (map f (numbered ds))
             = seq 1 (List.length ds)).
  { intros f ds Hf. rewrite map_map, <- map_fst_numbered.
    apply map_ext. exact Hf. }
  split.
  - intros w h ds.
    assert (H : numberLabels (events (Renderer.drawDetectionsOnCanvas (Loaded w h) ds))
                = map (fun p => (fst p, x (snd p) + 8, y (snd p) + 28)) (numbered ds)).
    { unfold numberLabels.
      rewrite (renderer_observed _ (fun n d => [(n, x d + 8, y d + 28)])).
      - apply flat_map_singleton.
      - reflexivity.
      - intros s d i. unfold Renderer.drawDetection.
        destruct (truthy (confidence d)); simpl; rewrite Nat.add_1_r; reflexivity. }
    split; [exact H|]. rewrite H. apply Hfst. reflexivity.
  - intros measureText ctx ds.
    assert (H : numberLabels (events (ResultsDisplay.drawDetections measureText ctx ds))
                = map (fun p => (fst p, x (snd p) + 6, y (snd p) + 6)) (numbered ds)).
    { unfold numberLabels.
      rewrite (display_observed _ (fun n d => [(n, x d + 6, y d + 6)])).
      - apply flat_map_singleton.
      - intros s d i. unfold ResultsDisplay.drawDetection.
        destruct (truthy (confidence d)); simpl; rewrite Nat.add_1_r; reflexivity. }
    split; [exact H|]. rewrite H. apply Hfst. reflexivity.
Qed.

(** X10: a confidence percentage is written for exactly the detections
    whose confidence is truthy, in their order: a detection whose
    confidence is 0, -0 or missing (not a number) gets its box and its
    number but no percentage. The percentage is [confidence * 100], placed
    at [(x + 8, y + height - 8)] by [drawDetectionsOnCanvas] and at
    [(x + 4, y + height - 24)] by [ResultsDisplay]. *)
Theorem confidence_is_written_unless_falsy :
  (forall (w h : number) (ds : list Detection),
      percentLabels (events (Renderer.drawDetectionsOnCanvas (Loaded w h) ds))
      = map (fun d => (confidence d * 100, x d + 8, y d + height d - 8))
          (filter (fun d => truthy (confidence d)) ds)) /\
  (forall (measureText : string -> Text -> number) (ctx : Context)
          (ds : list Detection),
      percentLabels (events (ResultsDisplay.drawDetections measureText ctx ds))
      = map (fun d => (confidence d * 100, x d + 4, y d + height d - 24))
          (filter (fun d => truthy (confidence d)) ds)) /\
  truthy 0 = false /\ truthy (-0) = false /\ truthy nan = false.
Proof.
  split; [|split; [|repeat split; reflexivity]].
  - intros w h ds. unfold percentLabels.
    rewrite (renderer_observed_each _
               (fun d =>
                  if truthy (confidence d)
                  then [(confidence d * 100, x d + 8, y d + height d - 8)]
                  else [])).
    + apply flat_map_if.
    + reflexivity.
    + intros s d i. unfold Renderer.drawDetection.
      destruct (truthy (confidence d)); reflexivity.
  - intros measureText ctx ds. unfold percentLabels.
    rewrite (display_observed_each _
               (fun d =>
                  if truthy (confidence d)
                  then [(confidence d * 100, x d + 4, y d + height d - 24)]
                  else [])).
    + apply flat_map_if.
    + intros s d i. unfold ResultsDisplay.drawDetection.
      destruct (truthy (confidence d)); reflexivity.
Qed.

(** X11: the drawing state a detection leaves behind (a white stroke of
    width 4 and the label font, in [drawDetectionsOnCanvas]) never reaches
    the next box: every box is stroked in "#FF0000", with line width 3 by
    [drawDetectionsOnCanvas] and 4 by [ResultsDisplay], whatever state the
    context was in before. *)
Theorem every_box_is_stroked_in_red :
  (forall (w h : number) (ds : list Detection),
      boxStrokes (events (Renderer.drawDetectionsOnCanvas (Loaded w h) ds))
      = map (fun _ => ("#FF0000", 3)) ds) /\
  (forall (measureText : string -> Text -> number) (ctx : Context)
          (ds : list Detection),
      boxStrokes (events (ResultsDisplay.drawDetections measureText ctx ds))
      = map (fun _ => ("#FF0000", 4)) ds) /\
  (forall (w h : number) (d : Detection) (ds : list Detection) (drawn : Renderer.Drawn),
      result (Renderer.drawDetectionsOnCanvas (Loaded w h) (ds ++ [d]))
      = Returned drawn ->
      strokeStyle (Renderer.context drawn) = "#FFFFFF" /\
      lineWidth (Renderer.context drawn) = 4).
Proof.
  split; [|split].
  - intros w h ds. unfold boxStrokes.
    rewrite (renderer_observed_each _ (fun _ : Detection => [("#FF0000", 3)])).
    + apply flat_map_singleton.
    + reflexivity.
    + intros s d i. unfold Renderer.drawDetection.
      destruct (truthy (confidence d)); reflexivity.
  - intros measureText ctx ds. unfold boxStrokes.
    rewrite (display_observed_each _ (fun _ : Detection => [("#FF0000", 4)])).
    + apply flat_map_singleton.
    + intros s d i. unfold ResultsDisplay.drawDetection.
      destruct (truthy (confidence d)); reflexivity.
  - intros w h d ds drawn. unfold Renderer.drawDetectionsOnCanvas.
    assert (Hlast : forall l i s s',
               result (forEach Renderer.drawDetection (l ++ [d]) i s) = Returned s' ->
               strokeStyle s' = "#FFFFFF" /\ lineWidth s' = 4).
    { induction l as [|a l IH]; intros i s s' H.
      - simpl in H. unfold Renderer.drawDetection in H.
        destruct (truthy (confidence d)); vm_compute in H; injection H as <-;
          split; reflexivity.
      - simpl in H.
        destruct (renderer_drawDetection_returns s a i) as [s1 H1].
        unfold result, bind in *. rewrite H1 in H. simpl in H.
        exact (IH _ _ _ H). }
    intros H.
    destruct (forEach_returns Renderer.drawDetection renderer_drawDetection_returns
                (ds ++ [d]) 0 initial) as [ctx' Hctx].
    pose proof (Hlast ds 0%nat initial ctx' Hctx) as Hstyle.
    unfold result, bind, emit, ret in *. simpl in H. rewrite Hctx in H. simpl in H.
    injection H as <-. exact Hstyle.
Qed.

End Labels.

(** ** Strings: the base64 payload and the download name *)

Section Strings.

Import Api.
Local Open Scope string_scope.

Lemma split_without (s : string) :
  without "," s = true -> JSString.split "," s = [s].
Proof.
  induction s as [|c s IH]; simpl; [reflexivity|].
  destruct (Ascii.eqb c ","); simpl; [discriminate|].
  intros H. rewrite (IH H). reflexivity.
Qed.

Lemma split_first_piece (p rest : string) :
  without "," p = true ->
  JSString.split "," (p ++ String "," rest) = p :: JSString.split "," rest.
Proof.
  induction p as [|c p IH]; simpl; [reflexivity|].
  destruct (Ascii.eqb c ","); simpl; [discriminate|].
  intros H. rewrite (IH H). reflexivity.
Qed.

(** X12: of a data URL, that is a prefix without comma, a comma and a
    non-empty payload without comma (base64 text has none), [fileToBase64]
    resolves with the payload alone: the prefix and the comma are
    removed and the payload is not altered. *)
Theorem data_url_prefix_is_removed (E : Type) (prefix payload : string) :
  without "," prefix = true ->
  without "," payload = true ->
  JSString.nonEmpty payload = true ->
  @fileToBase64Of E (ReadLoaded (prefix ++ "," ++ payload))
  = ([], Returned payload).
Proof.
  intros Hp Hq Hne. unfold fileToBase64Of, base64DataOf, ret.
  change ("," ++ payload) with (String "," payload).
  rewrite (split_first_piece prefix payload Hp), (split_without payload Hq).
  simpl. rewrite Hne. reflexivity.
Qed.

Lemma data_url_prefix_witness :
  @fileToBase64Of Progress
    (ReadLoaded ("data:image/jpeg;base64" ++ "," ++ "/9j/4AAQSkZJRg=="))
  = ([], Returned "/9j/4AAQSkZJRg==").
Proof.
  apply (data_url_prefix_is_removed Progress "data:image/jpeg;base64"
           "/9j/4AAQSkZJRg=="); reflexivity.
Defined.

(** X13: the edges of [fileToBase64]. A reader result without comma is
    resolved as it is. So is one with nothing between its first comma and
    the next one or the end: for an empty file the whole data URL, prefix
    included, is resolved, not the empty payload. Of a text with several
    commas only the piece between the first two is kept. A read error
    rejects with "Failed to read file". *)
Theorem reader_results_without_payload_are_kept_whole :
  (forall s, without "," s = true -> base64DataOf s = s) /\
  (forall p, without "," p = true -> base64DataOf (p ++ ",") = p ++ ",") /\
  (forall p rest, without "," p = true ->
      base64DataOf (p ++ ",," ++ rest) = p ++ ",," ++ rest) /\
  (forall p q rest, without "," p = true -> without "," q = true ->
      JSString.nonEmpty q = true ->
      base64DataOf (p ++ "," ++ q ++ "," ++ rest) = q) /\
  base64DataOf "data:application/octet-stream;base64,"
  = "data:application/octet-stream;base64," /\
  base64DataOf "a,b,c" = "b" /\
  (forall E : Type, @fileToBase64Of E ReadFailed = ([], Thrown "Failed to read file")).
Proof.
  split; [|split; [|split; [|split; [|repeat split; reflexivity]]]].
  - intros s Hs. unfold base64DataOf. rewrite (split_without s Hs). reflexivity.
  - intros p Hp. unfold base64DataOf.
    change (p ++ ",") with (p ++ String "," "").
    rewrite (split_first_piece p "" Hp). reflexivity.
  - intros p rest Hp. unfold base64DataOf.
    change (p ++ ",," ++ rest) with (p ++ String "," (String "," rest)).
    rewrite (split_first_piece p _ Hp). reflexivity.
  - intros p q rest Hp Hq Hne. unfold base64DataOf.
    change (p ++ "," ++ q ++ "," ++ rest) with (p ++ String "," (q ++ String "," rest)).
    rewrite (split_first_piece p _ Hp), (split_first_piece q _ Hq).
    simpl. rewrite Hne. reflexivity.
Qed.

Lemma without_app (c : ascii) (a b : string) :
  without c (a ++ b) = without c a && without c b.
Proof.
  induction a as [|c' a IH]; simpl; [reflexivity|].
  rewrite IH. apply andb_assoc.
Qed.

Lemma without_digits (c : ascii) (d : Decimal.uint) :
  (nat_of_ascii c < 48 \/ 57 < nat_of_ascii c)%nat ->
  without c (NilEmpty.string_of_uint d) = true.
Proof.
  intros Hc.
  assert (Hd : forall k, (48 <= k <= 57)%nat ->
               Ascii.eqb (ascii_of_nat k) c = false).
  { intros k Hk. apply Ascii.eqb_neq. intros <-.
    rewrite nat_ascii_embedding in Hc; lia. }
  induction d as [|d IH|d IH|d IH|d IH|d IH|d IH|d IH|d IH|d IH|d IH]; simpl;
    [reflexivity|..]; rewrite IH, andb_true_r; apply negb_true_iff.
  - apply (Hd 48%nat); lia.
  - apply (Hd 49%nat); lia.
  - apply (Hd 50%nat); lia.
  - apply (Hd 51%nat); lia.
  - apply (Hd 52%nat); lia.
  - apply (Hd 53%nat); lia.
  - apply (Hd 54%nat); lia.
  - apply (Hd 55%nat); lia.
  - apply (Hd 56%nat); lia.
  - apply (Hd 57%nat); lia.
Qed.

Lemma without_replaceClass (inClass : ascii -> bool) (c replacement : ascii)
    (s : string) :
  inClass c = true -> Ascii.eqb replacement c = false ->
  without c (JSString.replaceClass inClass replacement s) = true.
Proof.
  intros Hc Hr. induction s as [|c' s IH]; simpl; [reflexivity|].
  rewrite IH, andb_true_r. destruct (inClass c') eqn:Hc'.
  - rewrite Hr. reflexivity.
  - apply negb_true_iff, Ascii.eqb_neq. intros ->. congruence.
Qed.

(** X14: the name [handleDownload] gives the saved image is
    "pill-count-", the count in decimal, "-", the ISO timestamp with every
    ":" and "." turned into "-", and ".jpg": whatever the timestamp, the
    name has no colon, and its only dot is that of the extension. *)
Theorem download_name_has_one_dot_and_no_colon (pillCount : nat) (isoNow : string) :
  exists stem,
    ResultsDisplay.downloadName pillCount isoNow = stem ++ ".jpg" /\
    without ":" stem = true /\ without "." stem = true /\
    without ":" (ResultsDisplay.downloadName pillCount isoNow) = true /\
    String.length stem
    = (12 + String.length (JSString.ofNat pillCount) + String.length isoNow)%nat /\
    ResultsDisplay.downloadName 12 "2024-01-01T00:00:00.000Z"
    = "pill-count-12-2024-01-01T00-00-00-000Z.jpg".
Proof.
  set (timestamp :=
         JSString.replaceClass (fun c => Ascii.eqb c ":" || Ascii.eqb c ".") "-" isoNow).
  exists ("pill-count-" ++ JSString.ofNat pillCount ++ "-" ++ timestamp).
  assert (Hname : ResultsDisplay.downloadName pillCount isoNow
                  = ("pill-count-" ++ JSString.ofNat pillCount ++ "-" ++ timestamp)
                      ++ ".jpg").
  { assert (Hassoc : forall a b c : string, (a ++ b) ++ c = a ++ (b ++ c)).
    { induction a as [|ch a IH]; intros b c; simpl; [reflexivity|].
      rewrite IH. reflexivity. }
    unfold ResultsDisplay.downloadName. fold timestamp.
    rewrite !Hassoc. reflexivity. }
  assert (Hcolon : without ":" ("pill-count-" ++ JSString.ofNat pillCount ++ "-" ++ timestamp)
                   = true).
  { rewrite !without_app. unfold JSString.ofNat.
    rewrite without_digits by (vm_compute; lia).
    unfold timestamp. rewrite without_replaceClass by reflexivity. reflexivity. }
  assert (Hdot : without "." ("pill-count-" ++ JSString.ofNat pillCount ++ "-" ++ timestamp)
                 = true).
  { rewrite !without_app. unfold JSString.ofNat.
    rewrite without_digits by (vm_compute; lia).
    unfold timestamp. rewrite without_replaceClass by reflexivity. reflexivity. }
  split; [exact Hname|]. split; [exact Hcolon|]. split; [exact Hdot|].
  split; [rewrite Hname, without_app, Hcolon; reflexivity|].
  split; [|reflexivity].
  assert (Hlen : forall a b, String.length (a ++ b) = (String.length a + String.length b)%nat).
  { induction a as [|c a IH]; intros b; simpl; [reflexivity|]. rewrite IH. reflexivity. }
  assert (Hrep : String.length timestamp = String.length isoNow).
  { unfold timestamp. clear.
    induction isoNow as [|c t IH]; simpl; [reflexivity|].
    rewrite IH. reflexivity. }
  rewrite !Hlen, Hrep. simpl. lia.
Qed.

End Strings.

(** ** The order of binary64 numbers, integers and [Math.floor]

    What the comparisons, [Math.min] and [Math.floor] of the source do
    to the reals their operands denote. *)

Section Ordering.

Local Open Scope R_scope.

Lemma is_nan_SF (x : float) :
  is_nan x = match Prim2SF x with S754_nan => true | _ => false end.
Proof.
  unfold is_nan. rewrite eqb_spec.
  destruct (Prim2SF x) as [s|s| |s m e]; try (destruct s; reflexivity); try reflexivity.
  unfold SFeqb, SFcompare.
  rewrite Z.compare_refl, Pos.compare_cont_refl. destruct s; reflexivity.
Qed.

Lemma SFcompare_antisym (x y : spec_float) :
  SFcompare y x = option_map CompOpp (SFcompare x y).
Proof.
  destruct x as [sx|sx| |sx mx ex], y as [sy|sy| |sy my ey];
    try reflexivity; try (destruct sx; reflexivity); try (destruct sy; reflexivity);
    try (destruct sx, sy; reflexivity).
  unfold SFcompare, option_map.
  pose proof (Pos.compare_cont_antisym mx my Eq) as Hm.
  change (CompOpp Eq) with Eq in Hm.
  destruct sx, sy; try reflexivity; f_equal;
    rewrite (Z.compare_antisym ex ey);
    destruct (ex ?= ey)%Z; simpl; try reflexivity;
    rewrite <- Hm; destruct (Pos.compare_cont Eq mx my); reflexivity.
Qed.

Lemma SFcompare_refl (x : spec_float) :
  x <> S754_nan -> SFcompare x x = Some Eq.
Proof.
  destruct x as [s|s| |s m e]; intros H; try (destruct s; reflexivity);
    [contradiction|].
  unfold SFcompare. rewrite Z.compare_refl, Pos.compare_cont_refl.
  destruct s; reflexivity.
Qed.

(** Of two canonical significands, the one with the smaller exponent
    denotes the smaller number. *)
Lemma canonical_lt (x y : float) (s1 s2 : bool) (m1 m2 : positive) (e1 e2 : Z) :
  Prim2SF x = S754_finite s1 m1 e1 -> Prim2SF y = S754_finite s2 m2 e2 ->
  (e1 < e2)%Z ->
  IZR (Zpos m1) * bpow e1 < IZR (Zpos m2) * bpow e2.
Proof.
  intros Hx Hy He.
  destruct (valid_finite x _ _ _ Hx) as (Hex & Hdx & _).
  destruct (valid_finite y _ _ _ Hy) as (Hey & Hdy & Hcy).
  destruct Hcy as [Hd2|]; [|lia].
  destruct (digits2_pos_bounds m1) as [_ Hhi1].
  destruct (digits2_pos_bounds m2) as [Hlo2 _]. rewrite Hd2 in Hlo2.
  assert (Hm1 : (Zpos m1 < 2 ^ 53)%Z).
  { assert (2 ^ Zpos (digits2_pos m1) <= 2 ^ 53)%Z by (apply Z.pow_le_mono_r; lia). lia. }
  apply IZR_lt in Hm1. apply IZR_le in Hlo2.
  rewrite <- (bpow_nonneg_IZR 53) in Hm1 by lia.
  change (53 - 1)%Z with 52%Z in Hlo2.
  rewrite <- (bpow_nonneg_IZR 52) in Hlo2 by lia.
  pose proof (bpow_pos e1) as Hb1. pose proof (bpow_pos e2) as Hb2.
  assert (Hle : bpow (53 + e1) <= bpow (52 + e2)) by (apply bpow_le; lia).
  rewrite !bpow_add in Hle.
  assert (IZR (Zpos m1) * bpow e1 < bpow 53 * bpow e1) by nra.
  assert (bpow 52 * bpow e2 <= IZR (Zpos m2) * bpow e2) by nra.
  lra.
Qed.

(** The comparison of two finite numbers is that of the reals they denote. *)
Lemma compare_F2R (x y : float) :
  is_finite x = true -> is_finite y = true ->
  match SFcompare (Prim2SF x) (Prim2SF y) with
  | Some Lt => F2R x < F2R y
  | Some Eq => F2R x = F2R y
  | Some Gt => F2R y < F2R x
  | None => False
  end.
Proof.
  rewrite !is_finite_SF. unfold F2R.
  destruct (Prim2SF x) as [sx|sx| |sx mx ex] eqn:Hx,
           (Prim2SF y) as [sy|sy| |sy my ey] eqn:Hy;
    try discriminate; intros _ _.
  - reflexivity.
  - rewrite SF2R_finite. simpl SF2R at 1.
    assert (0 < IZR (Zpos my)) by (apply IZR_lt; lia).
    pose proof (bpow_pos ey). destruct sy; simpl; nra.
  - rewrite SF2R_finite. simpl SF2R.
    assert (0 < IZR (Zpos mx)) by (apply IZR_lt; lia).
    pose proof (bpow_pos ex). destruct sx; simpl; nra.
  - rewrite !SF2R_finite.
    assert (Hmx : 0 < IZR (Zpos mx)) by (apply IZR_lt; lia).
    assert (Hmy : 0 < IZR (Zpos my)) by (apply IZR_lt; lia).
    pose proof (bpow_pos ex) as Hbx. pose proof (bpow_pos ey) as Hby.
    assert (Hcmp : match (ex ?= ey)%Z with
                   | Lt => IZR (Zpos mx) * bpow ex < IZR (Zpos my) * bpow ey
                   | Gt => IZR (Zpos my) * bpow ey < IZR (Zpos mx) * bpow ex
                   | Eq => match Pos.compare_cont Eq mx my with
                           | Lt => IZR (Zpos mx) * bpow ex < IZR (Zpos my) * bpow ey
                           | Gt => IZR (Zpos my) * bpow ey < IZR (Zpos mx) * bpow ex
                           | Eq => IZR (Zpos mx) * bpow ex = IZR (Zpos my) * bpow ey
                           end
                   end).
    { destruct (Z.compare_spec ex ey) as [He|He|He].
      - subst ey. change (Pos.compare_cont Eq mx my) with (Pos.compare mx my).
        destruct (Pos.compare_spec mx my) as [Hm|Hm|Hm].
        + subst my. reflexivity.
        + assert (IZR (Zpos mx) < IZR (Zpos my)) by (apply IZR_lt; lia). nra.
        + assert (IZR (Zpos my) < IZR (Zpos mx)) by (apply IZR_lt; lia). nra.
      - exact (canonical_lt x y _ _ _ _ _ _ Hx Hy He).
      - exact (canonical_lt y x _ _ _ _ _ _ Hy Hx He). }
    unfold SFcompare.
    destruct sx, sy; simpl signed.
    + destruct (ex ?= ey)%Z; [destruct (Pos.compare_cont Eq mx my); simpl|..]; lra.
    + nra.
    + nra.
    + destruct (ex ?= ey)%Z; [destruct (Pos.compare_cont Eq mx my)|..]; lra.
Qed.

Lemma ltb_F2R (x y : float) :
  is_finite x = true -> is_finite y = true ->
  ((x <? y)%float = true <-> F2R x < F2R y).
Proof.
  intros Hx Hy. pose proof (compare_F2R x y Hx Hy) as H.
  rewrite ltb_spec. unfold SFltb.
  destruct (SFcompare (Prim2SF x) (Prim2SF y)) as [[| |]|];
    split; intros H'; try discriminate; try reflexivity; try lra; contradiction.
Qed.

Lemma leb_F2R (x y : float) :
  is_finite x = true -> is_finite y = true ->
  ((x <=? y)%float = true <-> F2R x <= F2R y).
Proof.
  intros Hx Hy. pose proof (compare_F2R x y Hx Hy) as H.
  rewrite leb_spec. unfold SFleb.
  destruct (SFcompare (Prim2SF x) (Prim2SF y)) as [[| |]|];
    split; intros H'; try discriminate; try reflexivity; try lra; contradiction.
Qed.


(** *** [Math.min] *)

Lemma Math_min2_cases (a b : float) :
  is_nan a = false -> is_nan b = false ->
  Math_min2 a b = a \/ Math_min2 a b = b.
Proof.
  intros Ha Hb. unfold Math_min2. rewrite Ha, Hb. simpl.
  destruct (a <? b)%float; [left; reflexivity|].
  destruct (b <? a)%float; [right; reflexivity|].
  destruct (is_neg_zero a); [left|right]; reflexivity.
Qed.

Lemma Math_min2_le (a b : float) :
  is_nan a = false -> is_nan b = false ->
  (Math_min2 a b <=? a)%float = true /\ (Math_min2 a b <=? b)%float = true.
Proof.
  intros Ha Hb. unfold Math_min2. rewrite Ha, Hb. simpl.
  rewrite is_nan_SF in Ha, Hb.
  assert (Hna : Prim2SF a <> S754_nan) by (intros H; rewrite H in Ha; discriminate).
  assert (Hnb : Prim2SF b <> S754_nan) by (intros H; rewrite H in Hb; discriminate).
  pose proof (SFcompare_refl _ Hna) as Raa. pose proof (SFcompare_refl _ Hnb) as Rbb.
  pose proof (SFcompare_antisym (Prim2SF a) (Prim2SF b)) as Hanti.
  rewrite !ltb_spec. unfold SFltb.
  destruct (SFcompare (Prim2SF a) (Prim2SF b)) as [[| |]|] eqn:Hab;
    simpl in Hanti; rewrite ?Hanti.
  - assert (Hab' : (a <=? b)%float = true) by (rewrite leb_spec; unfold SFleb; rewrite Hab; reflexivity).
    assert (Hba' : (b <=? a)%float = true) by (rewrite leb_spec; unfold SFleb; rewrite Hanti; reflexivity).
    assert (Haa' : (a <=? a)%float = true) by (rewrite leb_spec; unfold SFleb; rewrite Raa; reflexivity).
    assert (Hbb' : (b <=? b)%float = true) by (rewrite leb_spec; unfold SFleb; rewrite Rbb; reflexivity).
    destruct (is_neg_zero a); split; assumption.
  - split; rewrite leb_spec; unfold SFleb; [rewrite Raa|rewrite Hab]; reflexivity.
  - split; rewrite leb_spec; unfold SFleb; [rewrite Hanti|rewrite Rbb]; reflexivity.
  - exfalso. destruct (Prim2SF a) as [sa|sa| |sa ma ea], (Prim2SF b) as [sb|sb| |sb mb eb];
      try discriminate; congruence.
Qed.

(** A number above zero is a positive finite number or [+Infinity]. *)
Lemma ltb_zero_cases (a : float) :
  (0 <? a)%float = true <->
  (Prim2SF a = S754_infinity false \/ exists m e, Prim2SF a = S754_finite false m e).
Proof.
  rewrite ltb_spec. change (Prim2SF 0) with (S754_zero false).
  destruct (Prim2SF a) as [s|s| |s m e]; simpl; split.
  - intros H; discriminate.
  - intros [H|(m & e & H)]; discriminate.
  - destruct s; intros H; [discriminate|left; reflexivity].
  - intros [H|(m & e & H)]; [injection H as ->; reflexivity|discriminate].
  - intros H; discriminate.
  - intros [H|(m & e & H)]; discriminate.
  - destruct s; intros H; [discriminate|right; eauto].
  - intros [H|(m' & e' & H)]; [discriminate|injection H as -> _ _; reflexivity].
Qed.

Lemma ltb_zero_not_nan (a : float) : (0 <? a)%float = true -> is_nan a = false.
Proof.
  intros H. apply ltb_zero_cases in H. rewrite is_nan_SF.
  destruct H as [->|(m & e & ->)]; reflexivity.
Qed.

Lemma ltb_zero_F2R (a : float) :
  is_finite a = true -> ((0 <? a)%float = true <-> 0 < F2R a).
Proof.
  intros Ha. rewrite (ltb_F2R 0 a eq_refl Ha).
  replace (F2R 0) with 0 by reflexivity. tauto.
Qed.

(** A number above zero and at most a finite one is finite. *)
Lemma positive_below_finite (a b : float) :
  (0 <? a)%float = true -> (a <=? b)%float = true -> is_finite b = true ->
  is_finite a = true.
Proof.
  intros Ha Hab Hb. apply ltb_zero_cases in Ha.
  rewrite is_finite_SF in *. rewrite leb_spec in Hab.
  destruct Ha as [Ha|(m & e & Ha)]; rewrite Ha in *; [|reflexivity].
  destruct (Prim2SF b) as [s|s| |s mb eb]; try discriminate.
Qed.


(** *** Quotients of positive numbers *)

Lemma SFdiv_positive (mx my : positive) (ex ey : Z) :
  (SF64div (S754_finite false mx ex) (S754_finite false my ey) = S754_infinity false /\
   bpow 1024 - bpow 970 <= IZR (Zpos mx) * bpow ex / (IZR (Zpos my) * bpow ey)) \/
  SF_is_finite (SF64div (S754_finite false mx ex) (S754_finite false my ey)) = true.
Proof.
  unfold SF64div, SFdiv.
  destruct (SFdiv_core_binary_correct mx my ex ey)
    as (q & e' & l & Heq & Hq & Hin & Hle & Hq0).
  rewrite Heq. simpl xorb.
  destruct (binary_round_aux_correct false q e' l _ Hq Hin (or_intror Hle))
    as (r & Hz & Hr).
  destruct Hz as [[Hinf Hbig]|[Hfin _]]; [left|right; exact Hfin].
  split; [exact Hinf|]. exact (Hbig Hle).
Qed.

(** A quotient of two positive finite numbers is [+Infinity], and then the
    exact quotient is beyond the binary64 range, or it is finite. *)
Lemma div_of_positives (x y : float) :
  is_finite x = true -> is_finite y = true ->
  (0 <? x)%float = true -> (0 <? y)%float = true ->
  (Prim2SF (x / y) = S754_infinity false /\
   bpow 1024 - bpow 970 <= F2R x / F2R y) \/
  is_finite (x / y) = true.
Proof.
  intros Hfx Hfy Hx Hy.
  apply ltb_zero_cases in Hx. apply ltb_zero_cases in Hy.
  rewrite is_finite_SF in *. unfold F2R. rewrite div_spec.
  destruct Hx as [Hx|(mx & ex & Hx)]; rewrite Hx in *; [discriminate|].
  destruct Hy as [Hy|(my & ey & Hy)]; rewrite Hy in *; [discriminate|].
  rewrite !SF2R_finite. simpl signed. apply SFdiv_positive.
Qed.

Lemma bpow_opp_mul (e : Z) : bpow (- e) * bpow e = 1.
Proof. rewrite <- bpow_add. replace (- e + e)%Z with 0%Z by lia. reflexivity. Qed.

Lemma F2R_lt_bpow_1024 (x : float) : Rabs (F2R x) < bpow 1024.
Proof.
  pose proof (F2R_bounded x) as H.
  pose proof (bpow_pos 971) as Hb.
  assert (H53 : IZR (2 ^ 53 - 1) < bpow 53).
  { rewrite (bpow_nonneg_IZR 53) by lia. apply IZR_lt. lia. }
  replace 1024%Z with (53 + 971)%Z by lia. rewrite bpow_add. nra.
Qed.

(** Dividing a number that is at least 1 by a positive finite number
    never gives zero: the quotient is above zero. *)
Lemma quotient_above_zero (c w : float) :
  is_finite c = true -> is_finite w = true ->
  1 <= F2R c -> (0 <? w)%float = true ->
  (0 <? c / w)%float = true.
Proof.
  intros Hfc Hfw Hc Hw.
  assert (Hc0 : (0 <? c)%float = true) by (apply ltb_zero_F2R; [assumption|lra]).
  destruct (div_of_positives c w Hfc Hfw Hc0 Hw) as [[Hinf _]|Hfin].
  - apply ltb_zero_cases. left. exact Hinf.
  - apply ltb_zero_F2R; [exact Hfin|].
    pose proof (div_error c w Hfin) as Herr.
    apply (ltb_zero_F2R w Hfw) in Hw.
    pose proof (F2R_lt_bpow_1024 w) as HW. rewrite Rabs_pos_eq in HW by lra.
    set (q := F2R c / F2R w) in *.
    assert (Hq : bpow (-1024) < q).
    { pose proof (bpow_opp_mul 1024) as H1. simpl Z.opp in H1.
      pose proof (bpow_pos (-1024)) as Hb.
      assert (HqW : q * F2R w = F2R c) by (unfold q; field; lra).
      destruct (Rlt_le_dec (bpow (-1024)) q) as [Hlt|Hge]; [exact Hlt|].
      exfalso.
      assert (q * F2R w <= bpow (-1024) * F2R w) by (apply Rmult_le_compat_r; lra).
      assert (bpow (-1024) * F2R w < bpow (-1024) * bpow 1024)
        by (apply Rmult_lt_compat_l; lra).
      lra. }
    pose proof (bpow_pos (-1024)) as Hb.
    rewrite (Rabs_pos_eq q) in Herr by lra.
    apply Rabs_le_inv in Herr.
    assert (H53 : bpow (-53) <= / 2).
    { change (bpow (-53)) with (/ IZR (Z.pow_pos 2 53)).
      apply Rinv_le_contravar; [lra|]. apply IZR_le. apply Z.leb_le. reflexivity. }
    assert (H1075 : bpow (-1075) < bpow (-1025)) by (apply bpow_lt; lia).
    assert (H1025 : bpow (-1024) = 2 * bpow (-1025)).
    { change (-1024)%Z with (-1025 + 1)%Z. apply bpow_succ. }
    pose proof (bpow_pos (-53)). pose proof (bpow_pos (-1025)).
    assert (bpow (-53) * q <= / 2 * q) by (apply Rmult_le_compat_r; lra).
    lra.
Qed.

(** *** The smallest steps of binary64 *)

Lemma F2R_not_slightly_negative (x : float) :
  - bpow (-1074) < F2R x -> 0 <= F2R x.
Proof.
  unfold F2R. destruct (Prim2SF x) as [s|s| |s m e] eqn:Hx;
    try (simpl SF2R; lra).
  intros H. destruct (valid_finite x _ _ _ Hx) as ([He _] & _ & _).
  pose proof (bpow_le _ _ He) as Hb. pose proof (bpow_pos (-1074)).
  assert (Hm : 1 <= IZR (Zpos m)) by (apply IZR_le; lia).
  rewrite SF2R_finite in *. destruct s; simpl signed in *; nra.
Qed.


(** *** [Math.floor] *)

(** [Math.floor] of a finite number is the greatest integer not above it. *)
Lemma Math_floor_spec (v : float) :
  is_finite v = true ->
  is_finite (Math_floor v) = true /\
  exists n : Z, F2R (Math_floor v) = IZR n /\ IZR n <= F2R v < IZR n + 1.
Proof.
  intros Hfin. unfold Math_floor, floorZ.
  pose proof Hfin as Hfin'. rewrite is_finite_SF in Hfin'. unfold F2R at 2 3.
  destruct (Prim2SF v) as [s|s| |s m e] eqn:Hv; try discriminate.
  - split; [exact Hfin|]. exists 0%Z. unfold F2R. rewrite Hv. simpl. lra.
  - destruct (Z.leb_spec 0 e) as [He|He].
    + split; [exact Hfin|].
      exists (cond_Zopp s (Zpos m) * 2 ^ e)%Z.
      unfold F2R. rewrite Hv. unfold SF2R.
      rewrite (bpow_nonneg_IZR e He), <- mult_IZR. lra.
    + destruct (valid_finite v _ _ _ Hv) as (_ & Hd & _).
      destruct (digits2_pos_bounds m) as [_ Hhi].
      assert (Hm : (Zpos m < 2 ^ 53)%Z).
      { assert (2 ^ Zpos (digits2_pos m) <= 2 ^ 53)%Z by (apply Z.pow_le_mono_r; lia). lia. }
      set (z := cond_Zopp s (Zpos m)).
      assert (Hz : (Z.abs z < 2 ^ 53)%Z) by (unfold z; destruct s; simpl; lia).
      set (k := (- e)%Z).
      assert (Hk : (0 < k)%Z) by (unfold k; lia).
      assert (Hp : (0 < 2 ^ k)%Z) by (apply Z.pow_pos_nonneg; lia).
      rewrite Z.shiftr_div_pow2 by lia.
      assert (Hn : (Z.abs (z / 2 ^ k) < 2 ^ 53)%Z).
      { assert (- 2 ^ 53 < z / 2 ^ k)%Z.
        { apply Z.lt_le_trans with (- 2 ^ 53 + 1)%Z; [lia|].
          apply Z.div_le_lower_bound; [lia|].
          assert (1 <= 2 ^ k)%Z by lia. nia. }
        assert (z / 2 ^ k < 2 ^ 53)%Z.
        { apply Z.div_lt_upper_bound; [lia|]. nia. }
        lia. }
      destruct (of_Z_exact (z / 2 ^ k) Hn) as [Hf Hval].
      split; [exact Hf|]. exists (z / 2 ^ k)%Z. split; [exact Hval|].
      unfold SF2R. fold z.
      assert (Hbk : bpow e * IZR (2 ^ k) = 1).
      { rewrite <- (bpow_nonneg_IZR k) by lia. unfold k. rewrite Rmult_comm.
        apply bpow_opp_mul. }
      assert (H2k : 0 < IZR (2 ^ k)) by (apply IZR_lt; lia).
      pose proof (bpow_pos e) as Hbe.
      pose proof (Z.mul_div_le z (2 ^ k) Hp) as Hlo.
      pose proof (Z.mul_succ_div_gt z (2 ^ k) Hp) as Hhi2.
      apply IZR_le in Hlo. apply IZR_lt in Hhi2.
      rewrite mult_IZR in Hlo, Hhi2. unfold Z.succ in Hhi2. rewrite plus_IZR in Hhi2.
      set (n := IZR (z / 2 ^ k)) in *. set (P := IZR (2 ^ k)) in *.
      set (Zr := IZR z) in *. set (b := bpow e) in *.
      assert (Hzb : Zr * b = Zr * b * (b * P)) by (rewrite Hbk; ring).
      split.
      * assert (P * n * b <= Zr * b) by (apply Rmult_le_compat_r; lra).
        replace (P * n * b) with (n * (b * P)) in H by ring. rewrite Hbk in H. lra.
      * assert (Zr * b < P * (n + 1) * b) by (apply Rmult_lt_compat_r; lra).
        replace (P * (n + 1) * b) with ((n + 1) * (b * P)) in H by ring.
        rewrite Hbk in H. lra.
Qed.


(** *** A dimension times its scale factor *)

Lemma bpow_m3 : bpow (-3) = / 8.
Proof. reflexivity. Qed.

(** [c] is the limit, an integer [C]; [d] is a dimension of the image and
    [s] a scale factor that is at most [c / d] (when that quotient is
    finite) and at most 2: then [Math.floor(d * s)] is an integer between
    0 and [C]. *)
Lemma scaled_floor_within (c d s : float) (C : Z) :
  (1 <= C <= 2 ^ 20)%Z -> is_finite c = true -> F2R c = IZR C ->
  is_finite d = true -> (0 <? d)%float = true ->
  is_finite s = true -> 0 < F2R s <= 2 ->
  (is_finite (c / d) = true -> F2R s <= F2R (c / d)) ->
  is_finite (Math_floor (d * s)%float) = true /\
  exists n : Z, F2R (Math_floor (d * s)%float) = IZR n /\ (0 <= n <= C)%Z.
Proof.
  intros HC Hfc Hc Hfd Hd Hfs Hs Hsa.
  pose proof Hd as Hd'. apply (ltb_zero_F2R d Hfd) in Hd'.
  pose proof (F2R_lt_bpow_1024 d) as HD. rewrite Rabs_pos_eq in HD by lra.
  assert (HC1 : 1 <= IZR C) by (apply IZR_le; lia).
  assert (HC20 : IZR C <= bpow 20).
  { rewrite (bpow_nonneg_IZR 20) by lia. apply IZR_le. lia. }
  pose proof (bpow_pos (-53)) as H53. pose proof (bpow_pos (-1075)) as H1075.
  assert (Hc0 : (0 <? c)%float = true) by (apply ltb_zero_F2R; [assumption|lra]).
  assert (H33 : bpow (-53) * bpow 20 <= / 8).
  { rewrite <- bpow_add, <- bpow_m3. apply bpow_le. lia. }
  assert (H51 : bpow 1024 * bpow (-1075) <= / 8).
  { rewrite <- bpow_add, <- bpow_m3. apply bpow_le. lia. }
  set (D := F2R d) in *. set (S := F2R s) in *.
  (* the exact product is at most C + 1/4 *)
  assert (Hp : D * S <= IZR C + / 4).
  { destruct (div_of_positives c d Hfc Hfd Hc0 Hd) as [[_ Hbig]|Hfin].
    - rewrite Hc in Hbig. fold D in Hbig.
      assert (Hb : bpow 3 <= bpow 1024 - bpow 970).
      { assert (bpow 970 + bpow 970 <= bpow 1024).
        { replace (bpow 970 + bpow 970) with (2 * bpow 970) by ring.
          rewrite <- bpow_succ. apply bpow_le. lia. }
        assert (bpow 3 <= bpow 970) by (apply bpow_le; lia). lra. }
      assert (Hb3 : bpow 3 = 8) by reflexivity.
      assert (Hq : IZR C / D * D = IZR C) by (field; lra).
      assert (8 * D <= IZR C).
      { rewrite <- Hq. apply Rmult_le_compat_r; lra. }
      assert (D * S <= D * 2) by (apply Rmult_le_compat_l; lra).
      lra.
    - specialize (Hsa Hfin). pose proof (div_error c d Hfin) as Herr.
      rewrite Hc in Herr. fold D in Herr.
      set (q := IZR C / D) in *.
      assert (Hq0 : 0 < q) by (unfold q; apply Rdiv_lt_0_compat; lra).
      rewrite (Rabs_pos_eq q) in Herr by lra.
      apply Rabs_le_inv in Herr.
      assert (HqD : D * q = IZR C) by (unfold q; field; lra).
      assert (H1 : D * S <= D * (q + bpow (-53) * q + bpow (-1075))).
      { apply Rmult_le_compat_l; lra. }
      assert (H2 : D * bpow (-1075) <= bpow 1024 * bpow (-1075)).
      { apply Rmult_le_compat_r; lra. }
      assert (H3 : bpow (-53) * IZR C <= bpow (-53) * bpow 20).
      { apply Rmult_le_compat_l; lra. }
      replace (D * (q + bpow (-53) * q + bpow (-1075)))
        with (D * q + bpow (-53) * (D * q) + D * bpow (-1075)) in H1 by ring.
      rewrite HqD in H1. lra. }
  assert (Hp0 : 0 < D * S) by (apply Rmult_lt_0_compat; lra).
  assert (Hbig : bpow 21 <= bpow 1024 - bpow 970).
  { assert (bpow 970 + bpow 970 <= bpow 1024).
    { replace (bpow 970 + bpow 970) with (2 * bpow 970) by ring.
      rewrite <- bpow_succ. apply bpow_le. lia. }
    assert (bpow 21 <= bpow 970) by (apply bpow_le; lia). lra. }
  assert (H21 : bpow 21 = 2 * bpow 20) by (change 21%Z with (20 + 1)%Z; apply bpow_succ).
  assert (H20 : 1 <= bpow 20).
  { change 1 with (bpow 0). apply bpow_le. lia. }
  assert (Hfm : is_finite (d * s) = true).
  { apply mul_finite; [assumption..|]. fold D S. rewrite Rabs_pos_eq by lra. lra. }
  pose proof (mul_error d s Hfm) as Herr. fold D S in Herr.
  rewrite (Rabs_pos_eq (D * S)) in Herr by lra.
  apply Rabs_le_inv in Herr.
  assert (H53' : bpow (-53) * (D * S) <= / 8 + / 8).
  { assert (bpow (-53) * (D * S) <= bpow (-53) * (IZR C + / 4))
      by (apply Rmult_le_compat_l; lra).
    assert (bpow (-53) * IZR C <= bpow (-53) * bpow 20)
      by (apply Rmult_le_compat_l; lra).
    assert (bpow (-53) <= / 8).
    { rewrite <- bpow_m3. apply bpow_le. lia. }
    lra. }
  assert (H1075' : bpow (-1075) <= / 8).
  { rewrite <- bpow_m3. apply bpow_le. lia. }
  assert (Hlt74 : bpow (-1075) < bpow (-1074)) by (apply bpow_lt; lia).
  assert (Hnn : 0 <= F2R (d * s)).
  { apply F2R_not_slightly_negative.
    assert (bpow (-53) * (D * S) <= 1 * (D * S)).
    { apply Rmult_le_compat_r; [lra|].
      assert (bpow (-53) <= bpow 0) by (apply bpow_le; lia).
      change (bpow 0) with 1 in H. lra. }
    lra. }
  destruct (Math_floor_spec (d * s)%float Hfm) as (Hff & n & Hn & Hlo & Hhi).
  split; [exact Hff|]. exists n. split; [exact Hn|].
  split.
  - apply Z.lt_succ_r. apply lt_IZR. unfold Z.succ. rewrite plus_IZR. simpl IZR. lra.
  - apply Z.lt_succ_r. apply lt_IZR. unfold Z.succ. rewrite plus_IZR. lra.
Qed.

End Ordering.

Section Resizing.

Local Open Scope R_scope.

Lemma leb_not_gt (a b : float) :
  (a <=? b)%float = true -> (b <? a)%float = false.
Proof.
  rewrite leb_spec, ltb_spec. unfold SFleb, SFltb.
  rewrite (SFcompare_antisym (Prim2SF a) (Prim2SF b)).
  destruct (SFcompare (Prim2SF a) (Prim2SF b)) as [[| |]|]; simpl;
    intros H; try discriminate; reflexivity.
Qed.

Lemma Math_min2_nan (a b : float) :
  is_nan a = true \/ is_nan b = true -> Math_min2 a b = nan.
Proof.
  intros H. unfold Math_min2.
  destruct (is_nan a), (is_nan b); try reflexivity. destruct H; discriminate.
Qed.

(** [Math.min(c, 1)] is never above 1. *)
Lemma Math_min2_one (c : float) : (1 <? Math_min2 c 1)%float = false.
Proof.
  destruct (is_nan c) eqn:Hc.
  - rewrite Math_min2_nan by (left; exact Hc). reflexivity.
  - apply leb_not_gt. apply (Math_min2_le c 1 Hc eq_refl).
Qed.

Lemma Math_min2_positive (a b : float) :
  (0 <? a)%float = true -> (0 <? b)%float = true ->
  (0 <? Math_min2 a b)%float = true.
Proof.
  intros Ha Hb.
  destruct (Math_min2_cases a b (ltb_zero_not_nan a Ha) (ltb_zero_not_nan b Hb))
    as [->| ->]; assumption.
Qed.

Lemma F2R_1024 : F2R 1024 = 1024.
Proof.
  unfold F2R. change (Prim2SF 1024) with (S754_finite false 4503599627370496 (-42)).
  rewrite SF2R_finite. simpl signed.
  change (bpow (-42)) with (/ IZR (Z.pow_pos 2 42)).
  change (Z.pow_pos 2 42) with 4398046511104%Z.
  replace (IZR 4503599627370496) with (1024 * IZR 4398046511104).
  - field; try (apply not_eq_sym, Rlt_not_eq, IZR_lt; reflexivity).
  - rewrite <- mult_IZR. reflexivity.
Qed.

Lemma F2R_4096 : F2R 4096 = 4096.
Proof.
  unfold F2R. change (Prim2SF 4096) with (S754_finite false 4503599627370496 (-40)).
  rewrite SF2R_finite. simpl signed.
  change (bpow (-40)) with (/ IZR (Z.pow_pos 2 40)).
  change (Z.pow_pos 2 40) with 1099511627776%Z.
  replace (IZR 4503599627370496) with (4096 * IZR 1099511627776).
  - field; try (apply not_eq_sym, Rlt_not_eq, IZR_lt; reflexivity).
  - rewrite <- mult_IZR. reflexivity.
Qed.

End Resizing.

(** ** Downscaling: the scale factor and the canvas sizes *)

Section Downscale.

Local Open Scope R_scope.
Local Open Scope float_scope.

(** The quotient [limit / dimension] of the two resizers. *)
Lemma limit_quotient (c d : float) :
  is_finite c = true -> (1 <= F2R c)%R ->
  is_finite d = true -> (0 <? d) = true ->
  (0 <? c / d) = true /\ is_nan (c / d) = false.
Proof.
  intros Hfc Hc Hfd Hd.
  pose proof (quotient_above_zero c d Hfc Hfd Hc Hd) as H.
  split; [exact H|]. exact (ltb_zero_not_nan _ H).
Qed.

Lemma scaleFor_range (c w h : float) :
  is_finite c = true -> (1 <= F2R c)%R ->
  is_finite w = true -> is_finite h = true ->
  (0 <? w) = true -> (0 <? h) = true ->
  let s := Local.scaleFor c w h in
  (0 <? s) = true /\ (s <=? 1) = true /\
  (s <=? c / w) = true /\ (s <=? c / h) = true.
Proof.
  intros Hfc Hc Hfw Hfh Hw Hh s.
  destruct (limit_quotient c w Hfc Hc Hfw Hw) as [Ha Hna].
  destruct (limit_quotient c h Hfc Hc Hfh Hh) as [Hb Hnb].
  pose proof (Math_min2_positive _ _ Ha Hb) as Hm.
  pose proof (ltb_zero_not_nan _ Hm) as Hnm.
  destruct (Math_min2_le _ _ Hna Hnb) as [Hma Hmb].
  destruct (Math_min2_le (Math_min2 (c / w) (c / h)) 1 Hnm eq_refl) as [Hsm Hs1].
  assert (Hs : (0 <? s) = true).
  { apply Math_min2_positive; [exact Hm|reflexivity]. }
  fold (Math_min3 (c / w) (c / h) 1) in Hsm, Hs1. fold (Local.scaleFor c w h) in Hsm, Hs1.
  fold s in Hsm, Hs1.
  split; [exact Hs|]. split; [exact Hs1|].
  (* s <= m <= a, by cases on s = m or s = 1 *)
  destruct (Math_min2_cases (Math_min2 (c / w) (c / h)) 1 Hnm eq_refl) as [E|E];
    fold (Math_min3 (c / w) (c / h) 1) in E; fold (Local.scaleFor c w h) in E; fold s in E.
  - rewrite E. split; assumption.
  - (* s = 1 <= m: then m <= a gives 1 <= a through the reals or infinity *)
    rewrite E in Hsm.
    assert (Htrans : forall a : float,
               (0 <? a) = true ->
               (Math_min2 (c / w) (c / h) <=? a) = true -> (1 <=? a) = true).
    { intros a Hpa Hle.
      destruct (is_finite a) eqn:Hfa.
      - pose proof (positive_below_finite _ _ Hm Hle Hfa) as Hfm.
        apply (leb_F2R 1 a eq_refl Hfa).
        apply (leb_F2R _ _ Hfm Hfa) in Hle.
        apply (leb_F2R 1 _ eq_refl Hfm) in Hsm. lra.
      - apply ltb_zero_cases in Hpa. rewrite is_finite_SF in Hfa.
        rewrite leb_spec. destruct Hpa as [->|(m & e & Hpa)]; [reflexivity|].
        rewrite Hpa in Hfa. discriminate. }
    rewrite E. split; apply Htrans; assumption.
Qed.


(** X15: neither scale factor is ever above 1, whatever the numbers it is
    computed from (zero, negative or not numbers included): the image is
    never enlarged for processing by [processAndDisplayImage], and the
    canvas is never enlarged for display by [ResultsDisplay]. *)
Theorem scale_factors_never_exceed_one :
  (forall maxDimension w h : number,
      gt (Local.scaleFor maxDimension w h) 1 = false) /\
  (forall clientWidth originalWidth : number,
      gt (ResultsDisplay.canvasScaleFor clientWidth originalWidth) 1 = false).
Proof.
  split.
  - intros maxDimension w h. unfold gt, Local.scaleFor, Math_min3.
    apply Math_min2_one.
  - intros clientWidth originalWidth. unfold gt, ResultsDisplay.canvasScaleFor.
    apply Math_min2_one.
Qed.

(** X16: for an image whose width and height are positive finite
    numbers, the scale factor is a finite number above 0 and at most 1: the
    division by it that maps the detections back is never a division by
    zero, and it is within the range for which the round trip of the
    mapping is stated. *)
Theorem processing_scale_is_within_range (w h : number) :
  is_finite w = true -> is_finite h = true ->
  lt 0 w = true -> lt 0 h = true ->
  lt 0 (Local.scaleFor Local.maxProcessingDimension w h) = true /\
  ge 1 (Local.scaleFor Local.maxProcessingDimension w h) = true /\
  finite (Local.scaleFor Local.maxProcessingDimension w h) = true /\
  (0 < F2R (Local.scaleFor Local.maxProcessingDimension w h) <= 1)%R.
Proof.
  unfold lt, ge. intros Hfw Hfh Hw Hh.
  destruct (scaleFor_range Local.maxProcessingDimension w h eq_refl
              ltac:(unfold Local.maxProcessingDimension; rewrite F2R_1024; lra)
              Hfw Hfh Hw Hh) as (Hs & Hs1 & _).
  destruct (positive_at_most_one _ Hs Hs1) as [Hf Hr].
  repeat split; try assumption; apply Hr.
Qed.

Lemma processing_scale_witness :
  lt 0 (Local.scaleFor Local.maxProcessingDimension 3024 4032) = true /\
  ge 1 (Local.scaleFor Local.maxProcessingDimension 3024 4032) = true /\
  finite (Local.scaleFor Local.maxProcessingDimension 3024 4032) = true /\
  (0 < F2R (Local.scaleFor Local.maxProcessingDimension 3024%float 4032%float) <= 1)%R.
Proof.
  apply (processing_scale_is_within_range 3024 4032); reflexivity.
Defined.

(** X17: for an image whose width and height are positive finite
    numbers, both sides of the canvas the detector works on are whole
    numbers of pixels between 0 and 1024, however the divisions and
    multiplications by the scale factor round. *)
Theorem processed_canvas_fits_the_limit (w h : number) :
  is_finite w = true -> is_finite h = true ->
  lt 0 w = true -> lt 0 h = true ->
  is_finite (fst (Local.processedSize Local.maxProcessingDimension w h)) = true /\
  is_finite (snd (Local.processedSize Local.maxProcessingDimension w h)) = true /\
  (exists n : Z,
      F2R (fst (Local.processedSize Local.maxProcessingDimension w h)) = IZR n /\
      (0 <= n <= 1024)%Z) /\
  (exists n : Z,
      F2R (snd (Local.processedSize Local.maxProcessingDimension w h)) = IZR n /\
      (0 <= n <= 1024)%Z).
Proof.
  unfold lt. intros Hfw Hfh Hw Hh. unfold Local.processedSize. cbn [fst snd].
  assert (Hc : (1 <= F2R Local.maxProcessingDimension)%R).
  { unfold Local.maxProcessingDimension. rewrite F2R_1024. lra. }
  destruct (scaleFor_range Local.maxProcessingDimension w h eq_refl Hc Hfw Hfh Hw Hh)
    as (Hs & Hs1 & Hsa & Hsb).
  destruct (positive_at_most_one _ Hs Hs1) as [Hf Hr].
  set (s := Local.scaleFor Local.maxProcessingDimension w h) in *.
  assert (Hw' : forall d : float,
             is_finite d = true -> (0 <? d) = true ->
             (s <=? Local.maxProcessingDimension / d) = true ->
             is_finite (Math_floor (d * s)) = true /\
             exists n : Z, F2R (Math_floor (d * s)) = IZR n /\ (0 <= n <= 1024)%Z).
  { intros d Hfd Hd Hsd.
    apply (scaled_floor_within Local.maxProcessingDimension d s 1024); try assumption.
    - lia.
    - reflexivity.
    - unfold Local.maxProcessingDimension. apply F2R_1024.
    - lra.
    - intros Hfq. apply (leb_F2R _ _ Hf Hfq). exact Hsd. }
  destruct (Hw' w Hfw Hw Hsa) as [F1 N1]. destruct (Hw' h Hfh Hh Hsb) as [F2 N2].
  repeat split; assumption.
Qed.

Lemma processed_canvas_witness :
  is_finite (fst (Local.processedSize Local.maxProcessingDimension 3024 4032)) = true /\
  is_finite (snd (Local.processedSize Local.maxProcessingDimension 3024 4032)) = true /\
  (exists n : Z,
      F2R (fst (Local.processedSize Local.maxProcessingDimension 3024 4032)) = IZR n /\
      (0 <= n <= 1024)%Z) /\
  (exists n : Z,
      F2R (snd (Local.processedSize Local.maxProcessingDimension 3024 4032)) = IZR n /\
      (0 <= n <= 1024)%Z).
Proof.
  apply (processed_canvas_fits_the_limit 3024 4032); reflexivity.
Defined.


Lemma quotient_below_one (c d : float) :
  is_finite c = true -> (1 <= F2R c)%R -> is_finite d = true -> (c <? d) = true ->
  (0 <? d) = true /\ is_finite (c / d) = true /\ (F2R (c / d) <= 2)%R.
Proof.
  intros Hfc Hc Hfd Hcd.
  apply (ltb_F2R c d Hfc Hfd) in Hcd.
  assert (Hd : (0 <? d) = true) by (apply ltb_zero_F2R; [assumption|lra]).
  assert (Hc0 : (0 <? c) = true) by (apply ltb_zero_F2R; [assumption|lra]).
  assert (Hq : (0 < F2R c / F2R d < 1)%R).
  { split; [apply Rdiv_lt_0_compat; lra|].
    apply (Rmult_lt_reg_r (F2R d)); [lra|].
    replace (F2R c / F2R d * F2R d)%R with (F2R c) by (field; lra). lra. }
  split; [exact Hd|].
  destruct (div_of_positives c d Hfc Hfd Hc0 Hd) as [[_ Hbig]|Hfin].
  - exfalso.
    assert (bpow 970 + bpow 970 <= bpow 1024)%R.
    { replace (bpow 970 + bpow 970)%R with (2 * bpow 970)%R by ring.
      rewrite <- bpow_succ. apply bpow_le. lia. }
    assert (bpow 0 <= bpow 970)%R by (apply bpow_le; lia).
    change (bpow 0) with 1%R in *. lra.
  - split; [exact Hfin|].
    pose proof (div_error c d Hfin) as Herr.
    rewrite (Rabs_pos_eq (F2R c / F2R d)) in Herr by lra.
    apply Rabs_le_inv in Herr.
    assert (bpow (-53) <= bpow (-3))%R by (apply bpow_le; lia).
    assert (bpow (-1075) <= bpow (-3))%R by (apply bpow_le; lia).
    rewrite bpow_m3 in *.
    pose proof (bpow_pos (-53)).
    assert (bpow (-53) * (F2R c / F2R d) <= / 8 * 1)%R
      by (apply Rmult_le_compat; lra).
    lra.
Qed.

Lemma targetSize_fits (w h : number) :
  is_finite w = true -> is_finite h = true ->
  (0 <? w) = true -> (0 <? h) = true ->
  is_finite (fst (Api.targetSize Api.MAX_DIMENSION w h)) = true /\
  is_finite (snd (Api.targetSize Api.MAX_DIMENSION w h)) = true /\
  (0 <= F2R (fst (Api.targetSize Api.MAX_DIMENSION w h)) <= 4096)%R /\
  (0 <= F2R (snd (Api.targetSize Api.MAX_DIMENSION w h)) <= 4096)%R.
Proof.
  intros Hfw Hfh Hw Hh. unfold Api.targetSize, gt.
  set (c := Api.MAX_DIMENSION).
  assert (Hfc : is_finite c = true) by reflexivity.
  assert (HFc : F2R c = 4096%R) by (unfold c, Api.MAX_DIMENSION; apply F2R_4096).
  assert (Hc : (1 <= F2R c)%R) by lra.
  destruct ((c <? w) || (c <? h)) eqn:Hres; cbn [fst snd].
  - destruct (limit_quotient c w Hfc Hc Hfw Hw) as [Ha Hna].
    destruct (limit_quotient c h Hfc Hc Hfh Hh) as [Hb Hnb].
    pose proof (Math_min2_positive _ _ Ha Hb) as Hs.
    destruct (Math_min2_le _ _ Hna Hnb) as [Hsa Hsb].
    set (s := Math_min2 (c / w) (c / h)) in *.
    assert (Hfs : is_finite s = true /\ (F2R s <= 2)%R).
    { apply orb_prop in Hres. destruct Hres as [Hres|Hres].
      - destruct (quotient_below_one c w Hfc Hc Hfw Hres) as (_ & Hfa & Ha2).
        pose proof (positive_below_finite _ _ Hs Hsa Hfa) as Hf.
        split; [exact Hf|]. apply (leb_F2R _ _ Hf Hfa) in Hsa. lra.
      - destruct (quotient_below_one c h Hfc Hc Hfh Hres) as (_ & Hfb & Hb2).
        pose proof (positive_below_finite _ _ Hs Hsb Hfb) as Hf.
        split; [exact Hf|]. apply (leb_F2R _ _ Hf Hfb) in Hsb. lra. }
    destruct Hfs as [Hfs Hs2].
    pose proof (proj1 (ltb_zero_F2R s Hfs) Hs) as Hs0.
    assert (Hd : forall d : float,
               is_finite d = true -> (0 <? d) = true -> (s <=? c / d) = true ->
               is_finite (Math_floor (d * s)) = true /\
               (0 <= F2R (Math_floor (d * s)%float) <= 4096)%R).
    { intros d Hfd Hd Hsd.
      destruct (scaled_floor_within c d s 4096) as (Hf & n & Hn & Hn0 & Hn1);
        try assumption.
      - lia.
      - lra.
      - intros Hfq. apply (leb_F2R _ _ Hfs Hfq). exact Hsd.
      - split; [exact Hf|]. rewrite Hn. split; apply IZR_le; assumption. }
    destruct (Hd w Hfw Hw Hsa) as [F1 B1]. destruct (Hd h Hfh Hh Hsb) as [F2 B2].
    repeat split; try assumption; try apply B1; apply B2.
  - apply orb_false_elim in Hres. destruct Hres as [Hcw Hch].
    pose proof (proj1 (ltb_zero_F2R w Hfw) Hw) as Hw0.
    pose proof (proj1 (ltb_zero_F2R h Hfh) Hh) as Hh0.
    assert (Hw1 : (F2R w <= 4096)%R).
    { rewrite <- HFc. apply Rnot_lt_le. intros Hlt.
      apply (ltb_F2R c w Hfc Hfw) in Hlt. congruence. }
    assert (Hh1 : (F2R h <= 4096)%R).
    { rewrite <- HFc. apply Rnot_lt_le. intros Hlt.
      apply (ltb_F2R c h Hfc Hfh) in Hlt. congruence. }
    repeat split; try assumption; lra.
Qed.

(** X18: when the file decodes to an image whose width and height are
    positive finite numbers, the canvas the validator draws and encodes is
    never larger than 4096 on either side (and never has a negative side):
    the size it sets is the one [img.onload] computes, within the limit
    after resizing whatever the rounding of the scale factor. *)
Theorem validated_canvas_fits_the_limit
    (env : Api.ValidatorEnv) (file : File) (w h cw ch : number) :
  Api.decode env = Loaded w h ->
  is_finite w = true -> is_finite h = true ->
  lt 0 w = true -> lt 0 h = true ->
  In (Api.SetCanvasSize cw ch) (events (Api.validateAndCompressImage env file)) ->
  (cw, ch) = Api.targetSize Api.MAX_DIMENSION w h /\
  is_finite cw = true /\ is_finite ch = true /\
  (0 <= F2R cw <= 4096)%R /\ (0 <= F2R ch <= 4096)%R.
Proof.
  unfold lt. intros Hdec Hfw Hfh Hw Hh Hin.
  assert (Heq : (cw, ch) = Api.targetSize Api.MAX_DIMENSION w h).
  { unfold Api.validateAndCompressImage, Api.onload in Hin. rewrite Hdec in Hin.
    destruct (size file >? Api.MAX_FILE_SIZE)%Z; [destruct Hin|].
    destruct (Api.targetSize Api.MAX_DIMENSION w h) as [tw th].
    destruct (Api.toBlob env tw th "image/jpeg" 0.92) as [[bytes len]|];
      cbn in Hin;
      repeat (destruct Hin as [Hin|Hin]; [try discriminate Hin|]);
      try (injection Hin as <- <-; reflexivity); destruct Hin. }
  split; [exact Heq|].
  pose proof (targetSize_fits w h Hfw Hfh Hw Hh) as H.
  rewrite <- Heq in H. exact H.
Qed.

Lemma validated_canvas_witness :
  (4096, 3072) = Api.targetSize Api.MAX_DIMENSION 8000 6000 /\
  is_finite 4096 = true /\ is_finite 3072 = true /\
  (0 <= F2R 4096 <= 4096)%R /\ (0 <= F2R 3072 <= 4096)%R.
Proof.
  apply (validated_canvas_fits_the_limit decodes8000x6000 smallPng 8000 6000 4096 3072);
    try reflexivity.
  vm_compute. tauto.
Defined.

(** The lower bound is reached: a side of the resized canvas can be 0. *)
Remark thin_images_lose_a_side :
  Api.targetSize Api.MAX_DIMENSION 5000 1 = (4096, 0) /\
  Local.processedSize Local.maxProcessingDimension 3000 1 = (1024, 0).
Proof. split; reflexivity. Qed.

End Downscale.

(** ** The placeholder detector and the pipeline around it *)

Section MockDetector.

Local Open Scope R_scope.
Local Open Scope float_scope.

Lemma F2R_20 : F2R 20 = 20%R.
Proof.
  unfold F2R. change (Prim2SF 20) with (S754_finite false 5629499534213120 (-48)).
  rewrite SF2R_finite. simpl signed.
  change (bpow (-48)) with (/ IZR (Z.pow_pos 2 48))%R.
  change (Z.pow_pos 2 48) with 281474976710656%Z.
  replace (IZR 5629499534213120) with (20 * IZR 281474976710656)%R.
  - field; try (apply not_eq_sym, Rlt_not_eq, IZR_lt; reflexivity).
  - rewrite <- mult_IZR. reflexivity.
Qed.

(** The greatest binary64 number below 1 is 1 - 2^-53. *)
Lemma below_one_gap (r : float) :
  is_finite r = true -> (F2R r < 1)%R -> (F2R r <= 1 - bpow (-53))%R.
Proof.
  intros Hf. unfold F2R.
  assert (H53 : (bpow (-53) <= / 2)%R).
  { change (bpow (-53)) with (/ IZR (Z.pow_pos 2 53))%R.
    apply Rinv_le_contravar; [lra|]. apply IZR_le. apply Z.leb_le. reflexivity. }
  pose proof (bpow_pos (-53)) as Hp53.
  destruct (Prim2SF r) as [s|s| |s m e] eqn:Hr; try (simpl SF2R; lra).
  destruct (valid_finite r _ _ _ Hr) as ([He _] & Hd & _).
  rewrite SF2R_finite. pose proof (bpow_pos e) as Hbe.
  assert (Hm0 : (1 <= IZR (Zpos m))%R) by (apply IZR_le; lia).
  destruct s; simpl signed; [intros _; nra|]. intros Hlt.
  destruct (digits2_pos_bounds m) as [_ Hhi].
  assert (Hm : (Zpos m < 2 ^ 53)%Z).
  { assert (2 ^ Zpos (digits2_pos m) <= 2 ^ 53)%Z by (apply Z.pow_le_mono_r; lia). lia. }
  destruct (Z_lt_le_dec e (-53)) as [Hsmall|Hbig].
  - assert (Hb : (bpow e <= bpow (-54))%R) by (apply bpow_le; lia).
    apply IZR_lt in Hm. rewrite <- (bpow_nonneg_IZR 53) in Hm by lia.
    assert (H1 : (bpow 53 * bpow (-54) = / 2)%R).
    { rewrite <- bpow_add. reflexivity. }
    pose proof (bpow_pos 53). pose proof (bpow_pos (-54)).
    assert ((IZR (Zpos m) * bpow e <= bpow 53 * bpow (-54))%R)
      by (apply Rmult_le_compat; lra).
    lra.
  - assert (He0 : (e < 0)%Z).
    { destruct (Z_lt_le_dec e 0) as [|Hge]; [assumption|exfalso].
      assert (bpow 0 <= bpow e)%R by (apply bpow_le; lia).
      change (bpow 0) with 1%R in *. nra. }
    set (k := (- e)%Z). assert (Hk : (0 < k)%Z) by (unfold k; lia).
    assert (Hbk : (bpow e * IZR (2 ^ k) = 1)%R).
    { rewrite <- (bpow_nonneg_IZR k) by lia. unfold k. rewrite Rmult_comm.
      apply bpow_opp_mul. }
    assert (H2k : (0 < IZR (2 ^ k))%R) by (apply IZR_lt; apply Z.pow_pos_nonneg; lia).
    assert (Hmk : (Zpos m < 2 ^ k)%Z).
    { apply lt_IZR. apply (Rmult_lt_reg_r (bpow e)); [lra|].
      rewrite (Rmult_comm (IZR (2 ^ k))), Hbk. exact Hlt. }
    assert (Hmk' : (IZR (Zpos m) <= IZR (2 ^ k) - 1)%R).
    { rewrite <- minus_IZR. apply IZR_le. lia. }
    assert (Hb : (bpow (-53) <= bpow e)%R) by (apply bpow_le; lia).
    assert ((IZR (Zpos m) * bpow e <= (IZR (2 ^ k) - 1) * bpow e)%R)
      by (apply Rmult_le_compat_r; lra).
    replace ((IZR (2 ^ k) - 1) * bpow e)%R with (bpow e * IZR (2 ^ k) - bpow e)%R in H by ring.
    rewrite Hbk in H. lra.
Qed.

(** [Math.random() * 20] is a finite number in [0, 20). *)
Lemma random_times_20 (r : float) :
  (0 <=? r) = true -> (r <? 1) = true ->
  is_finite (r * 20) = true /\ (0 <= F2R (r * 20)%float < 20)%R.
Proof.
  intros H0 H1.
  assert (Hf : is_finite r = true).
  { rewrite is_finite_SF. rewrite leb_spec in H0. rewrite ltb_spec in H1.
    destruct (Prim2SF r) as [s|s| |s m e]; try reflexivity; try discriminate.
    destruct s; discriminate. }
  apply (leb_F2R 0 r eq_refl Hf) in H0. replace (F2R 0) with 0%R in H0 by reflexivity.
  apply (ltb_F2R r 1 Hf eq_refl) in H1.
  replace (F2R 1) with 1%R in H1
    by (destruct (positive_at_most_one 1 eq_refl eq_refl) as [_ H];
        symmetry; apply Rle_antisym; [apply H|];
        pose proof (below_one_gap 1 eq_refl) as G;
        destruct (Rlt_le_dec (F2R 1) 1) as [Hlt|Hge]; [|exact Hge];
        exfalso; revert Hlt; unfold F2R;
        change (Prim2SF 1) with (S754_finite false 4503599627370496 (-52));
        rewrite SF2R_finite; simpl signed;
        change (bpow (-52)) with (/ IZR (Z.pow_pos 2 52))%R;
        change (Z.pow_pos 2 52) with 4503599627370496%Z;
        rewrite Rinv_r by (apply not_eq_sym, Rlt_not_eq, IZR_lt; reflexivity);
        lra).
  apply below_one_gap in H1; [|exact Hf].
  set (u := bpow (-53)) in *.
  assert (Hu : (0 < u)%R) by apply bpow_pos.
  assert (Hu1 : (u <= / 2)%R).
  { unfold u. change (bpow (-53)) with (/ IZR (Z.pow_pos 2 53))%R.
    apply Rinv_le_contravar; [lra|]. apply IZR_le. apply Z.leb_le. reflexivity. }
  assert (Huu : (u * u = bpow (-106))%R) by (unfold u; rewrite <- bpow_add; reflexivity).
  assert (Ht : (bpow (-1075) < bpow (-106))%R) by (apply bpow_lt; lia).
  pose proof (bpow_pos (-1075)) as Htp.
  set (p := (F2R r * F2R 20)%R).
  assert (Hp : (0 <= p <= 20 - 20 * u)%R).
  { unfold p. rewrite F2R_20. lra. }
  assert (Hfm : is_finite (r * 20) = true).
  { apply mul_finite; [exact Hf|reflexivity|]. fold p. rewrite Rabs_pos_eq by lra.
    assert (bpow 970 + bpow 970 <= bpow 1024)%R.
    { replace (bpow 970 + bpow 970)%R with (2 * bpow 970)%R by ring.
      rewrite <- bpow_succ. apply bpow_le. lia. }
    assert (bpow 5 <= bpow 970)%R by (apply bpow_le; lia).
    assert (bpow 5 = 32)%R by reflexivity. lra. }
  split; [exact Hfm|].
  pose proof (mul_error r 20 Hfm) as Herr. fold p in Herr. fold u in Herr.
  rewrite (Rabs_pos_eq p) in Herr by lra. apply Rabs_le_inv in Herr.
  assert (Hup : (u * p <= u * (20 - 20 * u))%R) by (apply Rmult_le_compat_l; lra).
  assert (Hup0 : (0 <= u * p)%R) by (apply Rmult_le_pos; lra).
  split.
  - apply F2R_not_slightly_negative.
    assert (bpow (-1075) < bpow (-1074))%R by (apply bpow_lt; lia).
    assert (u * p <= 1 * p)%R by (apply Rmult_le_compat_r; lra).
    lra.
  - nra.
Qed.


(** [Math.floor] of a finite number in [0, 2^52) is a zero, kept as it
    is, or the integer below it, which is again such a number. *)
Lemma Math_floor_below (v : float) (N : Z) :
  is_finite v = true -> (0 <= F2R v < IZR N)%R -> (N <= 2 ^ 52)%Z ->
  (exists s, Prim2SF v = S754_zero s /\ Math_floor v = v) \/
  (exists n, (0 <= n < N)%Z /\ Math_floor v = of_Z n).
Proof.
  intros Hf Hv HN. unfold Math_floor, floorZ. unfold F2R in Hv.
  rewrite is_finite_SF in Hf.
  destruct (Prim2SF v) as [s|s| |s m e] eqn:Hsf; try discriminate.
  - left. exists s. split; reflexivity.
  - right. rewrite SF2R_finite in Hv.
    destruct (valid_finite v _ _ _ Hsf) as (He & Hd & Hc).
    pose proof (bpow_pos e) as Hbe.
    assert (Hm0 : (1 <= IZR (Zpos m))%R) by (apply IZR_le; lia).
    destruct s; simpl signed in Hv; [nra|].
    assert (HN52 : (IZR N <= bpow 52)%R).
    { rewrite (bpow_nonneg_IZR 52) by lia. apply IZR_le. exact HN. }
    assert (He0 : (e < 0)%Z).
    { destruct (Z_lt_le_dec e 0) as [|Hge]; [assumption|exfalso].
      destruct Hc as [Hc|Hc]; [|lia].
      destruct (digits2_pos_bounds m) as [Hlo _]. rewrite Hc in Hlo.
      change (53 - 1)%Z with 52%Z in Hlo. apply IZR_le in Hlo.
      rewrite <- (bpow_nonneg_IZR 52) in Hlo by lia.
      assert (bpow 0 <= bpow e)%R by (apply bpow_le; lia).
      change (bpow 0) with 1%R in *. pose proof (bpow_pos 52). nra. }
    destruct (Z.leb_spec 0 e) as [|_]; [lia|].
    set (k := (- e)%Z). assert (Hk : (0 < k)%Z) by (unfold k; lia).
    assert (Hp : (0 < 2 ^ k)%Z) by (apply Z.pow_pos_nonneg; lia).
    exists (Z.shiftr (cond_Zopp false (Zpos m)) k). split; [|reflexivity].
    simpl cond_Zopp. rewrite Z.shiftr_div_pow2 by lia.
    split; [apply Z.div_pos; lia|].
    apply Z.div_lt_upper_bound; [lia|].
    apply lt_IZR. rewrite mult_IZR.
    assert (Hbk : (bpow e * IZR (2 ^ k) = 1)%R).
    { rewrite <- (bpow_nonneg_IZR k) by lia. unfold k. rewrite Rmult_comm.
      apply bpow_opp_mul. }
    assert (H2k : (0 < IZR (2 ^ k))%R) by (apply IZR_lt; lia).
    assert (IZR (Zpos m) * bpow e * IZR (2 ^ k) < IZR N * IZR (2 ^ k))%R
      by (apply Rmult_lt_compat_r; lra).
    replace (IZR (Zpos m) * bpow e * IZR (2 ^ k))%R
      with (IZR (Zpos m) * (bpow e * IZR (2 ^ k)))%R in H by ring.
    rewrite Hbk in H. lra.
Qed.

(** [numPills]: the integers 5 to 24. *)
Lemma numPills_cases (r : float) :
  (0 <=? r) = true -> (r <? 1) = true ->
  In (Math_floor (r * 20) + 5)
     [5; 6; 7; 8; 9; 10; 11; 12; 13; 14; 15; 16; 17; 18; 19; 20; 21; 22; 23; 24].
Proof.
  intros H0 H1. destruct (random_times_20 r H0 H1) as [Hf Hv].
  destruct (Math_floor_below (r * 20) 20 Hf Hv ltac:(lia))
    as [(s & Hs & ->)|(n & Hn & ->)].
  - rewrite <- (SF2Prim_Prim2SF (r * 20)), Hs. destruct s; left; reflexivity.
  - set (k := Z.to_nat n).
    assert (Hk : n = Z.of_nat k) by lia.
    assert (Hlt : (k < 20)%nat) by lia.
    clearbody k. subst n.
    do 20 (destruct k as [|k]; [repeat (first [left; reflexivity | right])|]).
    lia.
Qed.



(** The loop of the placeholder detector: it always returns, with one
    detection per fraction it reports, the same detections with and without
    a callback. *)
Lemma mockLoop_spec (random : nat -> number) (cw ch numPills : number) :
  forall (fuel : nat) (i : number) (calls : nat),
  exists ds,
    (forall onProgress : bool,
        Local.mockLoop random cw ch numPills onProgress fuel i calls
        = ((if onProgress then mockFractions numPills fuel i else []), Returned ds)) /\
    List.length ds = List.length (mockFractions numPills fuel i).
Proof.
  induction fuel as [|fuel IH]; intros i calls; simpl.
  - exists []. split; [intros [|]; reflexivity|reflexivity].
  - destruct (lt i numPills).
    + destruct (IH (i + 1) (calls + 5)%nat) as (ds & Heq & Hlen).
      eexists. split.
      * intros onProgress. rewrite Heq.
        destruct onProgress; unfold bind, emit, ret; simpl;
          rewrite ?app_nil_r; reflexivity.
      * simpl. rewrite Hlen. reflexivity.
    + exists []. split; [intros [|]; reflexivity|reflexivity].
Qed.

(** A run of the placeholder detector, for a first [Math.random()] in
    [0, 1): [numPills] is one of 5, ..., 24 and the loop runs on it. *)
Lemma runPillDetection_cases (random : nat -> number) (cw ch : number) :
  (0 <=? random 0%nat) = true -> (random 0%nat <? 1) = true ->
  exists numPills ds,
    In numPills
       [5; 6; 7; 8; 9; 10; 11; 12; 13; 14; 15; 16; 17; 18; 19; 20; 21; 22; 23; 24] /\
    (forall onProgress : bool,
        Local.runPillDetection random cw ch onProgress
        = ((if onProgress
            then mockFractions numPills (Z.to_nat (floorZ numPills)) 0
            else []), Returned ds)) /\
    List.length ds
    = List.length (mockFractions numPills (Z.to_nat (floorZ numPills)) 0).
Proof.
  intros H0 H1.
  pose proof (numPills_cases (random 0%nat) H0 H1) as Hn.
  unfold Local.runPillDetection. cbv zeta.
  set (numPills := Math_floor (random 0%nat * 20) + 5) in *.
  destruct (mockLoop_spec random cw ch numPills (Z.to_nat (floorZ numPills)) 0 1)
    as (ds & Heq & Hlen).
  exists numPills, ds. auto.
Qed.

(** X19: the placeholder detector, for a first [Math.random()] in
    [0, 1): it never fails; it returns between 5 and 24 detections, the same
    with and without a progress callback; it calls the callback once per
    detection, with fractions that never go down and end at exactly 1. *)
Theorem mock_detector_reports_every_pill
    (random : nat -> number) (canvasWidth canvasHeight : number) :
  ge (random 0%nat) 0 = true -> lt (random 0%nat) 1 = true ->
  exists ds,
    result (Local.runPillDetection random canvasWidth canvasHeight true) = Returned ds /\
    result (Local.runPillDetection random canvasWidth canvasHeight false) = Returned ds /\
    (5 <= List.length ds <= 24)%nat /\
    List.length (events (Local.runPillDetection random canvasWidth canvasHeight true))
    = List.length ds /\
    last (events (Local.runPillDetection random canvasWidth canvasHeight true)) 0 = 1 /\
    nonDecreasing (events (Local.runPillDetection random canvasWidth canvasHeight true))
    = true /\
    events (Local.runPillDetection random canvasWidth canvasHeight false) = [].
Proof.
  unfold ge, lt. intros H0 H1.
  destruct (runPillDetection_cases random canvasWidth canvasHeight H0 H1)
    as (numPills & ds & Hn & Heq & Hlen).
  exists ds. rewrite !Heq. unfold result, events. cbn [fst snd]. rewrite Hlen.
  cbn [In] in Hn.
  repeat (destruct Hn as [Hn|Hn];
          [rewrite <- Hn; repeat split; try reflexivity; vm_compute; lia|]).
  destruct Hn.
Qed.

Lemma mock_detector_witness :
  exists ds,
    result (Local.runPillDetection (fun _ => 0.25) 768 1024 true) = Returned ds /\
    result (Local.runPillDetection (fun _ => 0.25) 768 1024 false) = Returned ds /\
    (5 <= List.length ds <= 24)%nat /\
    List.length (events (Local.runPillDetection (fun _ => 0.25) 768 1024 true))
    = List.length ds /\
    last (events (Local.runPillDetection (fun _ => 0.25) 768 1024 true)) 0 = 1 /\
    nonDecreasing (events (Local.runPillDetection (fun _ => 0.25) 768 1024 true))
    = true /\
    events (Local.runPillDetection (fun _ => 0.25) 768 1024 false) = [].
Proof.
  apply (mock_detector_reports_every_pill (fun _ => 0.25) 768 1024); reflexivity.
Defined.

(** The pipeline around the placeholder detector, once the image has
    loaded. *)
Lemma local_pipeline_run (env : Local.PipelineEnv) (file : File) (w h : number)
    (fractions : list number) (ds : list Detection) :
  Local.imageLoad env = Loaded w h ->
  (forall onProgress : bool,
      Local.runPillDetection (Local.random env)
        (fst (Local.processedSize Local.maxProcessingDimension w h))
        (snd (Local.processedSize Local.maxProcessingDimension w h)) onProgress
      = ((if onProgress then fractions else []), Returned ds)) ->
  forall onProgress : bool,
    Local.processAndDisplayImage env file onProgress
    = ((if onProgress
        then ([(10, "Loading image..."%string);
               (30, "Preparing for analysis..."%string);
               (50, "Detecting pills..."%string)]
              ++ map (fun p => (50 + p * 0.4, "Detecting pills..."%string)) fractions
              ++ [(90, "Finalizing results..."%string); (100, "Complete!"%string)])%list
        else []),
       Returned
         (Local.Build_PipelineResult (Local.objectURL env) w h
            (map (Local.scaleDetection
                    (Local.scaleFor Local.maxProcessingDimension w h)) ds)
            (List.length
               (map (Local.scaleDetection
                       (Local.scaleFor Local.maxProcessingDimension w h)) ds))
            (Local.scaleFor Local.maxProcessingDimension w h)
            (Local.isoNow env))).
Proof.
  intros Hload Hrun onProgress. unfold Local.processAndDisplayImage.
  rewrite Hload.
  assert (Hfwd : forall (f : number -> list Progress),
             forward f
               (Local.runPillDetection (Local.random env)
                  (fst (Local.processedSize Local.maxProcessingDimension w h))
                  (snd (Local.processedSize Local.maxProcessingDimension w h)) true)
             = (flat_map f fractions, Returned ds)).
  { intros f. rewrite (Hrun true). reflexivity. }
  destruct onProgress.
  - unfold bind at 1 2 3 4. cbn [report emit ret fst snd app].
    rewrite Hfwd. unfold bind, report, emit, ret. cbn [fst snd app].
    reflexivity.
  - unfold bind at 1 2 3 4. cbn [report emit ret fst snd app].
    rewrite Hfwd. unfold bind, report, emit, ret. cbn [fst snd app].
    f_equal. rewrite !app_nil_r. clear.
    induction fractions as [|p l IH]; simpl; [reflexivity|exact IH].
Qed.


Lemma runPillDetection_returns (random : nat -> number) (cw ch : number) :
  exists fractions ds,
    forall onProgress : bool,
      Local.runPillDetection random cw ch onProgress
      = ((if onProgress then fractions else []), Returned ds).
Proof.
  unfold Local.runPillDetection. cbv zeta.
  set (numPills := Math_floor (random 0%nat * 20) + 5).
  destruct (mockLoop_spec random cw ch numPills (Z.to_nat (floorZ numPills)) 0 1)
    as (ds & Heq & _).
  exists (mockFractions numPills (Z.to_nat (floorZ numPills)) 0), ds. exact Heq.
Qed.

(** X20: the version of the pipeline that scales detections back, on an
    image whose width and height are positive finite numbers: once the
    image has loaded the run returns; the scale factor it returns is above 0
    and at most 1; the detections it returns are those of the detector, run
    on the processed canvas, each divided by that factor; and each of them,
    multiplied by that factor, gives back the detector's box within
    floating-point tolerance (whenever the returned box is made of finite
    numbers). *)
Theorem returned_detections_map_back
    (env : Local.PipelineEnv) (file : File) (onProgress : bool) (w h : number) :
  Local.imageLoad env = Loaded w h ->
  is_finite w = true -> is_finite h = true ->
  lt 0 w = true -> lt 0 h = true ->
  exists r inferred,
    result (Local.runPillDetection (Local.random env)
              (fst (Local.processedSize Local.maxProcessingDimension w h))
              (snd (Local.processedSize Local.maxProcessingDimension w h))
              true) = Returned inferred /\
    result (Local.processAndDisplayImage env file onProgress) = Returned r /\
    Local.originalWidth r = w /\ Local.originalHeight r = h /\
    lt 0 (Local.processingScale r) = true /\
    ge 1 (Local.processingScale r) = true /\
    Local.detections r = map (Local.scaleDetection (Local.processingScale r)) inferred /\
    Local.pillCount r = List.length inferred /\
    forall d,
      In d inferred ->
      finiteBox (Local.scaleDetection (Local.processingScale r) d) = true ->
      finiteBox (Local.unscaleDetection (Local.processingScale r)
                   (Local.scaleDetection (Local.processingScale r) d)) = true /\
      closeBox (Local.unscaleDetection (Local.processingScale r)
                  (Local.scaleDetection (Local.processingScale r) d)) d.
Proof.
  unfold lt, ge. intros Hload Hfw Hfh Hw Hh.
  destruct (runPillDetection_returns (Local.random env)
              (fst (Local.processedSize Local.maxProcessingDimension w h))
              (snd (Local.processedSize Local.maxProcessingDimension w h)))
    as (fractions & ds & Hrun).
  rewrite (local_pipeline_run env file w h fractions ds Hload Hrun onProgress).
  destruct (scaleFor_range Local.maxProcessingDimension w h eq_refl
              ltac:(unfold Local.maxProcessingDimension; rewrite F2R_1024; lra)
              Hfw Hfh Hw Hh) as (Hs & Hs1 & _).
  eexists. exists ds. rewrite (Hrun true). unfold result. cbn [snd].
  split; [reflexivity|].
  split; [reflexivity|]. cbn [Local.originalWidth Local.originalHeight
    Local.processingScale Local.detections Local.pillCount].
  repeat split; try assumption; try reflexivity.
  - apply length_map.
  - apply finiteBox_fields in H0. simpl in H0. destruct H0 as (Hx & Hy & Hwd & Hht).
    destruct (div_mul_round_trip _ (x d) Hs Hs1 Hx) as [Fx _].
    destruct (div_mul_round_trip _ (y d) Hs Hs1 Hy) as [Fy _].
    destruct (div_mul_round_trip _ (width d) Hs Hs1 Hwd) as [Fw _].
    destruct (div_mul_round_trip _ (height d) Hs Hs1 Hht) as [Fh _].
    unfold finiteBox, finite. simpl. rewrite Fx, Fy, Fw, Fh. reflexivity.
  - apply finiteBox_fields in H0. simpl in H0. destruct H0 as (Hx & _).
    exact (proj2 (div_mul_round_trip _ (x d) Hs Hs1 Hx)).
  - apply finiteBox_fields in H0. simpl in H0. destruct H0 as (_ & Hy & _).
    exact (proj2 (div_mul_round_trip _ (y d) Hs Hs1 Hy)).
  - apply finiteBox_fields in H0. simpl in H0. destruct H0 as (_ & _ & Hwd & _).
    exact (proj2 (div_mul_round_trip _ (width d) Hs Hs1 Hwd)).
  - apply finiteBox_fields in H0. simpl in H0. destruct H0 as (_ & _ & _ & Hht).
    exact (proj2 (div_mul_round_trip _ (height d) Hs Hs1 Hht)).
Qed.


Lemma returned_detections_witness :
  exists r inferred,
    result (Local.runPillDetection (Local.random quarterRandom)
              (fst (Local.processedSize Local.maxProcessingDimension 3024 4032))
              (snd (Local.processedSize Local.maxProcessingDimension 3024 4032))
              true) = Returned inferred /\
    result (Local.processAndDisplayImage quarterRandom smallPng true) = Returned r /\
    Local.originalWidth r = 3024 /\ Local.originalHeight r = 4032 /\
    lt 0 (Local.processingScale r) = true /\
    ge 1 (Local.processingScale r) = true /\
    Local.detections r = map (Local.scaleDetection (Local.processingScale r)) inferred /\
    Local.pillCount r = List.length inferred /\
    forall d,
      In d inferred ->
      finiteBox (Local.scaleDetection (Local.processingScale r) d) = true ->
      finiteBox (Local.unscaleDetection (Local.processingScale r)
                   (Local.scaleDetection (Local.processingScale r) d)) = true /\
      closeBox (Local.unscaleDetection (Local.processingScale r)
                  (Local.scaleDetection (Local.processingScale r) d)) d.
Proof.
  apply (returned_detections_map_back quarterRandom smallPng true 3024 4032);
    reflexivity.
Defined.

(** X21: the progress of the version with the placeholder detector,
    for a first [Math.random()] in [0, 1): the percentages handed to the
    callback never go down, however the run ends; and while the detector
    runs they stay between 50 and 50.4, the detector's fraction being
    multiplied by 0.4: the next report is 90. *)
Theorem local_progress_never_goes_down (env : Local.PipelineEnv) (file : File) :
  ge (Local.random env 0%nat) 0 = true -> lt (Local.random env 0%nat) 1 = true ->
  nonDecreasing
    (percentages (events (Local.processAndDisplayImage env file true))) = true /\
  forallb (fun report => (50 <=? fst report) && (fst report <=? 50.4))
    (filter (fun report => String.eqb (snd report) "Detecting pills...")
       (events (Local.processAndDisplayImage env file true))) = true /\
  events (Local.processAndDisplayImage env file false) = [].
Proof.
  unfold ge, lt. intros H0 H1.
  destruct (Local.imageLoad env) as [w h| |] eqn:Hload.
  - destruct (runPillDetection_cases (Local.random env)
                (fst (Local.processedSize Local.maxProcessingDimension w h))
                (snd (Local.processedSize Local.maxProcessingDimension w h)) H0 H1)
      as (numPills & ds & Hn & Hrun & _).
    rewrite !(local_pipeline_run env file w h _ ds Hload Hrun).
    unfold events. cbn [fst].
    cbn [In] in Hn.
    repeat (destruct Hn as [Hn|Hn];
            [rewrite <- Hn; repeat split; vm_compute; reflexivity|]).
    destruct Hn.
  - unfold Local.processAndDisplayImage. rewrite Hload. repeat split; reflexivity.
  - unfold Local.processAndDisplayImage. rewrite Hload. repeat split; reflexivity.
Qed.

Lemma local_progress_witness :
  nonDecreasing
    (percentages (events (Local.processAndDisplayImage quarterRandom smallPng true)))
  = true /\
  forallb (fun report => (50 <=? fst report) && (fst report <=? 50.4))
    (filter (fun report => String.eqb (snd report) "Detecting pills...")
       (events (Local.processAndDisplayImage quarterRandom smallPng true))) = true /\
  events (Local.processAndDisplayImage quarterRandom smallPng false) = [].
Proof.
  apply (local_progress_never_goes_down quarterRandom smallPng); reflexivity.
Defined.

End MockDetector.

(** ** Images that need no downscaling *)

Section SmallImages.

Local Open Scope R_scope.

(** The first shift of [binary_round_aux]: none when the significand is
    exact and already short enough, else down to the exponent of the last
    place. *)
Lemma first_shift_cases (m e : Z) (l : location) (v : R) :
  (0 <= m)%Z -> inbetween m e l v ->
  (l = loc_Exact \/ (e <= fexp64 (Zdigits2 m + e))%Z) ->
  exists mrs1 e1,
    shr_fexp prec emax m e l = (mrs1, e1) /\
    ((e1 = e /\ mrs1 = shr_record_of_loc m l /\ l = loc_Exact /\
      (fexp64 (Zdigits2 m + e) < e)%Z) \/
     (e1 = fexp64 (Zdigits2 m + e) /\ (e <= fexp64 (Zdigits2 m + e))%Z /\
      (0 <= shr_m mrs1 < 2 ^ 53)%Z /\
      inbetween (shr_m mrs1) e1 (loc_of_shr_record mrs1) v /\
      ((-1074 < fexp64 (Zdigits2 m + e))%Z -> (2 ^ 52 <= shr_m mrs1)%Z))).
Proof.
  intros Hm Hin Hcase.
  set (f := fexp64 (Zdigits2 m + e)) in *.
  destruct (Z_lt_le_dec 0 (f - e)) as [Hn|Hn].
  - destruct (shr_fexp_shift m e l v Hm Hin Hn) as (mrs & Heq & Hb & Hi & Hlo).
    exists mrs, f. split; [exact Heq|]. right. repeat split; try lia; auto.
  - exists (shr_record_of_loc m l), e. split; [apply shr_fexp_noshift; exact Hn|].
    destruct (Z.eq_dec e f) as [Hef|Hef].
    + right. rewrite shr_record_of_loc_m, loc_of_shr_record_of_loc.
      assert (Hm0 : (-1074 < f -> 0 < m)%Z).
      { intros Hn1. destruct (Z.eq_dec m 0) as [->|]; [|lia].
        unfold f in Hef, Hn1. rewrite fexp64_eq in Hef, Hn1.
        change (Zdigits2 0) with 0%Z in *. lia. }
      repeat split; try lia; auto.
      * destruct (Z.eq_dec m 0) as [->|Hne]; [lia|].
        assert (Hpos : (0 < m)%Z) by lia.
        destruct (Zdigits2_bounds m Hpos) as [_ Hhi].
        eapply Z.lt_le_trans; [exact Hhi|]. apply Z.pow_le_mono_r; [lia|].
        unfold f in Hef. rewrite fexp64_eq in Hef. lia.
      * intros Hn1. specialize (Hm0 Hn1).
        destruct (Zdigits2_bounds m Hm0) as [Hlo _].
        replace 52%Z with (Zdigits2 m - 1)%Z; [exact Hlo|].
        unfold f in Hef, Hn1. rewrite fexp64_eq in Hef, Hn1. lia.
    + left. destruct Hcase as [Hl|Hle]; [|lia]. repeat split; auto; lia.
Qed.

(** Rounding to nearest never takes a number below a power of two that
    it is not below. *)
Lemma binary_round_aux_lower (sx : bool) (m e : Z) (l : location) (v : R) (k : Z) :
  (0 <= m)%Z -> inbetween m e l v ->
  (l = loc_Exact \/ (e <= fexp64 (Zdigits2 m + e))%Z) ->
  (-1074 <= k)%Z -> bpow k <= v ->
  binary_round_aux prec emax sx m e l = S754_infinity sx \/
  (SF_is_finite (binary_round_aux prec emax sx m e l) = true /\
   exists r, SF2R (binary_round_aux prec emax sx m e l) = signed sx r /\ bpow k <= r).
Proof.
  intros Hm Hin Hcase Hk Hv.
  set (f := fexp64 (Zdigits2 m + e)) in *.
  assert (Hf : (-1074 <= f)%Z) by (unfold f; rewrite fexp64_eq; lia).
  destruct (first_shift_cases m e l v Hm Hin Hcase)
    as (mrs1 & e1 & Heq1 & [(He1 & Hmrs & Hl & Hlt)|(He1 & Hle & Hb & Hi & Hlo)]);
    fold f in Hlt || fold f in He1, Hle, Hlo.
  - subst e1 mrs1 l. unfold binary_round_aux. rewrite Heq1. simpl round_nearest_even.
    rewrite (shr_fexp_noshift m e loc_Exact) by (fold f; lia).
    simpl in Hin.
    destruct (binary_round_aux_finish sx (shr_record_of_loc m loc_Exact) e v)
      as [[Hinf _]|[Hfin Hval]]; simpl; auto.
    right. split; [exact Hfin|]. exists v. split; [exact Hval|exact Hv].
  - subst e1.
    destruct (round_nearest_even_error _ _ _ _ Hi) as (Hr1 & Hr2 & Hr3).
    set (m1 := shr_m mrs1) in *.
    set (m2 := round_nearest_even m1 (loc_of_shr_record mrs1)) in *.
    destruct (second_shr_fexp m2 f ltac:(lia) Hf)
      as (mrs2 & e2 & Heq2 & Hm2 & Hv2 & He2).
    unfold binary_round_aux. rewrite Heq1. fold m1. fold m2. rewrite Heq2.
    destruct (binary_round_aux_finish sx mrs2 e2 (IZR m2 * bpow f) Hm2 Hv2)
      as [[Hinf _]|[Hfin Hval]]; [left; exact Hinf|right].
    split; [exact Hfin|]. exists (IZR m2 * bpow f). split; [exact Hval|].
    pose proof (bpow_pos f) as Hpf.
    assert (Hm12 : IZR m1 <= IZR m2) by (apply IZR_le; lia).
    assert (Hup : v < (IZR m1 + 1) * bpow f \/ v = IZR m1 * bpow f).
    { destruct (loc_of_shr_record mrs1) as [|[]]; simpl in Hi;
        [right; exact Hi|left; lra..]. }
    destruct (Z_le_gt_dec f k) as [Hfk|Hfk].
    + assert (Hbk : bpow k = IZR (2 ^ (k - f)) * bpow f).
      { rewrite <- (bpow_nonneg_IZR (k - f)) by lia. rewrite <- bpow_add.
        f_equal. lia. }
      destruct Hup as [Hup|Hup].
      * assert (Hlt : IZR (2 ^ (k - f)) < IZR m1 + 1).
        { apply (Rmult_lt_reg_r (bpow f)); [exact Hpf|]. rewrite <- Hbk. lra. }
        rewrite <- plus_IZR in Hlt. apply lt_IZR in Hlt.
        assert (Hle2 : IZR (2 ^ (k - f)) <= IZR m2) by (apply IZR_le; lia).
        rewrite Hbk. apply Rmult_le_compat_r; lra.
      * assert (IZR m1 * bpow f <= IZR m2 * bpow f) by (apply Rmult_le_compat_r; lra).
        lra.
    + assert (H52 : (2 ^ 52 <= m1)%Z) by (apply Hlo; lia).
      assert (H1 : 1 <= IZR m2) by (apply IZR_le; lia).
      assert (bpow k <= bpow f) by (apply bpow_le; lia).
      assert (1 * bpow f <= IZR m2 * bpow f) by (apply Rmult_le_compat_r; lra).
      lra.
Qed.


Lemma SFdiv_lower (mx my : positive) (ex ey k : Z) :
  (-1074 <= k)%Z ->
  bpow k <= IZR (Zpos mx) * bpow ex / (IZR (Zpos my) * bpow ey) ->
  SF64div (S754_finite false mx ex) (S754_finite false my ey) = S754_infinity false \/
  (SF_is_finite (SF64div (S754_finite false mx ex) (S754_finite false my ey)) = true /\
   bpow k <= SF2R (SF64div (S754_finite false mx ex) (S754_finite false my ey))).
Proof.
  intros Hk Hv. unfold SF64div, SFdiv.
  destruct (SFdiv_core_binary_correct mx my ex ey)
    as (q & e' & l & Heq & Hq & Hin & Hle & Hq0).
  rewrite Heq. simpl xorb.
  destruct (binary_round_aux_lower false q e' l _ k Hq Hin (or_intror Hle) Hk Hv)
    as [Hinf|(Hfin & r & Hval & Hr)]; [left; exact Hinf|right].
  split; [exact Hfin|]. rewrite Hval. exact Hr.
Qed.

(** The quotient of a number by a positive one that is not above it is at
    least 1, however it rounds. *)
Lemma div_at_least_one (c d : float) :
  is_finite c = true -> is_finite d = true ->
  (0 <? d)%float = true -> (d <=? c)%float = true ->
  (1 <=? c / d)%float = true.
Proof.
  intros Hfc Hfd Hd Hdc.
  pose proof (proj1 (ltb_zero_F2R d Hfd) Hd) as Hd0.
  pose proof (proj1 (leb_F2R d c Hfd Hfc) Hdc) as Hle.
  assert (Hc : (0 <? c)%float = true) by (apply ltb_zero_F2R; [assumption|lra]).
  pose proof Hd as Hd'. pose proof Hc as Hc'.
  apply ltb_zero_cases in Hd'. apply ltb_zero_cases in Hc'.
  rewrite is_finite_SF in Hfc, Hfd.
  destruct Hc' as [Hc'|(mx & ex & Hx)]; [rewrite Hc' in Hfc; discriminate|].
  destruct Hd' as [Hd'|(my & ey & Hy)]; [rewrite Hd' in Hfd; discriminate|].
  unfold F2R in Hd0, Hle. rewrite Hx in Hle. rewrite Hy in Hd0, Hle.
  rewrite !SF2R_finite in *. simpl signed in *.
  assert (Hq : bpow 0 <= IZR (Zpos mx) * bpow ex / (IZR (Zpos my) * bpow ey)).
  { change (bpow 0) with 1.
    pose proof (bpow_pos ey) as Hbey.
    assert (Hmy : 0 < IZR (Zpos my)) by (apply IZR_lt; lia).
    apply (Rmult_le_reg_r (IZR (Zpos my) * bpow ey)); [exact Hd0|].
    replace (IZR (Zpos mx) * bpow ex / (IZR (Zpos my) * bpow ey)
             * (IZR (Zpos my) * bpow ey))
      with (IZR (Zpos mx) * bpow ex) by (field; lra).
    lra. }
  assert (Ha : Prim2SF (c / d)
               = SF64div (S754_finite false mx ex) (S754_finite false my ey)).
  { rewrite div_spec, Hx, Hy. reflexivity. }
  destruct (SFdiv_lower mx my ex ey 0 ltac:(lia) Hq) as [Hinf|[Hfin Hr]];
    rewrite <- Ha in *.
  - rewrite leb_spec, Hinf. reflexivity.
  - rewrite <- is_finite_SF in Hfin. apply (leb_F2R 1 _ eq_refl Hfin).
    change (bpow 0) with 1 in Hr. fold (F2R (c / d)) in Hr.
    replace (F2R 1) with 1; [exact Hr|].
    unfold F2R. change (Prim2SF 1) with (S754_finite false 4503599627370496 (-52)).
    rewrite SF2R_finite. simpl signed.
    change (bpow (-52)) with (/ IZR (Z.pow_pos 2 52)).
    change (Z.pow_pos 2 52) with 4503599627370496%Z.
    rewrite Rinv_r; [reflexivity|].
    apply not_eq_sym, Rlt_not_eq, IZR_lt. reflexivity.
Qed.


Local Open Scope float_scope.

Lemma leb_one_not_neg_zero (m : float) :
  (1 <=? m) = true -> (m <? 1) = false /\ is_neg_zero m = false /\ is_nan m = false.
Proof.
  intros H. split; [apply leb_not_gt; exact H|].
  rewrite leb_spec in H. unfold is_neg_zero. rewrite is_nan_SF.
  change (Prim2SF 1) with (S754_finite false 4503599627370496 (-52)) in H.
  destruct (Prim2SF m) as [s|s| |s mm e]; try discriminate; try (split; reflexivity).
Qed.

(** An image that is not larger than the limit is processed at scale
    exactly 1. *)
Lemma scaleFor_small (c w h : float) :
  is_finite c = true -> is_finite w = true -> is_finite h = true ->
  (0 <? w) = true -> (0 <? h) = true ->
  (w <=? c) = true -> (h <=? c) = true ->
  Local.scaleFor c w h = 1.
Proof.
  intros Hfc Hfw Hfh Hw Hh Hwc Hhc.
  pose proof (div_at_least_one c w Hfc Hfw Hw Hwc) as Ha.
  pose proof (div_at_least_one c h Hfc Hfh Hh Hhc) as Hb.
  destruct (leb_one_not_neg_zero _ Ha) as (_ & _ & Hna).
  destruct (leb_one_not_neg_zero _ Hb) as (_ & _ & Hnb).
  assert (Hm : (1 <=? Math_min2 (c / w) (c / h)) = true).
  { destruct (Math_min2_cases _ _ Hna Hnb) as [-> | ->]; assumption. }
  destruct (leb_one_not_neg_zero _ Hm) as (Hlt & Hnz & Hnm).
  unfold Local.scaleFor, Math_min3.
  set (m := Math_min2 (c / w) (c / h)) in *.
  unfold Math_min2. rewrite Hnm, Hlt, Hnz. simpl.
  destruct (1 <? m); reflexivity.
Qed.

(** X22: an image whose width and height are positive and at most 1024
    is processed at scale exactly 1 (the quotients [1024 / width] and
    [1024 / height] never round below 1): the pipeline returns that factor,
    and the boxes it returns have the coordinates, sizes and confidences of
    the detector's, run on the processed canvas, unchanged bit for bit. *)
Theorem small_images_are_processed_unscaled
    (env : Local.PipelineEnv) (file : File) (onProgress : bool) (w h : number) :
  Local.imageLoad env = Loaded w h ->
  is_finite w = true -> is_finite h = true ->
  lt 0 w = true -> lt 0 h = true ->
  ge 1024 w = true -> ge 1024 h = true ->
  Local.scaleFor Local.maxProcessingDimension w h = 1 /\
  exists r inferred,
    result (Local.runPillDetection (Local.random env)
              (fst (Local.processedSize Local.maxProcessingDimension w h))
              (snd (Local.processedSize Local.maxProcessingDimension w h))
              true) = Returned inferred /\
    result (Local.processAndDisplayImage env file onProgress) = Returned r /\
    Local.processingScale r = 1 /\
    map x (Local.detections r) = map x inferred /\
    map y (Local.detections r) = map y inferred /\
    map width (Local.detections r) = map width inferred /\
    map height (Local.detections r) = map height inferred /\
    map confidence (Local.detections r) = map confidence inferred.
Proof.
  unfold lt, ge. intros Hload Hfw Hfh Hw Hh Hw1 Hh1.
  assert (Hs : Local.scaleFor Local.maxProcessingDimension w h = 1).
  { apply scaleFor_small; try assumption; reflexivity. }
  split; [exact Hs|].
  destruct (runPillDetection_returns (Local.random env)
              (fst (Local.processedSize Local.maxProcessingDimension w h))
              (snd (Local.processedSize Local.maxProcessingDimension w h)))
    as (fractions & ds & Hrun).
  rewrite (local_pipeline_run env file w h fractions ds Hload Hrun onProgress).
  rewrite Hs. eexists. exists ds. rewrite (Hrun true). unfold result. cbn [snd].
  split; [reflexivity|].
  split; [reflexivity|].
  cbn [Local.processingScale Local.detections].
  split; [reflexivity|].
  rewrite !map_map. unfold Local.scaleDetection. cbn [x y width height confidence].
  repeat split; apply map_ext; intros d; try apply div_one; reflexivity.
Qed.

Lemma small_images_witness :
  Local.scaleFor Local.maxProcessingDimension 800 600 = 1 /\
  exists r inferred,
    result (Local.runPillDetection (Local.random smallImageRun)
              (fst (Local.processedSize Local.maxProcessingDimension 800 600))
              (snd (Local.processedSize Local.maxProcessingDimension 800 600))
              true) = Returned inferred /\
    result (Local.processAndDisplayImage smallImageRun smallPng true) = Returned r /\
    Local.processingScale r = 1 /\
    map x (Local.detections r) = map x inferred /\
    map y (Local.detections r) = map y inferred /\
    map width (Local.detections r) = map width inferred /\
    map height (Local.detections r) = map height inferred /\
    map confidence (Local.detections r) = map confidence inferred.
Proof.
  apply (small_images_are_processed_unscaled smallImageRun smallPng true 800 600);
    reflexivity.
Defined.

End SmallImages.

(** ** The validator of [files/imageProcessing.js] *)

Section DraftValidator.

Local Open Scope string_scope.

Lemma callOnload_recalls (stack : nat) (env : Api.ValidatorEnv) (file : File)
    (w h : number) :
  events (Local.callOnload stack Local.installedOnload env file w h)
  = repeat Local.ClearTimeout stack.
Proof.
  induction stack as [|stack IH]; [reflexivity|].
  simpl. unfold events, bind, emit in *. simpl. rewrite IH. reflexivity.
Qed.

Lemma settlement_of_clears (n : nat) (calls : list Local.ValidatorCall) :
  Local.settlement (repeat Local.ClearTimeout n ++ calls) = Local.settlement calls.
Proof. induction n as [|n IH]; [reflexivity|exact IH]. Qed.

(** X23: in [files/imageProcessing.js] the handler that draws and
    encodes is replaced, before the image loads, by one that calls
    [img.onload()], that is itself: when the image loads, the validator
    clears its timer, recurses until the call stack is exhausted and leaves
    its promise pending, without drawing, encoding or revoking the object
    URL. So this validator never resolves with a file: its promise is
    rejected (file too large, load error, timeout) or never settled,
    whatever the image still does after a timeout. *)
Theorem draft_validator_never_resolves
    (stack : nat) (env : Api.ValidatorEnv) (file : File) :
  (forall compressedFile,
      snd (Local.validateAndCompressImage stack env file)
      <> Local.Resolved compressedFile) /\
  Local.validateAndCompressImage stack env file
  = (if (size file >? Api.MAX_FILE_SIZE)%Z
     then ([], Local.Rejected Api.tooLargeMessage)
     else match Api.decode env with
          | Loaded _ _ =>
              (Local.CreateObjectURL file :: Local.DecodeImage
                 :: repeat Local.ClearTimeout (S stack),
               Local.Pending)
          | LoadError =>
              ([Local.CreateObjectURL file; Local.DecodeImage;
                Local.RevokeObjectURL;
                Local.Reject "Failed to load image. Please try again.";
                Local.RevokeObjectURL;
                Local.Reject "Image loading timed out. Please try a smaller image."],
               Local.Rejected "Failed to load image. Please try again.")
          | LoadTimeout later =>
              ([Local.CreateObjectURL file; Local.DecodeImage;
                Local.RevokeObjectURL;
                Local.Reject "Image loading timed out. Please try a smaller image."]
               ++ match later with
                  | NoLateEvent => []
                  | LateLoad _ _ => repeat Local.ClearTimeout (S stack)
                  | LateError =>
                      [Local.RevokeObjectURL;
                       Local.Reject "Failed to load image. Please try again."]
                  end,
               Local.Rejected "Image loading timed out. Please try a smaller image.")
          end)%list.
Proof.
  assert (Heq : Local.validateAndCompressImage stack env file
                = (if (size file >? Api.MAX_FILE_SIZE)%Z
                   then ([], Local.Rejected Api.tooLargeMessage)
                   else match Api.decode env with
                        | Loaded _ _ =>
                            (Local.CreateObjectURL file :: Local.DecodeImage
                               :: repeat Local.ClearTimeout (S stack),
                             Local.Pending)
                        | LoadError =>
                            ([Local.CreateObjectURL file; Local.DecodeImage;
                              Local.RevokeObjectURL;
                              Local.Reject "Failed to load image. Please try again.";
                              Local.RevokeObjectURL;
                              Local.Reject "Image loading timed out. Please try a smaller image."],
                             Local.Rejected "Failed to load image. Please try again.")
                        | LoadTimeout later =>
                            ([Local.CreateObjectURL file; Local.DecodeImage;
                              Local.RevokeObjectURL;
                              Local.Reject "Image loading timed out. Please try a smaller image."]
                             ++ match later with
                                | NoLateEvent => []
                                | LateLoad _ _ => repeat Local.ClearTimeout (S stack)
                                | LateError =>
                                    [Local.RevokeObjectURL;
                                     Local.Reject "Failed to load image. Please try again."]
                                end,
                             Local.Rejected "Image loading timed out. Please try a smaller image.")
                        end)%list).
  { unfold Local.validateAndCompressImage, Local.validationCalls.
    destruct (size file >? Api.MAX_FILE_SIZE)%Z; [reflexivity|].
    destruct (Api.decode env) as [w h| |[|w h|]]; try reflexivity.
    - rewrite callOnload_recalls. f_equal.
      change (Local.settlement (repeat Local.ClearTimeout (S stack)) = Local.Pending).
      rewrite <- (app_nil_r (repeat Local.ClearTimeout (S stack))).
      apply settlement_of_clears.
    - rewrite callOnload_recalls. reflexivity. }
  split; [|exact Heq].
  intros f. rewrite Heq.
  destruct (size file >? Api.MAX_FILE_SIZE)%Z; [discriminate|].
  destruct (Api.decode env); discriminate.
Qed.

End DraftValidator.
